(** * health-scribe-gpt: the journal analysis engine

    A shallow embedding of the analysis engine of the repository
    (local extraction, enrichment cache, retry wrapper, rate limiter,
    batch aggregation and the sleep part of the health score) and the
    properties of its specification, proved or refuted on that embedding.

    JavaScript numbers are IEEE-754 binary64 values; they are modelled by
    Rocq's primitive floats, which are the same format with the same
    round-to-nearest-even operations.  Times returned by [Date.now()] are
    integral numbers of milliseconds and are modelled in [Z]. *)

From Stdlib Require Import ZArith List String Ascii Bool Lia.
From Stdlib Require Import Floats Sorted.
From stdpp Require Import gmap strings list.
Import ListNotations.

Set Warnings "-register-all,-inexact-float,-abstract-large-number".
Local Open Scope Z_scope.

(* ===================================================================== *)
(** * Part I: the program *)
(* ===================================================================== *)

(** ** The JavaScript runtime: numbers *)

Module JS.

Abbreviation number := float.

(** The number value of an integer (an array length, a count). *)
Definition of_Z (z : Z) : number := SF2Prim (binary_normalize prec emax z 0 false).
Definition of_nat (n : nat) : number := of_Z (Z.of_nat n).

(** [x > y] is [y < x]; both are false as soon as one side is NaN. *)
Definition gtb (x y : number) : bool := (y <? x)%float.
Definition geb (x y : number) : bool := (y <=? x)%float.

(** Truthiness of a number: [0], [-0] and [NaN] are falsy. *)
Definition truthy_number (x : number) : bool := negb (is_zero x || is_nan x).

(** [v || 0] for a value that is a number, [null] or [undefined]. *)
Definition or_zero (v : option number) : number :=
  match v with
  | Some x => if truthy_number x then x else 0%float
  | None => 0%float
  end.

(** [Math.min(x, y)] and [Math.max(x, y)]: NaN if one argument is NaN, and
    [-0] is below [+0]. *)
Definition Math_min (x y : number) : number :=
  if is_nan x || is_nan y then nan
  else if (x <? y)%float then x
  else if (y <? x)%float then y
  else if get_sign x then x else y.

Definition Math_max (x y : number) : number :=
  if is_nan x || is_nan y then nan
  else if (x <? y)%float then y
  else if (y <? x)%float then x
  else if get_sign x then y else x.

Definition Math_abs (x : number) : number := abs x.

(** [Math.round(x)]: the integer nearest to [x], ties towards +infinity,
    computed exactly; a result of zero keeps the sign of [x]. *)
Definition Math_round (x : number) : number :=
  match Prim2SF x with
  | S754_finite s m e =>
      if 0 <=? e then x
      else
        let v := if s then Z.neg m else Z.pos m in
        let n := Z.shiftr (2 * v + Z.shiftl 1 (- e)) (- e + 1) in
        if n =? 0 then (if s then neg_zero else zero) else of_Z n
  | _ => x
  end.

(** [arr.slice(a, b)] and [arr.slice(a)] for indices [0 <= a <= b]. *)
Definition slice {A} (arr : list A) (a b : nat) : list A :=
  firstn (b - a) (skipn a arr).
Definition slice_from {A} (arr : list A) (a : nat) : list A := skipn a arr.

End JS.

(** ** Batch aggregation: trends ([route.js], batch version) *)

Module Trend.
Import JS.

Inductive trend := improving | stable | declining.

(** [function average(arr)]: [arr.reduce((a, b) => a + b, 0) / arr.length]. *)
Definition average (arr : list number) : number :=
  (fold_left (fun a b => a + b) arr 0 / of_nat (length arr))%float.

(** The local [changePct] of [calculateTrend]. *)
Definition changePct (firstAvg secondAvg : number) : number :=
  (((secondAvg - firstAvg) / firstAvg) * 100)%float.

(** [function calculateTrend(values)]. *)
Definition calculateTrend (values : list number) : trend :=
  if (length values <? 2)%nat then stable
  else
    let firstHalf := slice values 0 (length values / 2) in
    let secondHalf := slice_from values (length values / 2) in
    let firstAvg := average firstHalf in
    let secondAvg := average secondHalf in
    let changePct := changePct firstAvg secondAvg in
    if gtb changePct 10 then improving
    else if (changePct <? -10)%float then declining
    else stable.

(** The classification in the words of the specification: improving above
    +10 percent, declining below -10 percent, stable otherwise. *)
Definition classify (percentChange : number) : trend :=
  if (10 <? percentChange)%float then improving
  else if (percentChange <? -10)%float then declining
  else stable.

(** Every value of the series is zero, of either sign. *)
Definition all_zero (values : list number) : Prop :=
  Forall (fun v => (v =? 0)%float = true) values.

End Trend.

(** ** The trend in the words of the specification *)

Module TrendSpec.
Import JS.

(** The sum of a series, its values added in their order. *)
Fixpoint sum_from (total : number) (values : list number) : number :=
  match values with
  | [] => total
  | v :: values' => sum_from (total + v)%float values'
  end.

(** The arithmetic mean: the sum of the values divided by their number. *)
Definition arithmetic_mean (values : list number) : number :=
  (sum_from 0 values / of_nat (length values))%float.

(** [(secondMean - firstMean) / firstMean * 100]. *)
Definition percentChange (firstMean secondMean : number) : number :=
  ((secondMean - firstMean) / firstMean * 100)%float.

End TrendSpec.

(** ** The JavaScript runtime: values, promises *)

Module Runtime.
Import JS.

(** Values as [JSON.parse] builds them, plus [undefined]. *)
Inductive value :=
| VUndefined
| VNull
| VBool (b : bool)
| VNum (x : number)
| VStr (s : string)
| VArr (items : list value)
| VObj (props : list (string * value)).

(** Truthiness ([!v] is its negation). *)
Definition truthy (v : value) : bool :=
  match v with
  | VUndefined | VNull => false
  | VBool b => b
  | VNum x => truthy_number x
  | VStr s => negb (String.eqb s "")
  | VArr _ | VObj _ => true
  end.

Definition Array_isArray (v : value) : bool :=
  match v with VArr _ => true | _ => false end.

Fixpoint assoc (k : string) (props : list (string * value)) : option value :=
  match props with
  | [] => None
  | (k', v) :: rest => if String.eqb k k' then Some v else assoc k rest
  end.

(** [v.k] for a key [k] that names no built-in property ([insights],
    [suggestions], [content], [id], [entries]): a [TypeError] ([None]) on
    [null] and [undefined], the own property of an object, [undefined]
    elsewhere. *)
Definition prop (v : value) (k : string) : option value :=
  match v with
  | VUndefined | VNull => None
  | VObj props => Some (default VUndefined (assoc k props))
  | _ => Some VUndefined
  end.

(** The names of the members of [Object.prototype].  A read [obj[k]] and a
    test [k in obj] on an object literal find them when the object has no
    own property [k]: each is a function, or for [__proto__] an object, so
    truthy and not a number. *)
Definition Object_prototype : list string :=
  ["constructor"; "__defineGetter__"; "__defineSetter__"; "hasOwnProperty";
   "__lookupGetter__"; "__lookupSetter__"; "isPrototypeOf"; "propertyIsEnumerable";
   "toString"; "valueOf"; "__proto__"; "toLocaleString"]%string.

Definition inherited (k : string) : bool := existsb (String.eqb k) Object_prototype.

(** The settlement of an awaited promise, or of a call that may throw. *)
Inductive outcome (A E : Type) :=
| Resolved (result : A)
| Rejected (error : E).
Arguments Resolved {A E} result.
Arguments Rejected {A E} error.

(** An [Error] object is identified with its message. *)
Abbreviation Error := string.

End Runtime.

(** ** The request handler: rate limiting and retry ([route.js]) *)

Module Route.
Import JS Runtime.

Definition RATE_LIMIT : nat := 10.
Definition COOLDOWN : Z := 60 * 1000.

(** [function checkRateLimit(ip)] of the single-entry handler, at time
    [now = Date.now()], on the module-level [requestLog]. *)
Definition checkRateLimit (ip : string) (now : Z) (requestLog : gmap string (list Z))
  : bool * gmap string (list Z) :=
  let userRequests := default [] (requestLog !! ip) in
  let recentRequests :=
    List.filter (fun timestamp => now - timestamp <? COOLDOWN) userRequests in
  if (RATE_LIMIT <=? length recentRequests)%nat then (false, requestLog)
  else (true, <[ip := recentRequests ++ [now]]> requestLog).

(** [Math.min(...arr)] on a non-empty array of integers (on the empty array
    JavaScript gives [Infinity]; the handler only calls it on at least
    [RATE_LIMIT] elements). *)
Definition Math_min_list (arr : list Z) : Z :=
  match arr with
  | [] => 0
  | x :: rest => fold_left Z.min rest x
  end.

(** [Math.ceil(a / b)] for an integer [a] and [b > 0]. *)
Definition Math_ceil_div (a b : Z) : Z := - ((- a) / b).

Inductive admission :=
| Allowed
| TooManyRequests (retryAfter : Z).

(** The rate-limit check at the head of [POST] in the batch handler. *)
Definition POST_rateLimit (clientIp : string) (now : Z)
    (requestLog : gmap string (list Z)) : admission * gmap string (list Z) :=
  let timestamps := default [] (requestLog !! clientIp) in
  let recentRequests := List.filter (fun time => now - time <? COOLDOWN) timestamps in
  if (RATE_LIMIT <=? length recentRequests)%nat then
    let oldestRequest := Math_min_list recentRequests in
    let retryAfter := Math_ceil_div (COOLDOWN - (now - oldestRequest)) 1000 in
    (TooManyRequests retryAfter, requestLog)
  else (Allowed, <[clientIp := recentRequests ++ [now]]> requestLog).

(** The timestamps of [ip] that a check at time [now] retains. *)
Definition retained (ip : string) (now : Z) (requestLog : gmap string (list Z)) : list Z :=
  List.filter (fun time => now - time <? COOLDOWN) (default [] (requestLog !! ip)).

(** The rate-limit check at the head of [POST] in the single-entry handler:
    a refusal always reports [COOLDOWN / 1000]. *)
Definition POST_single_rateLimit (clientIp : string) (now : Z)
    (requestLog : gmap string (list Z)) : admission * gmap string (list Z) :=
  let '(ok, requestLog') := checkRateLimit clientIp now requestLog in
  if ok then (Allowed, requestLog') else (TooManyRequests (COOLDOWN / 1000), requestLog').

(** [cleanupRequestLog], run every [COOLDOWN] milliseconds. *)
Definition cleanupRequestLog (now : Z) (requestLog : gmap string (list Z))
  : gmap string (list Z) :=
  omap (fun timestamps =>
          let validTimestamps :=
            List.filter (fun time => now - time <? COOLDOWN) timestamps in
          if (length validTimestamps =? 0)%nat then None else Some validTimestamps)
       requestLog.

(** A caller's successive requests, each at its own time. *)
Fixpoint serve (clientIp : string) (times : list Z) (requestLog : gmap string (list Z))
  : list admission * gmap string (list Z) :=
  match times with
  | [] => ([], requestLog)
  | now :: later =>
      let '(a, requestLog') := POST_rateLimit clientIp now requestLog in
      let '(rest, final) := serve clientIp later requestLog' in
      (a :: rest, final)
  end.

Definition allowed (a : admission) : bool :=
  match a with Allowed => true | TooManyRequests _ => false end.

(** *** [retryAnalysis] *)

(** What a run of [retryAnalysis] does, in order: calls of
    [analyzeJournalEntry] and timers it waits for. *)
Inductive event :=
| Call (attempt : nat)
| SetTimeout (ms : Z).

Section Retry.
Context {A : Type}.

(** The settlement of the [i]-th call [analyzeJournalEntry(content)] that a
    run makes. *)
Variable analyzeJournalEntry : string -> nat -> outcome A Error.

(** The loop [for (let i = 0; i < maxRetries; i++)] from iteration [i] on,
    with [remaining = maxRetries - i]; [lastError] is [None] while it is
    still [undefined].  The delay [Math.pow(2, i) * 1000] is written as an
    integer, which it is exactly up to [i = 21]; from [i = 22] on it is
    above the longest delay of a timer, which then fires after 1 ms, and
    from [i = 1015] on it is [Infinity]. *)
Fixpoint retry_from (content : string) (remaining i : nat) (lastError : option Error)
  : list event * outcome A (option Error) :=
  match remaining with
  | O => ([], Rejected lastError)
  | S remaining' =>
      match analyzeJournalEntry content i with
      | Resolved result => ([Call i], Resolved result)
      | Rejected error =>
          let '(events, settled) := retry_from content remaining' (S i) (Some error) in
          (Call i :: SetTimeout (2 ^ Z.of_nat i * 1000) :: events, settled)
      end
  end.

(** [async function retryAnalysis(content, maxRetries = 2)]. *)
Definition retryAnalysis (content : string) (maxRetries : nat)
  : list event * outcome A (option Error) :=
  retry_from content maxRetries 0 None.

End Retry.

Definition calls (events : list event) : nat :=
  length (List.filter (fun e => match e with Call _ => true | _ => false end) events).

End Route.

(** ** Regular expressions

    The patterns of [analyzeJournal.js] are built from literals, [\d], [\s],
    [\b], groups, alternation and the greedy quantifiers [?], [*] and [+];
    each has at most one capturing group.  [run] is the backtracking matcher
    of ECMAScript: alternatives left to right, greedy quantifiers longest
    first, an iteration of [*] that consumes nothing is rejected.  A text is
    a sequence of UTF-16 code units below 256, one [ascii] each. *)

Module Regex.

Inductive regex :=
| Empty
| Lit (s : string)
| Digit
| Space
| WordBoundary
| Seq (r1 r2 : regex)
| Alt (r1 r2 : regex)
| Opt (r : regex)
| Star (r : regex)
| Plus (r : regex)
| Group (r : regex).

Definition seq_of (rs : list regex) : regex := fold_right Seq Empty rs.

Definition alt_of (first : regex) (others : list regex) : regex :=
  fold_left Alt others first.

Definition code (a : ascii) : nat := nat_of_ascii a.

Definition is_digit (a : ascii) : bool := (48 <=? code a)%nat && (code a <=? 57)%nat.
Definition is_upper (a : ascii) : bool := (65 <=? code a)%nat && (code a <=? 90)%nat.
Definition is_lower (a : ascii) : bool := (97 <=? code a)%nat && (code a <=? 122)%nat.

(** [\s]: tab, line feed, vertical tab, form feed, carriage return, space
    and the no-break space. *)
Definition is_space (a : ascii) : bool :=
  ((9 <=? code a)%nat && (code a <=? 13)%nat) || (code a =? 32)%nat || (code a =? 160)%nat.

(** [\w]: letters, digits and the underscore. *)
Definition is_word (a : ascii) : bool :=
  is_digit a || is_upper a || is_lower a || (code a =? 95)%nat.

(** Canonicalisation under the [i] flag: upper case for the letters a-z; a
    code unit from 128 on is never equal to one below 128, and the patterns
    only hold characters below 128. *)
Definition canonicalize (a : ascii) : ascii :=
  if is_lower a then ascii_of_nat (code a - 32) else a.

Definition char_eq (ignoreCase : bool) (p a : ascii) : bool :=
  if ignoreCase then Ascii.eqb (canonicalize p) (canonicalize a) else Ascii.eqb p a.

(** A position in the text while matching: the character before it, the
    text from it on, the number of characters taken since the match began,
    the characters taken so far by the capturing group while it is open
    (latest first), and the closed capture. *)
Record cursor := {
  before : option ascii;
  rest : list ascii;
  consumed : nat;
  open_group : option (list ascii);
  capture : option (list ascii)
}.

Definition advance (a : ascii) (c : cursor) (rest' : list ascii) : cursor :=
  {| before := Some a; rest := rest'; consumed := S (consumed c);
     open_group := option_map (cons a) (open_group c);
     capture := capture c |}.

Definition take_if (p : ascii -> bool) (c : cursor) : option cursor :=
  match rest c with
  | a :: rest' => if p a then Some (advance a c rest') else None
  | [] => None
  end.

Fixpoint take_lit (ignoreCase : bool) (s : string) (c : cursor) : option cursor :=
  match s with
  | EmptyString => Some c
  | String p s' =>
      match take_if (char_eq ignoreCase p) c with
      | Some c' => take_lit ignoreCase s' c'
      | None => None
      end
  end.

Definition at_word_boundary (c : cursor) : bool :=
  xorb (match before c with Some a => is_word a | None => false end)
       (match rest c with a :: _ => is_word a | [] => false end).

Fixpoint run (ignoreCase : bool) (r : regex) (c : cursor)
    (k : cursor -> option cursor) {struct r} : option cursor :=
  match r with
  | Empty => k c
  | Lit s => match take_lit ignoreCase s c with Some c' => k c' | None => None end
  | Digit => match take_if is_digit c with Some c' => k c' | None => None end
  | Space => match take_if is_space c with Some c' => k c' | None => None end
  | WordBoundary => if at_word_boundary c then k c else None
  | Seq r1 r2 => run ignoreCase r1 c (fun c' => run ignoreCase r2 c' k)
  | Alt r1 r2 =>
      match run ignoreCase r1 c k with
      | Some c' => Some c'
      | None => run ignoreCase r2 c k
      end
  | Opt r1 =>
      match run ignoreCase r1 c k with
      | Some c' => Some c'
      | None => k c
      end
  | Star r1 =>
      (fix loop (fuel : nat) (c : cursor) {struct fuel} : option cursor :=
         match fuel with
         | O => k c
         | S fuel' =>
             match run ignoreCase r1 c
                     (fun c' => if (consumed c <? consumed c')%nat
                                then loop fuel' c' else None) with
             | Some c' => Some c'
             | None => k c
             end
         end) (length (rest c)) c
  | Plus r1 =>
      run ignoreCase r1 c
        (fun c1 =>
           (fix loop (fuel : nat) (c : cursor) {struct fuel} : option cursor :=
              match fuel with
              | O => k c
              | S fuel' =>
                  match run ignoreCase r1 c
                          (fun c' => if (consumed c <? consumed c')%nat
                                     then loop fuel' c' else None) with
                  | Some c' => Some c'
                  | None => k c
                  end
              end) (length (rest c1)) c1)
  | Group r1 =>
      run ignoreCase r1
        {| before := before c; rest := rest c; consumed := consumed c;
           open_group := Some []; capture := capture c |}
        (fun c' =>
           k {| before := before c'; rest := rest c'; consumed := consumed c';
                open_group := None;
                capture := option_map (@rev ascii) (open_group c') |})
  end.

(** A regular expression literal [/source/] or [/source/i]. *)
Record RegExp := { source : regex; ignoreCase : bool }.

(** The match that begins at the position of the cursor, if there is one. *)
Definition match_here (re : RegExp) (b : option ascii) (text : list ascii) : option cursor :=
  run (ignoreCase re) (source re)
      {| before := b; rest := text; consumed := 0; open_group := None; capture := None |}
      Some.

(** The result of a successful match: where it begins and its capture. *)
Record MatchResult := { index : nat; group1 : option (list ascii) }.

(** The leftmost match from position [i] on, [b] being the character before
    that position. *)
Fixpoint exec_from (re : RegExp) (b : option ascii) (text : list ascii) (i : nat)
  : option MatchResult :=
  match match_here re b text with
  | Some c => Some {| index := i; group1 := capture c |}
  | None =>
      match text with
      | [] => None
      | a :: text' => exec_from re (Some a) text' (S i)
      end
  end.

(** [text.match(re)] for a pattern without the [g] flag, and [re.test(text)]. *)
Definition String_match (text : string) (re : RegExp) : option MatchResult :=
  exec_from re None (list_ascii_of_string text) 0.

Definition test (re : RegExp) (text : string) : bool :=
  match String_match text re with Some _ => true | None => false end.

(** No match begins at any position inside [pre] in the text [pre ++ post]. *)
Fixpoint no_match_within (re : RegExp) (b : option ascii) (pre post : list ascii) : bool :=
  match pre with
  | [] => true
  | a :: pre' =>
      match match_here re b (pre ++ post) with
      | Some _ => false
      | None => no_match_within re (Some a) pre' post
      end
  end.

(** The character before the position that follows [pre], [b] being the
    one before [pre]. *)
Definition last_before (b : option ascii) (pre : list ascii) : option ascii :=
  match rev pre with a :: _ => Some a | [] => b end.

End Regex.

(** ** Local extraction ([analyzeJournal.js]) *)

Module AnalyzeJournal.
Import JS Runtime Regex.

(** [\b(?:w1|w2|...)\b] with the [i] flag. *)
Definition words (first : string) (others : list string) : RegExp :=
  {| source := seq_of [WordBoundary; alt_of (Lit first) (map Lit others); WordBoundary];
     ignoreCase := true |}.

(** [patterns.sleep]:
    [/(?:slept|sleep)\s*(?:for|about)?\s*(\d+(?:\.\d+)?)\s*hours?/i]. *)
Definition patterns_sleep : RegExp :=
  {| source :=
       seq_of [Alt (Lit "slept") (Lit "sleep"); Star Space;
               Opt (Alt (Lit "for") (Lit "about")); Star Space;
               Group (Seq (Plus Digit) (Opt (Seq (Lit ".") (Plus Digit))));
               Star Space; Lit "hour"; Opt (Lit "s")];
     ignoreCase := true |}.

(** [patterns.exercise]:
    [/(?:exercised|worked out|ran|jogged|walked)\s*(?:for)?\s*(\d+)\s*(?:min(?:ute)?s?|hours?)/i]. *)
Definition patterns_exercise : RegExp :=
  {| source :=
       seq_of [alt_of (Lit "exercised")
                 [Lit "worked out"; Lit "ran"; Lit "jogged"; Lit "walked"];
               Star Space; Opt (Lit "for"); Star Space;
               Group (Plus Digit); Star Space;
               Alt (seq_of [Lit "min"; Opt (Lit "ute"); Opt (Lit "s")])
                   (seq_of [Lit "hour"; Opt (Lit "s")])];
     ignoreCase := true |}.

(** [patterns.mood], [patterns.energy] and [patterns.symptoms], in the order
    of their keys, which is the order [Object.entries] lists them in. *)
Definition patterns_mood : list (string * RegExp) :=
  [("positive", words "happy" ["great"; "good"; "excellent"; "wonderful"; "amazing"; "fantastic"]);
   ("negative", words "sad" ["bad"; "terrible"; "awful"; "depressed"; "unhappy"; "stressed"]);
   ("neutral", words "okay" ["fine"; "alright"; "normal"])].

Definition patterns_energy : list (string * RegExp) :=
  [("high", words "energetic" ["energized"; "active"; "full of energy"]);
   ("low", words "tired" ["exhausted"; "fatigued"; "low energy"]);
   ("medium", words "moderate energy" ["decent energy"])].

Definition patterns_symptoms : list (string * RegExp) :=
  [("headache", words "headache" ["migraine"]);
   ("nausea",
    {| source :=
         seq_of [WordBoundary;
                 alt_of (Lit "nausea")
                   [Lit "nauseated";
                    seq_of [Lit "sick to "; Alt (Lit "my") (Lit "the"); Lit " stomach"]];
                 WordBoundary];
       ignoreCase := true |});
   ("pain", words "pain" ["ache"; "sore"]);
   ("anxiety", words "anxiety" ["anxious"; "worried"; "stress"]);
   ("fatigue", words "fatigue" ["exhaustion"; "tired"])].

(** [text.toLowerCase()] on code units below 256: A-Z and the capital
    letters of Latin-1 (192-222 without the multiplication sign 215). *)
Definition lower_char (a : ascii) : ascii :=
  if is_upper a
     || ((192 <=? code a)%nat && (code a <=? 222)%nat && negb (code a =? 215)%nat)
  then ascii_of_nat (code a + 32) else a.

Fixpoint toLowerCase (s : string) : string :=
  match s with
  | EmptyString => EmptyString
  | String a s' => String (lower_char a) (toLowerCase s')
  end.

(** Decimal digits to an integer. *)
Definition digits_value (ds : list ascii) : Z :=
  fold_left (fun acc d => 10 * acc + Z.of_nat (code d - 48)) ds 0.

(** The number nearest to [m / 10^k] for [m >= 0] (ties to even). *)
Definition decimal (m : Z) (k : nat) : number :=
  match m with
  | Z0 => zero
  | Zpos _ =>
      let '(q, e, l) := SFdiv_core_binary prec emax m 0 (10 ^ Z.of_nat k) 0 in
      SF2Prim (binary_round_aux prec emax false q e l)
  | Zneg _ => nan
  end.

Fixpoint span_digits (s : list ascii) : list ascii * list ascii :=
  match s with
  | a :: s' =>
      if is_digit a then let '(ds, tl) := span_digits s' in (a :: ds, tl) else ([], s)
  | [] => ([], [])
  end.

(** [parseFloat] on a string that begins like the capture of the sleep
    pattern, digits with an optional fraction; [NaN] without a leading
    digit. *)
Definition parseFloat (s : list ascii) : number :=
  let '(int_part, tl) := span_digits s in
  match int_part with
  | [] => nan
  | _ =>
      let frac :=
        match tl with
        | dot :: tl' => if Ascii.eqb dot "." then fst (span_digits tl') else []
        | [] => []
        end in
      decimal (digits_value (int_part ++ frac)) (length frac)
  end.

(** [parseInt] on a string that begins with decimal digits. *)
Definition parseInt (s : list ascii) : number :=
  match fst (span_digits s) with
  | [] => nan
  | ds => decimal (digits_value ds) 0
  end.

Definition captured (m : MatchResult) : list ascii := default [] (group1 m).

(** The metrics of an entry; [sleep], [exercise] and [energy] are [null]
    ([None]) when nothing was found. *)
Record Metrics := {
  sleep : option number;
  exercise : option number;
  mood : string;
  energy : option string;
  symptoms : list string;
  timestamp : Z
}.

(** [for (const [type, pattern] of Object.entries(table)) if
    (pattern.test(text)) { result = type; break; }]. *)
Fixpoint first_matching (table : list (string * RegExp)) (text : string) : option string :=
  match table with
  | [] => None
  | (type, pattern) :: table' =>
      if test pattern text then Some type else first_matching table' text
  end.

(** The pattern stored under a key of a table. *)
Fixpoint assoc_pattern (key : string) (table : list (string * RegExp)) : option RegExp :=
  match table with
  | [] => None
  | (k, pattern) :: table' =>
      if String.eqb key k then Some pattern else assoc_pattern key table'
  end.

(** [function analyzeLocally(entry)], at time [now = Date.now()]. *)
Definition analyzeLocally (entry : string) (now : Z) : Metrics :=
  let sleepMatch := String_match entry patterns_sleep in
  let sleep := option_map (fun m => parseFloat (captured m)) sleepMatch in
  let exerciseMatch := String_match entry patterns_exercise in
  let exercise := option_map (fun m => parseInt (captured m)) exerciseMatch in
  let lowerEntry := toLowerCase entry in
  let mood := default "neutral"%string (first_matching patterns_mood lowerEntry) in
  let energy := first_matching patterns_energy lowerEntry in
  let symptoms :=
    map fst (List.filter (fun '(_, pattern) => test pattern lowerEntry) patterns_symptoms) in
  {| sleep := sleep; exercise := exercise; mood := mood; energy := energy;
     symptoms := symptoms; timestamp := now |}.

End AnalyzeJournal.

(** ** Enrichment and its cache ([analyzeJournal.js]) *)

Module Enrichment.
Import JS Runtime AnalyzeJournal.

Definition CACHE_TTL : Z := 30 * 60 * 1000.

(** A value of [analysisCache]: [{ analysis, timestamp }]. *)
Record CacheEntry := { analysis : value; stored : Z }.

(** What one call of [getAIAnalysis] meets outside the cache: the clock when
    it starts, whether [process.env.OPENAI_API_KEY] is set, what
    [await model.invoke(...)] settles with (the [content] of the response,
    or an error), and the clock when the response is there. *)
Record Call := {
  now : Z;
  api_key : bool;
  response : outcome string Error;
  now_after : Z
}.

Section WithJSON.

(** [JSON.stringify] on metrics and [JSON.parse], which is [None] on a
    [SyntaxError]. *)
Variable JSON_stringify : Metrics -> string.
Variable JSON_parse : string -> option value.

Definition cacheKey (entry : string) (metrics : Metrics) : string :=
  (entry ++ "_" ++ JSON_stringify metrics)%string.

(** The cache test at the head of [getAIAnalysis]:
    [cachedResult && Date.now() - cachedResult.timestamp < CACHE_TTL]. *)
Definition cache_hit (key : string) (now : Z) (analysisCache : gmap string CacheEntry)
  : option value :=
  match analysisCache !! key with
  | Some cachedResult =>
      if now - stored cachedResult <? CACHE_TTL then Some (analysis cachedResult) else None
  | None => None
  end.

(** [analysisCache.set(cacheKey, { analysis, timestamp: Date.now() })]. *)
Definition cache_set (key : string) (a : value) (now : Z)
    (analysisCache : gmap string CacheEntry) : gmap string CacheEntry :=
  <[key := {| analysis := a; stored := now |}]> analysisCache.

(** [async function getAIAnalysis(entry, metrics)]. *)
Definition getAIAnalysis (entry : string) (metrics : Metrics) (call : Call)
    (analysisCache : gmap string CacheEntry)
  : outcome value Error * gmap string CacheEntry :=
  let cacheKey := cacheKey entry metrics in
  match cache_hit cacheKey (now call) analysisCache with
  | Some cached => (Resolved cached, analysisCache)
  | None =>
      if negb (api_key call)
      then (Rejected "OpenAI API key not configured"%string, analysisCache)
      else
        match response call with
        | Rejected _ => (Rejected "AI analysis failed"%string, analysisCache)
        | Resolved content =>
            match JSON_parse content with
            | None => (Rejected "AI analysis failed"%string, analysisCache)
            | Some analysis =>
                (Resolved analysis,
                 cache_set cacheKey analysis (now_after call) analysisCache)
            end
        end
  end.

End WithJSON.

(** The periodic cleanup, run every [CACHE_TTL] milliseconds: every entry
    with [now - value.timestamp > CACHE_TTL] is deleted. *)
Definition sweep (now : Z) (analysisCache : gmap string CacheEntry)
  : gmap string CacheEntry :=
  filter (fun kv => ~ (CACHE_TTL < now - stored (snd kv))) analysisCache.

(** The shape the specification asks of an enrichment result: an
    [insights] array and a [suggestions] array. *)
Definition has_both_arrays (v : value) : bool :=
  match prop v "insights", prop v "suggestions" with
  | Some insights, Some suggestions => Array_isArray insights && Array_isArray suggestions
  | _, _ => false
  end.

End Enrichment.

(** ** The first copy of [analyzeJournal.js]

    The source file holds two successive copies of the module.  The second
    one, with the cache, is the one modelled above; this is the first. *)

Module FirstVersion.
Import JS Runtime Regex.

(** [patterns.sleep]: as in the second copy, except that the optional word
    is "for" alone, followed by its own [\s*] inside the optional group. *)
Definition patterns_sleep : RegExp :=
  {| source :=
       seq_of [Alt (Lit "slept") (Lit "sleep"); Star Space;
               Opt (Seq (Lit "for") (Star Space));
               Group (Seq (Plus Digit) (Opt (Seq (Lit ".") (Plus Digit))));
               Star Space; Lit "hour"; Opt (Lit "s")];
     ignoreCase := true |}.

(** [/(?:energy|feeling)\s*(?:w1|w2|...)/i]. *)
Definition energy_words (first : string) (others : list string) : RegExp :=
  {| source := seq_of [Alt (Lit "energy") (Lit "feeling"); Star Space;
                       alt_of (Lit first) (map Lit others)];
     ignoreCase := true |}.

Definition patterns_energy : list (string * RegExp) :=
  [("high", energy_words "high" ["great"; "excellent"; "fantastic"; "full"; "lots"]);
   ("low", energy_words "low" ["tired"; "exhausted"; "drained"; "no"; "little"]);
   ("medium", energy_words "okay" ["fine"; "alright"; "normal"; "moderate"])].

(** [const sleep = sleepMatch ? parseFloat(sleepMatch[1]) : 0]. *)
Definition analyzeLocally_sleep (entry : string) : number :=
  match String_match entry patterns_sleep with
  | Some sleepMatch => AnalyzeJournal.parseFloat (AnalyzeJournal.captured sleepMatch)
  | None => 0%float
  end.

(** [let energy = 'medium'; Object.entries(patterns.energy).forEach(([key,
    pattern]) => { if (pattern.test(entry)) energy = key; })]. *)
Definition analyzeLocally_energy (entry : string) : string :=
  fold_left (fun energy '(key, pattern) => if test pattern entry then key else energy)
            patterns_energy "medium"%string.

Section WithJSON.
Variable JSON_parse : string -> option value.

(** [async function getAIAnalysis(entry, metrics)] of the first copy: no
    cache, and the parsed response is checked. *)
Definition getAIAnalysis (call : Enrichment.Call) : outcome value Error :=
  if negb (Enrichment.api_key call)
  then Rejected "OpenAI API key not configured"%string
  else
    match Enrichment.response call with
    | Rejected _ => Rejected "AI analysis failed"%string
    | Resolved content =>
        match JSON_parse content with
        | None => Rejected "AI analysis failed"%string
        | Some parsed =>
            match prop parsed "insights", prop parsed "suggestions" with
            | Some insights, Some suggestions =>
                if negb (truthy insights) || negb (truthy suggestions)
                   || negb (Array_isArray insights) || negb (Array_isArray suggestions)
                then Rejected "AI analysis failed"%string
                else Resolved parsed
            | _, _ => Rejected "AI analysis failed"%string
            end
        end
    end.

End WithJSON.

End FirstVersion.

(** ** The batch handler ([route.js], batch version) *)

Module Batch.
Import JS Runtime Regex Trend Route.

(** What the aggregation reads of a resolved analysis: its [error]
    property ([undefined] unless the enrichment put one there), its
    [metrics] if it has any, and the time value of [new Date(a.timestamp)],
    which is [None] for an invalid date. *)
Record Analysis := {
  error : value;
  metrics : option AnalyzeJournal.Metrics;
  timestamp : option Z
}.

(** An element of [results]: an error descriptor or [{ id, ...result }]. *)
Inductive item :=
| Failed (id : value) (error details : string)
| Analysed (id : value) (result : Analysis).

Definition item_error (r : item) : value :=
  match r with
  | Failed _ error _ => VStr error
  | Analysed _ result => Batch.error result
  end.

(** [function validateContent(content)]. *)
Definition validateContent (content : value) : bool :=
  match content with
  | VStr s =>
      negb ((Z.of_nat (String.length s) <? 1) || (10000 <? Z.of_nat (String.length s)))
  | _ => false
  end.

(** [[a-zA-Z0-9-_]]. *)
Definition is_key_char (a : ascii) : bool :=
  is_lower a || is_upper a || is_digit a || (code a =? 45)%nat || (code a =? 95)%nat.

Fixpoint strip_prefix (prefix s : list ascii) : option (list ascii) :=
  match prefix with
  | [] => Some s
  | p :: prefix' =>
      match s with
      | a :: s' => if Ascii.eqb p a then strip_prefix prefix' s' else None
      | [] => None
      end
  end.

Fixpoint drop_key_chars (s : list ascii) : list ascii :=
  match s with
  | a :: s' => if is_key_char a then drop_key_chars s' else s
  | [] => []
  end.

(** [s.replace(/prefix[a-zA-Z0-9-_]+/g, replacement)]. *)
Fixpoint replace_keys (fuel : nat) (prefix replacement s : list ascii) : list ascii :=
  match fuel, s with
  | S fuel', a :: s' =>
      match strip_prefix prefix s with
      | Some (b :: tl) =>
          if is_key_char b
          then replacement ++ replace_keys fuel' prefix replacement (drop_key_chars tl)
          else a :: replace_keys fuel' prefix replacement s'
      | _ => a :: replace_keys fuel' prefix replacement s'
      end
  | _, _ => s
  end.

(** [function sanitizeError(error)]. *)
Definition sanitizeError (error : Error) : string :=
  let message := if String.eqb error "" then "An error occurred"%string else error in
  let l := list_ascii_of_string message in
  let l1 := replace_keys (length l) (list_ascii_of_string "key-")
                         (list_ascii_of_string "KEY-REDACTED") l in
  let l2 := replace_keys (length l1) (list_ascii_of_string "sk-")
                         (list_ascii_of_string "SK-REDACTED") l1 in
  string_of_list_ascii l2.

(** *** Aggregation *)

Record AverageMetrics := {
  averageSleep : number;
  averageExercise : number;
  commonSymptoms : list string;
  predominantMood : option string;
  predominantEnergy : option string
}.

(** [acc[val] = (acc[val] || 0) + 1] on the counts in first-seen order. *)
Fixpoint bump (val : string) (counts : list (string * nat)) : list (string * nat) :=
  match counts with
  | [] => [(val, 1%nat)]
  | (k, n) :: counts' =>
      if String.eqb k val then (k, S n) :: counts' else (k, n) :: bump val counts'
  end.

(** Insertion for the stable sort by descending count. *)
Fixpoint insert_by_count (x : string * nat) (sorted : list (string * nat))
  : list (string * nat) :=
  match sorted with
  | [] => [x]
  | y :: sorted' =>
      if (snd y <? snd x)%nat then x :: y :: sorted'
      else y :: insert_by_count x sorted'
  end.

(** [function findMostCommon(arr)], for values that are neither names of
    inherited members nor written like array indices: the counts are then
    own properties that hold numbers, and [Object.entries] lists them in
    first-seen order.  (For the name of an inherited member the count read
    is a function or an object and the sum a text; a key written like an
    array index is listed before the others.) *)
Definition findMostCommon (arr : list string) : list string :=
  let counts := fold_left (fun acc val => bump val acc) arr [] in
  map fst (fold_left (fun sorted x => insert_by_count x sorted) counts []).

Definition or_text (v : option string) (fallback : string) : string :=
  match v with
  | Some s => if String.eqb s "" then fallback else s
  | None => fallback
  end.

Definition metrics_sleep (a : Analysis) : option number :=
  match metrics a with Some m => AnalyzeJournal.sleep m | None => None end.
Definition metrics_exercise (a : Analysis) : option number :=
  match metrics a with Some m => AnalyzeJournal.exercise m | None => None end.
Definition metrics_symptoms (a : Analysis) : list string :=
  match metrics a with Some m => AnalyzeJournal.symptoms m | None => [] end.
Definition metrics_mood (a : Analysis) : option string :=
  match metrics a with Some m => Some (AnalyzeJournal.mood m) | None => None end.
Definition metrics_energy (a : Analysis) : option string :=
  match metrics a with Some m => AnalyzeJournal.energy m | None => None end.

(** [function calculateAverageMetrics(analyses)]. *)
Definition calculateAverageMetrics (analyses : list Analysis) : option AverageMetrics :=
  if (length analyses =? 0)%nat then None
  else
    let sleep := fold_left (fun acc a => acc + or_zero (metrics_sleep a))%float analyses 0%float in
    let exercise :=
      fold_left (fun acc a => acc + or_zero (metrics_exercise a))%float analyses 0%float in
    let symptoms := fold_left (fun acc a => acc ++ metrics_symptoms a) analyses [] in
    let moods :=
      fold_left (fun acc a => acc ++ [or_text (metrics_mood a) "neutral"]) analyses [] in
    let energy :=
      fold_left (fun acc a => acc ++ [or_text (metrics_energy a) "medium"]) analyses [] in
    Some {| averageSleep := (sleep / of_nat (length analyses))%float;
            averageExercise := (exercise / of_nat (length analyses))%float;
            commonSymptoms := findMostCommon symptoms;
            predominantMood := head (findMostCommon moods);
            predominantEnergy := head (findMostCommon energy) |}.

(** [new Date(a.timestamp) - new Date(b.timestamp)], NaN counting as 0. *)
Definition by_date (a b : Analysis) : Z :=
  match timestamp a, timestamp b with
  | Some ta, Some tb => ta - tb
  | _, _ => 0
  end.

Fixpoint insert_by_date (x : Analysis) (sorted : list Analysis) : list Analysis :=
  match sorted with
  | [] => [x]
  | y :: sorted' =>
      if 0 <? by_date y x then x :: y :: sorted' else y :: insert_by_date x sorted'
  end.

(** [[...analyses].sort(by date)]: a stable sort.  When some analyses have
    a valid date and some have none the comparator is not consistent, and
    the order of the result is the engine's. *)
Definition sort_by_date (analyses : list Analysis) : list Analysis :=
  fold_left (fun sorted x => insert_by_date x sorted) analyses [].

(** [function analyzeMoodTrend(moods)].  The filter [mood in moodValues]
    also keeps the names of the inherited members, and [moodValues[mood]]
    is then a function or an object: added to the sum of [average] it turns
    the sum into a text that is no number, and the average into NaN, as a
    NaN in the series does. *)
Definition moodValues (mood : string) : option number :=
  if String.eqb mood "positive" then Some 3%float
  else if String.eqb mood "neutral" then Some 2%float
  else if String.eqb mood "negative" then Some 1%float
  else if inherited mood then Some nan
  else None.

Definition analyzeMoodTrend (moods : list (option string)) : trend :=
  let numericMoods :=
    omap (fun mood => match mood with Some m => moodValues m | None => None end) moods in
  calculateTrend numericMoods.

Record Trends := { sleep : trend; exercise : trend; mood : trend }.

(** [function analyzeTrends(analyses)]. *)
Definition analyzeTrends (analyses : list Analysis) : option Trends :=
  if (length analyses <? 2)%nat then None
  else
    let sortedAnalyses := sort_by_date analyses in
    Some {| sleep := calculateTrend (map (fun a => or_zero (metrics_sleep a)) sortedAnalyses);
            exercise :=
              calculateTrend (map (fun a => or_zero (metrics_exercise a)) sortedAnalyses);
            mood := analyzeMoodTrend (map metrics_mood sortedAnalyses) |}.

(** [aggregateMetrics], without its [analysisTimestamp]. *)
Record AggregateMetrics := {
  totalEntries : nat;
  successfulAnalyses : nat;
  failedAnalyses : nat;
  averageMetrics : option AverageMetrics;
  trends : option Trends
}.

(** *** The handler *)

(** A request: its [x-forwarded-for] header and what [await req.json()]
    settles with. *)
Record Request := {
  x_forwarded_for : option string;
  json : outcome value Error
}.

Inductive Response :=
| RateLimitExceeded (retryAfter : Z)
| BadRequest (error details : string)
| BatchResult (results : list item) (aggregateMetrics : AggregateMetrics)
| InternalServerError (details : string).

(** The message of a [TypeError] is the engine's. *)
Definition TypeError : Error := "TypeError"%string.


Section Handler.

(** The settlement of the [k]-th call of [analyzeJournalEntry] made for the
    entry at position [i]. *)
Variable analyzeJournalEntry : nat -> string -> nat -> outcome Analysis Error.

(** The callback of [entries.map(async entry => ...)] for the entry at
    position [i]; a rejection of the callback is [Rejected]. *)
Definition analyse_entry (i : nat) (entry : value) : outcome item Error :=
  match prop entry "content", prop entry "id" with
  | Some content, Some id =>
      match content with
      | VStr s =>
          if validateContent content then
            match snd (retryAnalysis (analyzeJournalEntry i) s 2) with
            | Resolved result => Resolved (Analysed id result)
            | Rejected (Some error) =>
                Resolved (Failed id "Analysis failed" (sanitizeError error))
            | Rejected None => Rejected TypeError
            end
          else
            Resolved (Failed id "Invalid content"
                        "Content must be a string between 1 and 10000 characters")
      | _ =>
          Resolved (Failed id "Invalid content"
                      "Content must be a string between 1 and 10000 characters")
      end
  | _, _ => Rejected TypeError
  end.

(** [await Promise.all(analysisPromises)], from position [i] on. *)
Fixpoint analyse_all (i : nat) (entries : list value) : outcome (list item) Error :=
  match entries with
  | [] => Resolved []
  | entry :: entries' =>
      match analyse_entry i entry, analyse_all (S i) entries' with
      | Resolved r, Resolved rs => Resolved (r :: rs)
      | Rejected e, _ => Rejected e
      | _, Rejected e => Rejected e
      end
  end.

Definition analysis_of (r : item) : option Analysis :=
  match r with Analysed _ result => Some result | Failed _ _ _ => None end.

(** [export async function POST(req)] at time [now]. *)
Definition POST (req : Request) (now : Z) (requestLog : gmap string (list Z))
  : Response * gmap string (list Z) :=
  let clientIp := or_text (x_forwarded_for req) "unknown" in
  match POST_rateLimit clientIp now requestLog with
  | (TooManyRequests retryAfter, requestLog') => (RateLimitExceeded retryAfter, requestLog')
  | (Allowed, requestLog') =>
      let response :=
        match json req with
        | Rejected e => InternalServerError (sanitizeError e)
        | Resolved body =>
            match prop body "entries" with
            | None => InternalServerError (sanitizeError TypeError)
            | Some (VArr entries) =>
                if (length entries =? 0)%nat
                then BadRequest "No entries provided" "At least one entry is required"
                else
                  match analyse_all 0 entries with
                  | Rejected e => InternalServerError (sanitizeError e)
                  | Resolved results =>
                      let successfulAnalyses :=
                        List.filter (fun r => negb (truthy (item_error r))) results in
                      let failedAnalyses :=
                        List.filter (fun r => truthy (item_error r)) results in
                      let analyses := omap analysis_of successfulAnalyses in
                      BatchResult results
                        {| totalEntries := length entries;
                           successfulAnalyses := length successfulAnalyses;
                           failedAnalyses := length failedAnalyses;
                           averageMetrics := calculateAverageMetrics analyses;
                           trends := analyzeTrends analyses |}
                  end
            | Some _ => BadRequest "Invalid entries provided" "Entries must be an array"
            end
        end in
      (response, requestLog')
  end.


End Handler.

End Batch.

(** ** The health report: sleep ([reports/page.js]) *)

Module Reports.
Import JS Runtime.


(** An element of [sleepData] (its [date] is for display only). *)
Record point := { value : number; quality : string }.

(** The sum of [Math.abs(curr.value - data[i - 1].value) * 10] over the
    elements after the first. *)
Fixpoint day_to_day (previous : number) (rest : list point) (acc : number) : number :=
  match rest with
  | [] => acc
  | curr :: rest' =>
      day_to_day (value curr) rest' (acc + Math_abs (value curr - previous) * 10)%float
  end.

(** [const calculateConsistencyScore = (data, targetValue = null) => ...]. *)
Definition calculateConsistencyScore (data : list point) (targetValue : option number)
  : number :=
  if (length data <? 2)%nat then 0%float
  else
    let daysInRange := of_nat (length data) in
    let score :=
      match targetValue with
      | Some target =>
          let deviations := map (fun item => Math_abs (value item - target)%float) data in
          let avgDeviation :=
            (fold_left (fun acc dev => acc + dev) deviations 0 / daysInRange)%float in
          (100 - avgDeviation * 10)%float
      | None =>
          let variance :=
            (match data with
             | [] => 0
             | first :: rest => day_to_day (value first) rest 0
             end / daysInRange)%float in
          (100 - variance)%float
      end in
    Math_max 0 (Math_min 100 (Math_round score)).







End Reports.

(** ** The sleep sub-score in the words of the specification *)

Module SleepSpec.
Import JS.

Definition mean (xs : list number) : number :=
  (fold_left (fun acc x => acc + x) xs 0 / of_nat (length xs))%float.




Definition label_score (label : string) : number :=
  if String.eqb label "good" then 100%float
  else if String.eqb label "normal" then 70%float
  else if String.eqb label "poor" then 40%float
  else 70%float.

Definition sleepQuality (labels : list string) : number := mean (map label_score labels).


End SleepSpec.

(** ** Measures on a run of [retryAnalysis] *)

Module RetryTrace.
Import Route.

(** The time a run spends waiting on its timers, in milliseconds. *)
Definition waited (events : list event) : Z :=
  fold_right (fun e acc => match e with SetTimeout ms => ms + acc | Call _ => acc end)
             0 events.

(** The events of the failed attempts [i], [i + 1], ..., [i + n - 1]: each
    is a call followed by its timer. *)
Fixpoint failed_attempts (i n : nat) : list event :=
  match n with
  | O => []
  | S n' => Call i :: SetTimeout (2 ^ Z.of_nat i * 1000) :: failed_attempts (S i) n'
  end.

(** The longest delay of a timer: [setTimeout] with a longer one fires
    after 1 ms. *)
Definition TIMEOUT_MAX : Z := 2 ^ 31 - 1.

(** Every timer of a run is set to a delay that it keeps. *)
Definition timers_kept (events : list event) : bool :=
  forallb (fun e => match e with SetTimeout ms => ms <=? TIMEOUT_MAX | Call _ => true end)
          events.

(** The number of failed attempts up to which every delay
    [Math.pow(2, i) * 1000] is kept: [2^21 * 1000] is below [TIMEOUT_MAX] and
    [2^22 * 1000] above. *)
Definition MAX_EXACT_RETRIES : nat := 22.

End RetryTrace.

(** ** The orchestration of an analysis ([analyzeJournal.js], second copy) *)

Module Orchestration.
Import JS Runtime AnalyzeJournal Enrichment.

(** A number or [null] as an operand of [<], [>] or [>=]: [null] counts
    as 0. *)
Definition to_number (v : option number) : number :=
  match v with Some x => x | None => 0%float end.

(** [arr.join(', ')]. *)
Fixpoint join (parts : list string) : string :=
  match parts with
  | [] => ""
  | [p] => p
  | p :: rest => (p ++ ", " ++ join rest)%string
  end.

(** [function generateLocalSuggestions(metrics)]. *)
Definition generateLocalSuggestions (metrics : Metrics) : list string :=
  let s1 :=
    if (to_number (sleep metrics) <? 7)%float
    then ["Establish a consistent bedtime routine and aim for 7-9 hours of sleep"%string]
    else [] in
  let s2 :=
    if (to_number (exercise metrics) <? 30)%float
    then ["Start with short exercise sessions and gradually work up to 30 minutes daily"%string]
    else [] in
  let s3 :=
    if (0 <? length (symptoms metrics))%nat
    then ["Monitor your symptoms and consider consulting a healthcare provider if they persist"%string]
    else [] in
  let suggestions := (s1 ++ s2 ++ s3)%list in
  if (length suggestions <? 2)%nat then
    if match energy metrics with Some e => String.eqb e "low" | None => false end
    then (suggestions ++
          ["Try to identify and address factors affecting your energy levels"%string])%list
    else if String.eqb (mood metrics) "bad"
    then (suggestions ++
          ["Consider activities that boost your mood like exercise or socializing"%string])%list
    else (suggestions ++
          ["Maintain your current healthy routines and track any changes in your wellbeing"%string])%list
  else suggestions.

Section WithRuntime.

(** The text of a number in a template literal, [JSON.stringify] on
    metrics, and [JSON.parse]. *)
Variable Number_toString : number -> string.
Variable JSON_stringify : Metrics -> string.
Variable JSON_parse : string -> option value.

Definition show_number (v : option number) : string :=
  match v with Some x => Number_toString x | None => "null" end.

(** [function generateLocalInsights(metrics)]. *)
Definition generateLocalInsights (metrics : Metrics) : list string :=
  let i1 :=
    if gtb (to_number (sleep metrics)) 0
    then
      let sleepQuality :=
        if geb (to_number (sleep metrics)) 7 then "healthy" else "below recommended" in
      [("Sleep duration is " ++ show_number (sleep metrics) ++ " hours ("
        ++ sleepQuality ++ "). "
        ++ (if (to_number (sleep metrics) <? 7)%float
            then "Consider aiming for 7-9 hours for optimal health."
            else "Maintain this healthy sleep pattern."))%string]
    else [] in
  let i2 :=
    if gtb (to_number (exercise metrics)) 0
    then
      let exerciseQuality :=
        if geb (to_number (exercise metrics)) 30 then "meeting" else "below" in
      [("Exercise duration is " ++ show_number (exercise metrics) ++ " minutes ("
        ++ exerciseQuality ++ " recommended levels). "
        ++ (if (to_number (exercise metrics) <? 30)%float
            then "Aim for at least 30 minutes of daily activity."
            else "Keep up this good level of activity."))%string]
    else [] in
  let wellbeing :=
    ("Overall wellbeing shows " ++ mood metrics ++ " mood with "
     ++ default "null" (energy metrics) ++ " energy levels"
     ++ (if (0 <? length (symptoms metrics))%nat
         then ". Health concerns noted: " ++ join (symptoms metrics)
         else " with no reported symptoms."))%string in
  (i1 ++ i2 ++ [wellbeing])%list.

(** What [analyzeJournalEntry] returns: [{ metrics, ...enhancedAnalysis,
    cached }] after an enrichment, [{ metrics, insights, suggestions }]
    after a failed one. *)
Inductive AnalysisResult :=
| Enhanced (metrics : Metrics) (enhancedAnalysis : value) (cached : bool)
| LocalOnly (metrics : Metrics) (insights suggestions : list string).

(** [export async function analyzeJournalEntry(entry)]; [extractedAt] is
    what [Date.now()] gives inside [analyzeLocally]. *)
Definition analyzeJournalEntry (entry : string) (extractedAt : Z) (call : Call)
    (analysisCache : gmap string CacheEntry)
  : AnalysisResult * gmap string CacheEntry :=
  let metrics := analyzeLocally entry extractedAt in
  match getAIAnalysis JSON_stringify JSON_parse entry metrics call analysisCache with
  | (Resolved enhancedAnalysis, analysisCache') =>
      (Enhanced metrics enhancedAnalysis
         (bool_decide (is_Some (analysisCache' !! cacheKey JSON_stringify entry metrics))),
       analysisCache')
  | (Rejected _, analysisCache') =>
      (LocalOnly metrics (generateLocalInsights metrics) (generateLocalSuggestions metrics),
       analysisCache')
  end.

End WithRuntime.

End Orchestration.

(** ** What the aggregation and the redaction are judged by *)

Module Ranking.
Import Runtime Regex Batch.

(** A key written with digits only, as the array indices are, which
    [Object.entries] lists before the other keys. *)
Definition index_like (k : string) : bool :=
  negb (String.eqb k "") && forallb is_digit (list_ascii_of_string k).

(** A value that [findMostCommon] counts in an own property of its object
    and lists in first-seen order: no name of an inherited member, and not
    written like an array index. *)
Definition plain_key (k : string) : bool := negb (inherited k) && negb (index_like k).

(** The values that the aggregation ranks: the moods, the energy levels and
    the symptoms of the analyses. *)
Definition ranked_values (analyses : list Analysis) : list string :=
  (map (fun a => or_text (metrics_mood a) "neutral") analyses
   ++ map (fun a => or_text (metrics_energy a) "medium") analyses
   ++ concat (map metrics_symptoms analyses))%list.

(** The number of occurrences of a value in an array. *)
Abbreviation occurrences x arr := (count_occ string_dec arr x).

(** The counts built over a prefix of the array. *)
Definition counts_of (seen : list string) (counts : list (string * nat)) : Prop :=
  NoDup (map fst counts) /\
  (forall k n, In (k, n) counts -> n = occurrences k seen /\ (1 <= n)%nat) /\
  (forall k, In k seen -> In k (map fst counts)).

(** Descending by count. *)
Definition by_count_desc (a b : string * nat) : Prop := (snd b <= snd a)%nat.


End Ranking.

Module Redaction.
Import Batch.

(** A match of [/prefix[a-zA-Z0-9-_]+/] starts at the head of [s]. *)
Definition key_at (prefix s : list ascii) : bool :=
  match strip_prefix prefix s with
  | Some (b :: _) => is_key_char b
  | _ => false
  end.

(** [/prefix[a-zA-Z0-9-_]+/.test(s)]. *)
Fixpoint has_key (prefix s : list ascii) : bool :=
  match s with
  | [] => false
  | _ :: s' => key_at prefix s || has_key prefix s'
  end.

Definition key_prefix : list ascii := list_ascii_of_string "key-".
Definition sk_prefix : list ascii := list_ascii_of_string "sk-".

(** No text that [sanitizeError] looks for is in [message]. *)
Definition free_of_keys (message : string) : Prop :=
  has_key key_prefix (list_ascii_of_string message) = false /\
  has_key sk_prefix (list_ascii_of_string message) = false.

End Redaction.

(** ** The analytics page: [determinePattern] *)

Module Analytics.
Import JS.

(** An element read from an array as an operand of [-]: [undefined], read
    past the ends, counts as NaN. *)
Definition operand (v : option number) : number :=
  match v with Some x => x | None => nan end.

(** The [movingAvg] of [determinePattern]: [data.reduce((acc, val, i, arr)
    => ..., [])], which for every index from 2 on appends the sum of
    [arr.slice(i - 2, i + 1)], taken from 0, divided by 3. *)
Definition movingAvg (data : list number) : list number :=
  fold_left
    (fun acc i =>
       if (i <? 2)%nat then acc
       else
         let slice := slice data (i - 2) (i + 1) in
         let avg := (fold_left (fun sum num => sum + num) slice 0 / 3)%float in
         (acc ++ [avg])%list)
    (seq 0 (length data)) [].

(** [const determinePattern = (data) => ...] on an array of numbers. *)
Definition determinePattern (data : list number) : string :=
  if (length data <? 2)%nat then "Not enough data"
  else
    let movingAvg := movingAvg data in
    let trend := (operand (last movingAvg) - operand (head movingAvg))%float in
    if (Math_abs trend <? 0.5)%float then "Stable"
    else if gtb trend 0 then "Improving" else "Declining".

End Analytics.

(** ** Scores as percentages *)

Module Scores.
Import JS.

(** A number from 0 to 100. *)
Definition percentage (x : number) : bool := ((0 <=? x) && (x <=? 100))%float.

End Scores.

(** ** The single-entry handler *)

Module SingleEntry.
Import JS Runtime Route Batch Orchestration.

(** [message.includes(part)] for a non-empty [part]. *)
Definition includes (message part : string) : bool :=
  match String.index 0 part message with Some _ => true | None => false end.

(** The own property [k] that [...enhancedAnalysis] contributes to
    [{ metrics, ...enhancedAnalysis, cached }], for a key that is no array
    index: only an object has one. *)
Definition spread_prop (enhancedAnalysis : value) (k : string) : option value :=
  match enhancedAnalysis with
  | VObj props => assoc k props
  | _ => None
  end.

(** [!result.metrics || !result.insights || !result.suggestions] on a result
    of [analyzeJournalEntry]: the local metrics are an object and the local
    insights and suggestions are arrays, all truthy. *)
Definition incomplete (result : AnalysisResult) : bool :=
  match result with
  | LocalOnly _ _ _ => false
  | Enhanced _ enhancedAnalysis _ =>
      negb (match spread_prop enhancedAnalysis "metrics" with
            | Some v => truthy v
            | None => true
            end)
      || negb (match spread_prop enhancedAnalysis "insights" with
               | Some v => truthy v
               | None => false
               end)
      || negb (match spread_prop enhancedAnalysis "suggestions" with
               | Some v => truthy v
               | None => false
               end)
  end.

(** The responses of the handler: 429 for the request rate, 400, 200 with
    the result and the [entryId] of its metadata, 503, 429 for the service,
    500 for a failed analysis, 500 for any other error. *)
Inductive Response :=
| RateLimitExceeded (retryAfter : Z)
| InvalidContent
| Analysed (result : AnalysisResult) (entryId : value)
| ServiceConfigurationError
| ServiceTemporarilyUnavailable
| AnalysisFailed (details : string)
| InternalServerError (details : string).

(** The [catch (analysisError)] block; reading [message] of [undefined]
    throws into the outer [catch]. *)
Definition analysis_error (analysisError : option Error) : Response :=
  match analysisError with
  | Some message =>
      if includes message "API key" then ServiceConfigurationError
      else if includes message "rate limit" then ServiceTemporarilyUnavailable
      else AnalysisFailed (sanitizeError message)
  | None => InternalServerError (sanitizeError TypeError)
  end.

Section Handler.

(** The settlement of the [i]-th call of [analyzeJournalEntry]. *)
Variable analyzeJournalEntry : string -> nat -> outcome AnalysisResult Error.

(** [export async function POST(req)] at time [now]. *)
Definition POST (req : Request) (now : Z) (requestLog : gmap string (list Z))
  : Response * gmap string (list Z) :=
  let clientIp := or_text (x_forwarded_for req) "unknown" in
  match checkRateLimit clientIp now requestLog with
  | (false, requestLog') => (RateLimitExceeded (COOLDOWN / 1000), requestLog')
  | (true, requestLog') =>
      let response :=
        match json req with
        | Rejected e => InternalServerError (sanitizeError e)
        | Resolved body =>
            match prop body "content", prop body "id" with
            | Some content, Some id =>
                match content with
                | VStr s =>
                    if validateContent content then
                      match snd (retryAnalysis analyzeJournalEntry s 2) with
                      | Resolved result =>
                          if incomplete result
                          then analysis_error (Some "Incomplete analysis result"%string)
                          else Analysed result id
                      | Rejected analysisError => analysis_error analysisError
                      end
                    else InvalidContent
                | _ => InvalidContent
                end
            | _, _ => InternalServerError (sanitizeError TypeError)
            end
        end in
      (response, requestLog')
  end.

End Handler.

Section WithJournal.

Variable Number_toString : number -> string.
Variable JSON_stringify : AnalyzeJournal.Metrics -> string.
Variable JSON_parse : string -> option value.

(** What the [i]-th call of [analyzeJournalEntry] meets: the clock of the
    extraction, the outside of the enrichment, and the cache. *)
Variable world : nat -> Z * Enrichment.Call * gmap string Enrichment.CacheEntry.


End WithJournal.

End SingleEntry.

(** ** [storageUtils]: the journal in [localStorage] *)

Module Storage.
Import Runtime.

Section WithBrowser.

(** [JSON.stringify] on journal data, [JSON.parse] ([None] on a
    [SyntaxError]), and whether [localStorage.setItem(key, text)] is
    accepted in a given state of the storage: it throws when the quota is
    exceeded. *)
Variable JSON_stringify : value -> string.
Variable JSON_parse : string -> option value.
Variable accepts : gmap string string -> string -> string -> bool.

Definition setItem (key text : string) (localStorage : gmap string string)
  : option (gmap string string) :=
  if accepts localStorage key text then Some (<[key := text]> localStorage) else None.

(** [saveJournalEntries: (entries) => ...]. *)
Definition saveJournalEntries (entries : value) (localStorage : gmap string string)
  : bool * gmap string string :=
  match setItem "journalEntries" (JSON_stringify entries) localStorage with
  | Some localStorage' => (true, localStorage')
  | None => (false, localStorage)
  end.

(** [getJournalEntries: () => ...]. *)
Definition getJournalEntries (localStorage : gmap string string) : value :=
  match localStorage !! "journalEntries"%string with
  | Some entries =>
      if String.eqb entries "" then VArr []
      else match JSON_parse entries with
           | Some parsed => parsed
           | None => VArr []
           end
  | None => VArr []
  end.

(** The elements that [...entries] spreads into an array literal: those of
    an array, the characters of a string; anything else is not iterable and
    the spread throws a [TypeError]. *)
Definition spread (entries : value) : option (list value) :=
  match entries with
  | VArr items => Some items
  | VStr s => Some (map (fun c => VStr (String c "")) (list_ascii_of_string s))
  | _ => None
  end.

(** [addJournalEntry: (entry) => ...]; [None] is [null]. *)
Definition addJournalEntry (entry : value) (localStorage : gmap string string)
  : option value * gmap string string :=
  match spread (getJournalEntries localStorage) with
  | Some entries =>
      let updatedEntries := VArr (entry :: entries) in
      (Some updatedEntries, snd (saveJournalEntries updatedEntries localStorage))
  | None => (None, localStorage)
  end.

End WithBrowser.

End Storage.

(** ** Matching on a lower-cased text *)

Module CaseFolding.
Import Regex AnalyzeJournal.

(** A position in the lower-cased text. *)
Definition lower_cursor (c : cursor) : cursor :=
  {| before := option_map lower_char (before c);
     rest := map lower_char (rest c);
     consumed := consumed c;
     open_group := option_map (map lower_char) (open_group c);
     capture := option_map (map lower_char) (capture c) |}.

Definition lower_result (m : MatchResult) : MatchResult :=
  {| index := index m; group1 := option_map (map lower_char) (group1 m) |}.

(** The literals of a pattern hold characters below 128 only. *)
Fixpoint ascii_pattern (r : regex) : bool :=
  match r with
  | Lit s => forallb (fun p => (code p <? 128)%nat) (list_ascii_of_string s)
  | Seq r1 r2 | Alt r1 r2 => ascii_pattern r1 && ascii_pattern r2
  | Opt r1 | Star r1 | Plus r1 | Group r1 => ascii_pattern r1
  | Empty | Digit | Space | WordBoundary => true
  end.

(** A pattern with the [i] flag and literals below 128. *)
Definition folding (re : RegExp) : bool := ignoreCase re && ascii_pattern (source re).

(** The 256 code units of the texts. *)
Definition code_units : list ascii := map ascii_of_nat (seq 0 256).

End CaseFolding.

(** ** JSON texts of arrays of plain strings *)

Module JSONText.
Import Runtime.

(** The double quote. *)
Definition quote : ascii := ascii_of_nat 34.

(** [JSON.stringify] on an array whose elements are strings that hold no
    double quote, no backslash and no control character.  The text of any
    other value is not modelled: [null] stands for it. *)
Definition item_text (v : value) : string :=
  match v with
  | VStr s => String quote (s ++ String quote "")
  | _ => "null"
  end.

Fixpoint join (parts : list string) : string :=
  match parts with
  | [] => ""
  | [p] => p
  | p :: rest => (p ++ "," ++ join rest)%string
  end.

Definition stringify (v : value) : string :=
  match v with
  | VArr items => ("[" ++ join (map item_text items) ++ "]")%string
  | _ => "null"
  end.

(** The characters of a string up to its closing quote, and what follows. *)
Fixpoint read_string (text : list ascii) : option (string * list ascii) :=
  match text with
  | [] => None
  | a :: text' =>
      if Ascii.eqb a quote then Some (EmptyString, text')
      else match read_string text' with
           | Some (s, tl) => Some (String a s, tl)
           | None => None
           end
  end.

(** The elements of an array after its opening bracket or after a comma. *)
Fixpoint read_items (fuel : nat) (text : list ascii) : option (list value) :=
  match fuel, text with
  | S fuel', a :: text' =>
      if Ascii.eqb a quote then
        match read_string text' with
        | Some (s, sep :: tl) =>
            if Ascii.eqb sep "," then
              match read_items fuel' tl with
              | Some items => Some (VStr s :: items)
              | None => None
              end
            else if Ascii.eqb sep "]" then
              match tl with [] => Some [VStr s] | _ => None end
            else None
        | _ => None
        end
      else None
  | _, _ => None
  end.

(** [JSON.parse] on the text of an array of such strings; no other text is
    read. *)
Definition parse (text : string) : option value :=
  match list_ascii_of_string text with
  | open :: rest =>
      if Ascii.eqb open "[" then
        match rest with
        | [close] => if Ascii.eqb close "]" then Some (VArr []) else None
        | _ => option_map VArr (read_items (length rest) rest)
        end
      else None
  | [] => None
  end.

(** A storage that holds texts of at most 5000 characters. *)
Definition fits (localStorage : gmap string string) (key text : string) : bool :=
  (String.length text <=? 5000)%nat.

End JSONText.

(* ===================================================================== *)
(** * Part II: the properties *)
(* ===================================================================== *)

(** ** Trend classification *)

Section TrendProperties.
Import JS Trend.

Lemma slice_0_firstn {A} (l : list A) (k : nat) : slice l 0 k = firstn k l.
Proof. unfold slice. now rewrite Nat.sub_0_r. Qed.

Lemma average_arithmetic_mean (values : list number) :
  average values = TrendSpec.arithmetic_mean values.
Proof.
  unfold average, TrendSpec.arithmetic_mean. f_equal.
  generalize 0%float. induction values as [| v values IH]; intros total; [reflexivity |].
  cbn [fold_left TrendSpec.sum_from]. apply IH.
Qed.

(** C1: the series is split into an earlier half of floor(n/2) elements and
    a later half holding the rest; the mean of each half is its arithmetic
    mean, the sum of its values divided by their number; the percent change
    of the two means is [(secondMean - firstMean) / firstMean * 100]; the
    result is improving above 10, declining below -10 and stable otherwise;
    a series of fewer than two points is stable, and so are the four sample
    series classified as the specification lists them.  Two more series
    tell the mean from a sum and from a first value: 7, 7, 7 and 1, 3, 2, 2
    are stable. *)
Theorem calculateTrend_spec :
  (forall values : list number,
     let n := length values in
     let earlier := firstn (n / 2) values in
     let later := skipn (n / 2) values in
     earlier ++ later = values /\
     length earlier = (n / 2)%nat /\
     length later = (n - n / 2)%nat /\
     average earlier = TrendSpec.arithmetic_mean earlier /\
     average later = TrendSpec.arithmetic_mean later /\
     calculateTrend values =
       if (n <? 2)%nat then stable
       else classify (TrendSpec.percentChange (TrendSpec.arithmetic_mean earlier)
                        (TrendSpec.arithmetic_mean later))) /\
  calculateTrend [6; 6; 6; 9; 9; 9]%float = improving /\
  calculateTrend [9; 9; 9; 6; 6; 6]%float = declining /\
  calculateTrend [7; 7; 7; 7]%float = stable /\
  (forall v : number, calculateTrend [v] = stable) /\
  calculateTrend [] = stable /\
  average [2; 4; 9]%float = 5%float /\
  calculateTrend [7; 7; 7]%float = stable /\
  calculateTrend [1; 3; 2; 2]%float = stable.
Proof.
  split; [| repeat split; reflexivity].
  intros values n earlier later. subst earlier later.
  split; [apply firstn_skipn |].
  split.
  { rewrite length_firstn. apply Nat.min_l. subst n.
    apply Nat.Div0.div_le_upper_bound. lia. }
  split; [apply length_skipn |].
  split; [apply average_arithmetic_mean |].
  split; [apply average_arithmetic_mean |].
  unfold calculateTrend. fold n.
  destruct (n <? 2)%nat; [reflexivity |].
  rewrite slice_0_firstn. unfold slice_from.
  rewrite !average_arithmetic_mean. reflexivity.
Qed.

(** *** Division by a zero mean *)

Lemma Prim2SF_eq (x : number) (v : spec_float) : Prim2SF x = v -> x = SF2Prim v.
Proof. intros <-. symmetry. apply SF2Prim_Prim2SF. Qed.

Lemma eqb_zero_cases (f : number) : (f =? 0)%float = true -> f = zero \/ f = neg_zero.
Proof.
  rewrite FloatAxioms.eqb_spec. intros H.
  destruct (Prim2SF f) as [ [] | [] | | [] m e ] eqn:E; try discriminate H.
  - right. apply (Prim2SF_eq _ _ E).
  - left. apply (Prim2SF_eq _ _ E).
Qed.

Lemma changePct_zero_pos (f s : number) :
  (f =? 0)%float = true -> (0 <? s)%float = true ->
  changePct f s = if get_sign f then neg_infinity else infinity.
Proof.
  intros Hf Hs. rewrite FloatAxioms.ltb_spec in Hs.
  destruct (eqb_zero_cases f Hf) as [-> | ->].
  - change (get_sign zero) with false. cbv iota.
    apply Prim2SF_inj. unfold changePct.
    rewrite FloatAxioms.mul_spec, FloatAxioms.div_spec, FloatAxioms.sub_spec.
    destruct (Prim2SF s) as [ [] | [] | | [] m e ] eqn:E;
      try discriminate Hs; reflexivity.
  - change (get_sign neg_zero) with true. cbv iota.
    apply Prim2SF_inj. unfold changePct.
    rewrite FloatAxioms.mul_spec, FloatAxioms.div_spec, FloatAxioms.sub_spec.
    destruct (Prim2SF s) as [ [] | [] | | [] m e ] eqn:E;
      try discriminate Hs; reflexivity.
Qed.

Lemma zero_div_cases (y : number) :
  (0 / y = zero \/ 0 / y = neg_zero \/ 0 / y = nan)%float.
Proof.
  assert (H := FloatAxioms.div_spec 0 y).
  destruct (Prim2SF y) as [ [] | [] | | [] m e ] eqn:E;
    apply Prim2SF_eq in H; rewrite H; cbn; auto.
Qed.

(** The running sum starts at [+0] and stays there over zeros of either sign. *)
Lemma sum_all_zero (values : list number) :
  all_zero values -> fold_left (fun a b => a + b)%float values 0%float = 0%float.
Proof.
  induction 1 as [| v l Hv _ IH]; [reflexivity |].
  cbn [fold_left].
  destruct (eqb_zero_cases v Hv) as [-> | ->]; exact IH.
Qed.

Lemma average_all_zero (values : list number) :
  all_zero values ->
  average values = zero \/ average values = neg_zero \/ average values = nan.
Proof.
  intros H. unfold average. rewrite (sum_all_zero _ H). apply zero_div_cases.
Qed.

Lemma changePct_all_zero (l1 l2 : list number) :
  all_zero l1 -> all_zero l2 -> changePct (average l1) (average l2) = nan.
Proof.
  intros H1 H2.
  destruct (average_all_zero _ H1) as [-> | [-> | ->]];
    destruct (average_all_zero _ H2) as [-> | [-> | ->]]; reflexivity.
Qed.

Lemma all_zero_firstn k values : all_zero values -> all_zero (firstn k values).
Proof. apply Forall_take. Qed.

Lemma all_zero_skipn k values : all_zero values -> all_zero (skipn k values).
Proof. apply Forall_drop. Qed.

Lemma calculateTrend_unfold (values : list number) :
  calculateTrend values =
    if (length values <? 2)%nat then stable
    else classify (changePct (average (firstn (length values / 2) values))
                             (average (skipn (length values / 2) values))).
Proof.
  unfold calculateTrend. destruct (length values <? 2)%nat; [reflexivity |].
  rewrite slice_0_firstn. reflexivity.
Qed.

(** C9 (as amended): [calculateTrend] returns one of its three results on
    every series.  When the earlier half's mean is zero and the later half's
    mean is strictly positive the percent change is infinite; the result is
    'improving' when that zero is [+0] and 'declining' when it is [-0].  When
    every value is zero the percent change is NaN and the result is
    'stable'. *)
Theorem calculateTrend_zero_mean :
  forall values : list number,
    let n := length values in
    let firstAvg := average (firstn (n / 2) values) in
    let secondAvg := average (skipn (n / 2) values) in
    (calculateTrend values = improving \/ calculateTrend values = stable \/
     calculateTrend values = declining) /\
    ((firstAvg =? 0)%float = true -> (0 <? secondAvg)%float = true ->
       is_infinity (changePct firstAvg secondAvg) = true /\
       calculateTrend values = if get_sign firstAvg then declining else improving) /\
    (all_zero values ->
       is_nan (changePct firstAvg secondAvg) = true /\
       calculateTrend values = stable).
Proof.
  intros values n firstAvg secondAvg.
  split; [destruct (calculateTrend values); auto |].
  split.
  - intros Hf Hs.
    rewrite calculateTrend_unfold. fold n. fold firstAvg secondAvg.
    destruct (Nat.ltb_spec n 2) as [Hlt | Hge].
    + (* fewer than two points: the earlier half is empty and its mean NaN *)
      exfalso. subst firstAvg.
      rewrite (Nat.div_small n 2 Hlt) in Hf. cbn [firstn] in Hf.
      vm_compute in Hf. discriminate Hf.
    + rewrite (changePct_zero_pos _ _ Hf Hs).
      destruct (get_sign firstAvg); split; reflexivity.
  - intros Hz.
    assert (Hp : changePct firstAvg secondAvg = nan).
    { apply changePct_all_zero; [apply all_zero_firstn | apply all_zero_skipn]; exact Hz. }
    rewrite calculateTrend_unfold. fold n. fold firstAvg secondAvg.
    rewrite Hp. split; [reflexivity |].
    destruct (n <? 2)%nat; reflexivity.
Qed.

Lemma calculateTrend_zero_mean_witness :
  calculateTrend [0; 0; 5; 5]%float = improving /\
  calculateTrend [0; 0; 0]%float = stable.
Proof.
  split.
  - apply (proj1 (proj2 (calculateTrend_zero_mean [0; 0; 5; 5]%float)));
      reflexivity.
  - apply (proj2 (proj2 (calculateTrend_zero_mean [0; 0; 0]%float))).
    repeat constructor.
Defined.

(** The smallest negative number, [-2^-1074], halved rounds to [-0]: the
    earlier half's mean is zero, the later half's mean is 1, and the series
    is classified 'declining'. *)
Lemma calculateTrend_negative_zero_mean :
  let values := [(-0x1p-1074)%float; 0%float; 1%float; 1%float] in
  (average (firstn 2 values) =? 0)%float = true /\
  (0 <? average (skipn 2 values))%float = true /\
  calculateTrend values = declining /\
  calculateTrend values <> improving.
Proof. cbv zeta. repeat split. discriminate. Qed.

End TrendProperties.

(** ** Rate limiter *)

Section RateLimitProperties.
Import Route.

Lemma filter_retains_all (now : Z) (win : list Z) :
  (forall t, In t win -> now - t < COOLDOWN) ->
  List.filter (fun time => now - time <? COOLDOWN) win = win.
Proof.
  induction win as [| t win IH]; intros H; [reflexivity |].
  cbn [List.filter].
  replace (now - t <? COOLDOWN) with true
    by (symmetry; apply Z.ltb_lt; apply H; now left).
  f_equal. apply IH. intros t' Ht'. apply H. now right.
Qed.

Lemma Math_min_list_fold (rest : list Z) (x : Z) :
  let m := fold_left Z.min rest x in
  In m (x :: rest) /\ m <= x /\ forall t, In t rest -> m <= t.
Proof.
  revert x. induction rest as [| y rest IH]; intros x; cbn [fold_left].
  - repeat split; [now left | lia | intros t []].
  - destruct (IH (Z.min x y)) as (Hin & Hle & Hall).
    repeat split.
    + destruct Hin as [Hin | Hin]; [| right; now right].
      rewrite <- Hin. destruct (Z.min_spec x y) as [[_ ->] | [_ ->]];
        [now left | right; now left].
    + lia.
    + intros t [<- | Ht]; [lia | now apply Hall].
Qed.

Lemma Math_min_list_least (arr : list Z) :
  arr <> [] ->
  In (Math_min_list arr) arr /\ forall t, In t arr -> Math_min_list arr <= t.
Proof.
  destruct arr as [| x rest]; [congruence | intros _].
  destruct (Math_min_list_fold rest x) as (Hin & Hle & Hall).
  split; [exact Hin |].
  intros t [<- | Ht]; [exact Hle | now apply Hall].
Qed.

Lemma Math_ceil_div_bounds (a : Z) :
  1000 * (Math_ceil_div a 1000 - 1) < a <= 1000 * Math_ceil_div a 1000.
Proof.
  unfold Math_ceil_div.
  pose proof (Z.div_mod (- a) 1000 ltac:(lia)) as Hdm.
  pose proof (Z.mod_pos_bound (- a) 1000 ltac:(lia)) as Hb.
  lia.
Qed.

Lemma POST_rateLimit_unfold ip now requestLog :
  POST_rateLimit ip now requestLog =
    let recent := retained ip now requestLog in
    if (length recent <? RATE_LIMIT)%nat
    then (Allowed, <[ip := recent ++ [now]]> requestLog)
    else (TooManyRequests
            (Math_ceil_div (COOLDOWN - (now - Math_min_list recent)) 1000),
          requestLog).
Proof.
  unfold POST_rateLimit, retained. cbv zeta.
  destruct (Nat.leb_spec RATE_LIMIT
    (length (List.filter (fun time => now - time <? COOLDOWN)
                         (default [] (requestLog !! ip)))))
    as [Hle | Hlt].
  - replace (_ <? RATE_LIMIT)%nat with false
      by (symmetry; apply Nat.ltb_ge; exact Hle). reflexivity.
  - replace (_ <? RATE_LIMIT)%nat with true
      by (symmetry; apply Nat.ltb_lt; exact Hlt). reflexivity.
Qed.

Lemma checkRateLimit_POST_rateLimit ip now requestLog :
  checkRateLimit ip now requestLog =
    (allowed (fst (POST_rateLimit ip now requestLog)),
     snd (POST_rateLimit ip now requestLog)).
Proof.
  unfold checkRateLimit, POST_rateLimit. cbv zeta.
  destruct (RATE_LIMIT <=? _)%nat; reflexivity.
Qed.

(** Requests of one caller that all fall in one window: with [win] already
    in the window, the next [RATE_LIMIT - length win] are allowed and all
    later ones refused. *)
Lemma serve_one_window ip (times : list Z) :
  forall (win : list Z) (requestLog : gmap string (list Z)),
    default [] (requestLog !! ip) = win ->
    (forall t now, In t (win ++ times) -> In now times -> now - t < COOLDOWN) ->
    map allowed (fst (serve ip times requestLog)) =
      repeat true (Nat.min (length times) (RATE_LIMIT - length win)) ++
      repeat false (length times - (RATE_LIMIT - length win)).
Proof.
  induction times as [| now later IH]; intros win requestLog Hwin Hclose.
  - reflexivity.
  - cbn [serve]. rewrite POST_rateLimit_unfold. cbv zeta.
    assert (Hret : retained ip now requestLog = win).
    { unfold retained. rewrite Hwin. apply filter_retains_all.
      intros t Ht. apply Hclose; [apply in_or_app; now left | now left]. }
    rewrite Hret.
    destruct (Nat.ltb_spec (length win) RATE_LIMIT) as [Hlt | Hge].
    + specialize (IH (win ++ [now]) (<[ip := win ++ [now]]> requestLog)).
      destruct (serve ip later (<[ip := win ++ [now]]> requestLog)) as [rest final].
      cbn [fst map allowed]. cbn [fst] in IH.
      rewrite IH.
      * rewrite length_app. cbn [length].
        replace (Nat.min (S (length later)) (RATE_LIMIT - length win))
          with (S (Nat.min (length later) (RATE_LIMIT - (length win + 1)))) by lia.
        replace (S (length later) - (RATE_LIMIT - length win))%nat
          with (length later - (RATE_LIMIT - (length win + 1)))%nat by lia.
        reflexivity.
      * now rewrite lookup_insert_eq.
      * intros t now' Ht Hnow'. apply Hclose; [| now right].
        rewrite <- app_assoc in Ht. exact Ht.
    + specialize (IH win requestLog Hwin).
      destruct (serve ip later requestLog) as [rest final].
      cbn [fst map allowed]. cbn [fst] in IH.
      rewrite IH.
      * replace (RATE_LIMIT - length win)%nat with 0%nat by lia.
        rewrite !Nat.min_0_r, !Nat.sub_0_r. reflexivity.
      * intros t now' Ht Hnow'. apply Hclose; [| now right].
        apply in_app_or in Ht. apply in_or_app.
        destruct Ht; [now left | right; now right].
Qed.

(** The single-entry handler admits and records like the batch handler;
    its refusals report the whole cooldown, 60 seconds, which is at least
    what the batch handler reports when no retained timestamp lies in the
    future. *)
Lemma POST_single_rateLimit_retry_after ip now requestLog :
  (forall t, In t (retained ip now requestLog) -> t <= now) ->
  match POST_rateLimit ip now requestLog with
  | (Allowed, requestLog') =>
      POST_single_rateLimit ip now requestLog = (Allowed, requestLog')
  | (TooManyRequests retryAfter, requestLog') =>
      POST_single_rateLimit ip now requestLog = (TooManyRequests 60, requestLog') /\
      retryAfter <= 60
  end.
Proof.
  intros Hpast. unfold POST_single_rateLimit.
  rewrite checkRateLimit_POST_rateLimit, POST_rateLimit_unfold. cbv zeta.
  destruct (Nat.ltb_spec (length (retained ip now requestLog)) RATE_LIMIT) as [Hlt | Hge];
    cbn [fst snd allowed]; [reflexivity |].
  split; [reflexivity |].
  assert (Hne : retained ip now requestLog <> []).
  { intros E. rewrite E in Hge. cbn in Hge. unfold RATE_LIMIT in Hge. lia. }
  destruct (Math_min_list_least _ Hne) as [Hin _].
  specialize (Hpast _ Hin).
  pose proof (Math_ceil_div_bounds
                (COOLDOWN - (now - Math_min_list (retained ip now requestLog)))) as Hb.
  unfold COOLDOWN in *. lia.
Qed.

(** C2: a request is allowed, and its timestamp appended to the retained
    ones, exactly when fewer than 10 timestamps are retained; a refused
    request leaves the log as it was.  Of the requests a fresh caller makes
    within one 60-second window the first 10 are allowed and every later one
    refused.  A refusal reports a positive [retryAfter], the least number of
    whole seconds after which the oldest retained timestamp has left the
    window.  [checkRateLimit] of the single-entry handler admits and records
    in the same way. *)
Theorem rate_limit_window :
  (forall ip now requestLog,
     let recent := retained ip now requestLog in
     let r := POST_rateLimit ip now requestLog in
     allowed (fst r) = (length recent <? 10)%nat /\
     snd r = (if (length recent <? 10)%nat
              then <[ip := recent ++ [now]]> requestLog else requestLog) /\
     checkRateLimit ip now requestLog = (allowed (fst r), snd r)) /\
  (forall ip times (requestLog : gmap string (list Z)),
     requestLog !! ip = None ->
     (forall t now, In t times -> In now times -> now - t < COOLDOWN) ->
     map allowed (fst (serve ip times requestLog)) =
       repeat true (Nat.min (length times) 10) ++ repeat false (length times - 10)) /\
  (forall ip now requestLog retryAfter,
     fst (POST_rateLimit ip now requestLog) = TooManyRequests retryAfter ->
     snd (POST_rateLimit ip now requestLog) = requestLog /\
     0 < retryAfter /\
     exists oldest,
       In oldest (retained ip now requestLog) /\
       (forall t, In t (retained ip now requestLog) -> oldest <= t) /\
       now + 1000 * (retryAfter - 1) - oldest < COOLDOWN /\
       COOLDOWN <= now + 1000 * retryAfter - oldest).
Proof.
  split; [| split].
  - intros ip now requestLog recent r. subst r.
    rewrite checkRateLimit_POST_rateLimit, POST_rateLimit_unfold. cbv zeta.
    fold recent. change RATE_LIMIT with 10%nat.
    destruct (length recent <? 10)%nat; repeat split; reflexivity.
  - intros ip times requestLog Hfresh Hclose.
    rewrite (serve_one_window ip times [] requestLog).
    + cbn [length]. rewrite Nat.sub_0_r. reflexivity.
    + now rewrite Hfresh.
    + intros t now Ht Hnow. apply Hclose; assumption.
  - intros ip now requestLog retryAfter.
    rewrite POST_rateLimit_unfold. cbv zeta.
    set (recent := retained ip now requestLog).
    destruct (Nat.ltb_spec (length recent) RATE_LIMIT) as [Hlt | Hge];
      cbn [fst snd]; [discriminate |].
    intros [= <-].
    assert (Hne : recent <> []).
    { intros E. rewrite E in Hge. cbn in Hge. unfold RATE_LIMIT in Hge. lia. }
    destruct (Math_min_list_least recent Hne) as [Hin Hleast].
    assert (Hold : now - Math_min_list recent < COOLDOWN).
    { unfold recent, retained in Hin. apply filter_In in Hin.
      destruct Hin as [_ Hin]. now apply Z.ltb_lt in Hin. }
    pose proof (Math_ceil_div_bounds (COOLDOWN - (now - Math_min_list recent))) as Hb.
    split; [reflexivity |]. split; [lia |].
    exists (Math_min_list recent). repeat split; [exact Hin | exact Hleast | lia | lia].
Qed.

Lemma rate_limit_window_witness :
  map allowed
    (fst (serve "10.0.0.7"
            [0; 1000; 2000; 3000; 4000; 5000; 6000; 7000; 8000; 9000; 10000] ∅)) =
    repeat true 10 ++ [false] /\
  0 < 50 /\
  snd (POST_rateLimit "10.0.0.7" 10000
         {["10.0.0.7" := [0; 1000; 2000; 3000; 4000; 5000; 6000; 7000; 8000; 9000]]}) =
    {["10.0.0.7" := [0; 1000; 2000; 3000; 4000; 5000; 6000; 7000; 8000; 9000]]}.
Proof.
  split; [| split].
  - apply (proj1 (proj2 rate_limit_window) "10.0.0.7"
             [0; 1000; 2000; 3000; 4000; 5000; 6000; 7000; 8000; 9000; 10000] ∅).
    + reflexivity.
    + intros t now Ht Hnow. cbn in Ht, Hnow. unfold COOLDOWN. lia.
  - apply (proj2 (proj2 rate_limit_window) "10.0.0.7" 10000
             {["10.0.0.7" := [0; 1000; 2000; 3000; 4000; 5000; 6000; 7000; 8000; 9000]]}
             50).
    vm_compute. reflexivity.
  - apply (proj2 (proj2 rate_limit_window) "10.0.0.7" 10000
             {["10.0.0.7" := [0; 1000; 2000; 3000; 4000; 5000; 6000; 7000; 8000; 9000]]}
             50).
    vm_compute. reflexivity.
Defined.

End RateLimitProperties.

(** ** Retry wrapper *)

Section RetryProperties.
Import Runtime Route.
Context {A : Type}.
Variable analyzeJournalEntry : string -> nat -> outcome A Error.

Lemma retry_from_calls content remaining :
  forall i lastError,
    (calls (fst (retry_from analyzeJournalEntry content remaining i lastError))
     <= remaining)%nat.
Proof.
  induction remaining as [| remaining IH]; intros i lastError; cbn [retry_from].
  - cbn. lia.
  - destruct (analyzeJournalEntry content i) as [result | error].
    + cbn. lia.
    + specialize (IH (S i) (Some error)).
      destruct (retry_from analyzeJournalEntry content remaining (S i) (Some error))
        as [events settled].
      cbn [fst] in *. unfold calls in *. cbn [List.filter length]. lia.
Qed.

(** A run only resolves with what one of its calls resolved with. *)
Lemma retry_from_resolved content remaining :
  forall i lastError result,
    snd (retry_from analyzeJournalEntry content remaining i lastError) = Resolved result ->
    exists j, (i <= j < i + remaining)%nat /\
              analyzeJournalEntry content j = Resolved result.
Proof.
  induction remaining as [| remaining IH]; intros i lastError result; cbn [retry_from].
  - discriminate.
  - destruct (analyzeJournalEntry content i) as [result' | error] eqn:E.
    + cbn. intros [= <-]. exists i. split; [lia | exact E].
    + specialize (IH (S i) (Some error) result).
      destruct (retry_from analyzeJournalEntry content remaining (S i) (Some error))
        as [events settled].
      cbn [snd] in *. intros H. destruct (IH H) as (j & Hj & Ej).
      exists j. split; [lia | exact Ej].
Qed.

End RetryProperties.

(** C3: with [maxRetries = 2] the wrapper calls the analysis at most twice,
    one call after the other; after the failed attempt [i] it waits
    [2^i] seconds (1000 ms, then 2000 ms) before going on; when both
    attempts fail it rejects with the error of the second attempt as it
    is; whatever it resolves with is what a call resolved with. *)
Theorem retryAnalysis_two_attempts :
  forall (A : Type) (analyzeJournalEntry : string -> nat -> Runtime.outcome A Runtime.Error)
         (content : string),
    let run := Route.retryAnalysis analyzeJournalEntry content 2 in
    (Route.calls (fst run) <= 2)%nat /\
    match analyzeJournalEntry content 0%nat, analyzeJournalEntry content 1%nat with
    | Runtime.Resolved result, _ =>
        run = ([Route.Call 0], Runtime.Resolved result)
    | Runtime.Rejected _, Runtime.Resolved result =>
        run = ([Route.Call 0; Route.SetTimeout (2 ^ 0 * 1000); Route.Call 1],
               Runtime.Resolved result)
    | Runtime.Rejected _, Runtime.Rejected error =>
        run = ([Route.Call 0; Route.SetTimeout (2 ^ 0 * 1000);
                Route.Call 1; Route.SetTimeout (2 ^ 1 * 1000)],
               Runtime.Rejected (Some error))
    end /\
    (forall result, snd run = Runtime.Resolved result ->
       exists i, (i < 2)%nat /\ analyzeJournalEntry content i = Runtime.Resolved result).
Proof.
  intros A analyzeJournalEntry content run. subst run.
  split; [apply retry_from_calls |]. split.
  - unfold Route.retryAnalysis. cbn [Route.retry_from].
    destruct (analyzeJournalEntry content 0%nat); [reflexivity |].
    destruct (analyzeJournalEntry content 1%nat); reflexivity.
  - intros result H.
    destruct (retry_from_resolved analyzeJournalEntry content 2 0 None result H)
      as (j & Hj & Ej).
    exists j. split; [lia | exact Ej].
Qed.

Lemma retryAnalysis_two_attempts_witness :
  let flaky := fun (_ : string) (i : nat) =>
    match i with
    | O => Runtime.Rejected "AI analysis failed"%string
    | _ => Runtime.Resolved 42%nat
    end in
  Route.retryAnalysis flaky "slept 7 hours" 2 =
    ([Route.Call 0; Route.SetTimeout 1000; Route.Call 1], Runtime.Resolved 42%nat) /\
  exists i, (i < 2)%nat /\ flaky "slept 7 hours"%string i = Runtime.Resolved 42%nat.
Proof.
  cbv zeta.
  pose proof (retryAnalysis_two_attempts nat
    (fun (_ : string) (i : nat) =>
       match i with
       | O => Runtime.Rejected "AI analysis failed"%string
       | _ => Runtime.Resolved 42%nat
       end) "slept 7 hours"%string) as H.
  cbv zeta in H. destruct H as (_ & Hrun & Hres).
  split; [exact Hrun |].
  apply Hres. reflexivity.
Defined.

(** ** Local extraction *)

Section ExtractionProperties.
Import JS Regex AnalyzeJournal.
Local Open Scope string_scope.

Lemma list_ascii_of_string_app (s t : string) :
  list_ascii_of_string (s ++ t) = (list_ascii_of_string s ++ list_ascii_of_string t)%list.
Proof.
  induction s as [| a s IH]; [reflexivity |].
  change (String a s ++ t) with (String a (s ++ t)).
  cbn [list_ascii_of_string]. rewrite IH. reflexivity.
Qed.

Lemma last_before_cons b a pre : last_before b (a :: pre) = last_before (Some a) pre.
Proof.
  unfold last_before. cbn [rev].
  destruct (rev pre) as [| x l]; reflexivity.
Qed.

(** The search skips a prefix in which no match begins. *)
Lemma exec_from_skip (re : RegExp) (pre post : list ascii) :
  forall b i,
    no_match_within re b pre post = true ->
    exec_from re b (pre ++ post)%list i =
      exec_from re (last_before b pre) post (i + length pre).
Proof.
  induction pre as [| a pre IH]; intros b i H.
  - cbn [length app]. rewrite Nat.add_0_r. reflexivity.
  - cbn [no_match_within] in H.
    change ((a :: pre) ++ post)%list with (a :: (pre ++ post))%list in *.
    cbn [exec_from].
    destruct (match_here re b (a :: (pre ++ post)%list)); [discriminate |].
    rewrite (IH (Some a) (S i) H), last_before_cons. cbn [length].
    f_equal. lia.
Qed.

(** The search returns the match at the leftmost position where one
    begins. *)
Lemma exec_from_leftmost (re : RegExp) (text : list ascii) :
  forall b i m,
    exec_from re b text i = Some m ->
    exists pre post c,
      text = (pre ++ post)%list /\
      no_match_within re b pre post = true /\
      match_here re (last_before b pre) post = Some c /\
      index m = (i + length pre)%nat /\
      group1 m = capture c.
Proof.
  induction text as [| a text IH]; intros b i m; cbn [exec_from].
  - destruct (match_here re b []) as [c |] eqn:E; [| discriminate].
    intros [= <-]. exists [], [], c. cbn. rewrite Nat.add_0_r. auto.
  - destruct (match_here re b (a :: text)) as [c |] eqn:E.
    + intros [= <-]. exists [], (a :: text), c. cbn. rewrite Nat.add_0_r. auto.
    + intros H. destruct (IH (Some a) (S i) m H) as (pre & post & c & -> & Hno & Hc & Hi & Hg).
      exists (a :: pre), post, c.
      rewrite last_before_cons. cbn [no_match_within length].
      change ((a :: pre) ++ post)%list with (a :: (pre ++ post))%list.
      rewrite E. repeat split; try assumption. lia.
Qed.

Lemma sleep_match_7 b post i :
  exec_from patterns_sleep b (list_ascii_of_string "slept 7 hours" ++ post)%list i =
    Some {| index := i; group1 := Some (list_ascii_of_string "7") |}.
Proof. vm_compute. reflexivity. Qed.

Lemma sleep_match_7_5 b post i :
  exec_from patterns_sleep b (list_ascii_of_string "slept for 7.5 hours" ++ post)%list i =
    Some {| index := i; group1 := Some (list_ascii_of_string "7.5") |}.
Proof. vm_compute. reflexivity. Qed.

Lemma analyzeLocally_sleep entry now :
  sleep (analyzeLocally entry now) =
    option_map (fun m => parseFloat (captured m)) (String_match entry patterns_sleep).
Proof. reflexivity. Qed.

(** C5 (as amended): when the first match of the sleep pattern in the text
    is an occurrence of "slept 7 hours" (no match begins before it), [sleep]
    is 7; when it is an occurrence of "slept for 7.5 hours", [sleep] is 7.5;
    in general [sleep] is the number captured by the match at the leftmost
    position where the pattern matches; and [sleep] is [null] exactly when
    the pattern matches nowhere. *)
Theorem sleep_first_occurrence :
  (forall (pre post : string) (now : Z),
     no_match_within patterns_sleep None (list_ascii_of_string pre)
       (list_ascii_of_string ("slept 7 hours" ++ post)) = true ->
     sleep (analyzeLocally (pre ++ "slept 7 hours" ++ post) now) = Some 7%float) /\
  (forall (pre post : string) (now : Z),
     no_match_within patterns_sleep None (list_ascii_of_string pre)
       (list_ascii_of_string ("slept for 7.5 hours" ++ post)) = true ->
     sleep (analyzeLocally (pre ++ "slept for 7.5 hours" ++ post) now) = Some 7.5%float) /\
  (forall (entry : string) (now : Z) (hours : number),
     sleep (analyzeLocally entry now) = Some hours ->
     exists pre post c,
       list_ascii_of_string entry = (pre ++ post)%list /\
       no_match_within patterns_sleep None pre post = true /\
       match_here patterns_sleep (last_before None pre) post = Some c /\
       hours = parseFloat (default [] (capture c))) /\
  (forall (entry : string) (now : Z),
     sleep (analyzeLocally entry now) = None <->
     String_match entry patterns_sleep = None).
Proof.
  split; [| split; [| split]].
  - intros pre post now H.
    rewrite analyzeLocally_sleep. unfold String_match.
    rewrite list_ascii_of_string_app, (exec_from_skip _ _ _ _ _ H).
    rewrite list_ascii_of_string_app, sleep_match_7. reflexivity.
  - intros pre post now H.
    rewrite analyzeLocally_sleep. unfold String_match.
    rewrite list_ascii_of_string_app, (exec_from_skip _ _ _ _ _ H).
    rewrite list_ascii_of_string_app, sleep_match_7_5. reflexivity.
  - intros entry now hours. rewrite analyzeLocally_sleep. unfold String_match.
    destruct (exec_from patterns_sleep None (list_ascii_of_string entry) 0)
      as [m |] eqn:E; [| discriminate].
    cbn [option_map]. intros [= <-].
    destruct (exec_from_leftmost _ _ _ _ _ E) as (pre & post & c & Htext & Hno & Hc & _ & Hg).
    exists pre, post, c. repeat split; try assumption.
    unfold captured. now rewrite Hg.
  - intros entry now. rewrite analyzeLocally_sleep.
    destruct (String_match entry patterns_sleep); cbn; split; congruence.
Qed.

Lemma sleep_first_occurrence_witness :
  sleep (analyzeLocally ("Went to bed late, " ++ "slept 7 hours" ++ " and woke up sleepy") 0)
    = Some 7%float /\
  sleep (analyzeLocally ("I " ++ "slept for 7.5 hours" ++ ".") 0) = Some 7.5%float /\
  sleep (analyzeLocally "Long day at work" 0) = None.
Proof.
  split; [| split].
  - apply (proj1 sleep_first_occurrence). vm_compute. reflexivity.
  - apply (proj1 (proj2 sleep_first_occurrence)). vm_compute. reflexivity.
  - apply (proj2 (proj2 (proj2 sleep_first_occurrence))). vm_compute. reflexivity.
Defined.

(** A text that contains "slept 7 hours" after an earlier match of the
    pattern: [sleep] is the earlier number. *)
Lemma sleep_earlier_occurrence :
  let entry := "Could only sleep 5 hours on Monday, slept 7 hours on Tuesday" in
  entry = "Could only sleep 5 hours on Monday, " ++ "slept 7 hours" ++ " on Tuesday" /\
  sleep (analyzeLocally entry 0) = Some 5%float /\
  sleep (analyzeLocally entry 0) <> Some 7%float.
Proof.
  cbv zeta. split; [reflexivity |].
  assert (E : sleep (analyzeLocally
    "Could only sleep 5 hours on Monday, slept 7 hours on Tuesday" 0) = Some 5%float)
    by (vm_compute; reflexivity).
  split; [exact E |].
  rewrite E. discriminate.
Qed.

(** C6: the energy level is that of the first of the categories high, low,
    medium, in this order, whose pattern matches the lower-cased text, and
    [null] when none matches. *)
Theorem energy_priority :
  map fst patterns_energy = ["high"; "low"; "medium"] /\
  (forall (entry : string) (now : Z),
     let lowerEntry := toLowerCase entry in
     let matches level :=
       match assoc_pattern level patterns_energy with
       | Some pattern => test pattern lowerEntry
       | None => false
       end in
     energy (analyzeLocally entry now) =
       if matches "high" then Some "high"
       else if matches "low" then Some "low"
       else if matches "medium" then Some "medium"
       else None) /\
  energy (analyzeLocally "Felt tired at noon but energetic after my walk" 0) = Some "high" /\
  energy (analyzeLocally "Decent energy in the morning, exhausted by night" 0) = Some "low" /\
  energy (analyzeLocally "Moderate energy all day" 0) = Some "medium" /\
  energy (analyzeLocally "Read a book and cooked dinner" 0) = None.
Proof.
  split; [reflexivity |]. split; [| repeat split; vm_compute; reflexivity].
  intros entry now lowerEntry matches. subst matches.
  unfold analyzeLocally. cbn [energy]. fold lowerEntry.
  unfold patterns_energy. cbn [first_matching assoc_pattern String.eqb Ascii.eqb Bool.eqb].
  destruct (test _ lowerEntry); [reflexivity |].
  destruct (test _ lowerEntry); [reflexivity |].
  destruct (test _ lowerEntry); reflexivity.
Qed.

(** *** The first copy of the module

    The first copy of [analyzeLocally] differs on both points: without a
    match its [sleep] is the number 0, and its energy loop has no [break],
    so the last matching category wins and 'medium' is the default. *)

Lemma first_copy_sleep_default (entry : string) :
  String_match entry FirstVersion.patterns_sleep = None ->
  FirstVersion.analyzeLocally_sleep entry = 0%float.
Proof. unfold FirstVersion.analyzeLocally_sleep. now intros ->. Qed.

Lemma first_copy_energy_last_match (entry : string) :
  let matches level :=
    match assoc_pattern level FirstVersion.patterns_energy with
    | Some pattern => test pattern entry
    | None => false
    end in
  FirstVersion.analyzeLocally_energy entry =
    if matches "medium" then "medium"
    else if matches "low" then "low"
    else if matches "high" then "high"
    else "medium".
Proof.
  cbv zeta. unfold FirstVersion.analyzeLocally_energy, FirstVersion.patterns_energy.
  cbn [fold_left assoc_pattern String.eqb Ascii.eqb Bool.eqb].
  destruct (test (FirstVersion.energy_words "okay" _) entry); [reflexivity |].
  destruct (test (FirstVersion.energy_words "low" _) entry); [reflexivity |].
  destruct (test (FirstVersion.energy_words "high" _) entry); reflexivity.
Qed.

Example first_copy_energy_examples :
  FirstVersion.analyzeLocally_energy "Energy high at noon, feeling tired at night" = "low" /\
  FirstVersion.analyzeLocally_energy "Read a book and cooked dinner" = "medium" /\
  FirstVersion.analyzeLocally_sleep "Read a book and cooked dinner" = 0%float.
Proof. repeat split; vm_compute; reflexivity. Qed.

End ExtractionProperties.

(** ** Enrichment cache *)

Section CacheProperties.
Import Runtime AnalyzeJournal Enrichment.
Variable JSON_stringify : Metrics -> string.
Variable JSON_parse : string -> option value.

Lemma cache_hit_set key a t t' (analysisCache : gmap string CacheEntry) :
  cache_hit key t' (cache_set key a t analysisCache) =
    if t' - t <? CACHE_TTL then Some a else None.
Proof. unfold cache_hit, cache_set. rewrite lookup_insert_eq. reflexivity. Qed.

Lemma cache_hit_fresh key now (analysisCache : gmap string CacheEntry) a :
  cache_hit key now analysisCache = Some a ->
  exists e, analysisCache !! key = Some e /\ analysis e = a /\ now - stored e < CACHE_TTL.
Proof.
  unfold cache_hit. destruct (analysisCache !! key) as [e |]; [| discriminate].
  destruct (Z.ltb_spec (now - stored e) CACHE_TTL); [| discriminate].
  intros [= <-]. exists e. auto.
Qed.

Lemma sweep_lookup now (analysisCache : gmap string CacheEntry) key e :
  sweep now analysisCache !! key = Some e <->
  analysisCache !! key = Some e /\ now - stored e <= CACHE_TTL.
Proof.
  unfold sweep. rewrite map_lookup_filter_Some. cbn [snd]. intuition lia.
Qed.

(** A call that finds nothing fresh under its key behaves as on the cache
    without that key. *)
Lemma getAIAnalysis_miss entry metrics call (analysisCache : gmap string CacheEntry) :
  cache_hit (cacheKey JSON_stringify entry metrics) (now call) analysisCache = None ->
  fst (getAIAnalysis JSON_stringify JSON_parse entry metrics call analysisCache) =
  fst (getAIAnalysis JSON_stringify JSON_parse entry metrics call
         (delete (cacheKey JSON_stringify entry metrics) analysisCache)).
Proof.
  intros Hmiss. unfold getAIAnalysis. cbv zeta. rewrite Hmiss.
  unfold cache_hit at 1. rewrite lookup_delete_eq.
  destruct (api_key call); cbn [negb]; [| reflexivity].
  destruct (response call) as [content | err]; [| reflexivity].
  destruct (JSON_parse content); reflexivity.
Qed.

(** C4: an analysis stored under a key is returned for that key at every
    moment less than 30 minutes after the store, and is not returned once
    its age has reached 30 minutes; whatever a lookup returns is the
    analysis of an entry younger than the TTL; the sweep keeps exactly the
    entries whose age does not exceed the TTL.  For [getAIAnalysis]: after a
    call has stored its result, a later call for the same entry and metrics
    returns that result from the cache while it is younger than the TTL,
    whatever the service would answer, and behaves as on a cache without
    the key once it is not. *)
Theorem cache_round_trip :
  (forall key a t t' (analysisCache : gmap string CacheEntry),
     (t' - t < CACHE_TTL -> cache_hit key t' (cache_set key a t analysisCache) = Some a) /\
     (CACHE_TTL <= t' - t -> cache_hit key t' (cache_set key a t analysisCache) = None)) /\
  (forall key now (analysisCache : gmap string CacheEntry) a,
     cache_hit key now analysisCache = Some a ->
     exists e, analysisCache !! key = Some e /\ analysis e = a /\
               now - stored e < CACHE_TTL) /\
  (forall now (analysisCache : gmap string CacheEntry) key e,
     sweep now analysisCache !! key = Some e <->
     analysisCache !! key = Some e /\ now - stored e <= CACHE_TTL) /\
  (forall entry metrics call content parsed (analysisCache : gmap string CacheEntry),
     cache_hit (cacheKey JSON_stringify entry metrics) (now call) analysisCache = None ->
     api_key call = true ->
     response call = Resolved content ->
     JSON_parse content = Some parsed ->
     getAIAnalysis JSON_stringify JSON_parse entry metrics call analysisCache =
       (Resolved parsed,
        cache_set (cacheKey JSON_stringify entry metrics) parsed (now_after call)
          analysisCache)) /\
  (forall entry metrics later a t (analysisCache : gmap string CacheEntry),
     let key := cacheKey JSON_stringify entry metrics in
     let stored_cache := cache_set key a t analysisCache in
     (now later - t < CACHE_TTL ->
      getAIAnalysis JSON_stringify JSON_parse entry metrics later stored_cache =
        (Resolved a, stored_cache)) /\
     (CACHE_TTL <= now later - t ->
      fst (getAIAnalysis JSON_stringify JSON_parse entry metrics later stored_cache) =
      fst (getAIAnalysis JSON_stringify JSON_parse entry metrics later
             (delete key analysisCache)))).
Proof.
  split; [| split; [| split; [| split]]].
  - intros key a t t' analysisCache. rewrite cache_hit_set.
    split; intros H.
    + now apply Z.ltb_lt in H as ->.
    + now apply Z.ltb_ge in H as ->.
  - apply cache_hit_fresh.
  - apply sweep_lookup.
  - intros entry metrics call content parsed analysisCache Hmiss Hkey Hresp Hparse.
    unfold getAIAnalysis. cbv zeta. rewrite Hmiss, Hkey, Hresp, Hparse. reflexivity.
  - intros entry metrics later a t analysisCache key stored_cache.
    split; intros Hage.
    + unfold getAIAnalysis. cbv zeta. fold key. subst stored_cache.
      rewrite cache_hit_set. now apply Z.ltb_lt in Hage as ->.
    + rewrite getAIAnalysis_miss.
      * fold key. subst stored_cache. unfold cache_set.
        now rewrite delete_insert_eq.
      * fold key. subst stored_cache. rewrite cache_hit_set.
        now apply Z.ltb_ge in Hage as ->.
Qed.

End CacheProperties.

Lemma cache_round_trip_witness :
  Enrichment.cache_hit "k" 1799999
    (Enrichment.cache_set "k" (Runtime.VStr "analysis") 0 ∅) =
    Some (Runtime.VStr "analysis") /\
  Enrichment.cache_hit "k" 1800000
    (Enrichment.cache_set "k" (Runtime.VStr "analysis") 0 ∅) = None.
Proof.
  pose proof (proj1 (cache_round_trip (fun _ => ""%string) (fun _ => None))
                "k"%string (Runtime.VStr "analysis") 0) as H.
  split.
  - apply (proj1 (H 1799999 ∅)). reflexivity.
  - apply (proj2 (H 1800000 ∅)). vm_compute. discriminate.
Defined.

(** ** Enrichment: the shape of the response *)

Section EnrichmentProperties.
Import Runtime AnalyzeJournal Enrichment.
Variable JSON_stringify : Metrics -> string.
Variable JSON_parse : string -> option value.

(** Both copies reject when the service errors or the content is no JSON. *)
Lemma getAIAnalysis_rejects_failures entry metrics call
    (analysisCache : gmap string CacheEntry) :
  cache_hit (cacheKey JSON_stringify entry metrics) (now call) analysisCache = None ->
  api_key call = true ->
  (exists err, response call = Rejected err) \/
  (exists content, response call = Resolved content /\ JSON_parse content = None) ->
  getAIAnalysis JSON_stringify JSON_parse entry metrics call analysisCache =
    (Rejected "AI analysis failed"%string, analysisCache) /\
  FirstVersion.getAIAnalysis JSON_parse call = Rejected "AI analysis failed"%string.
Proof.
  intros Hmiss Hkey H.
  unfold getAIAnalysis, FirstVersion.getAIAnalysis. cbv zeta.
  rewrite Hmiss, Hkey. cbn [negb].
  destruct H as [[err ->] | (content & -> & ->)]; split; reflexivity.
Qed.

(** The first copy rejects a parsed response without both arrays. *)
Lemma FirstVersion_getAIAnalysis_checks call content parsed :
  api_key call = true ->
  response call = Resolved content ->
  JSON_parse content = Some parsed ->
  has_both_arrays parsed = false ->
  FirstVersion.getAIAnalysis JSON_parse call = Rejected "AI analysis failed"%string.
Proof.
  intros Hkey Hresp Hparse Hshape.
  unfold FirstVersion.getAIAnalysis. rewrite Hkey, Hresp, Hparse. cbn [negb].
  unfold has_both_arrays in Hshape.
  destruct (prop parsed "insights") as [insights |]; [| reflexivity].
  destruct (prop parsed "suggestions") as [suggestions |]; [| reflexivity].
  destruct (Array_isArray insights), (Array_isArray suggestions);
    try discriminate Hshape; cbn [negb];
    rewrite ?orb_true_r; reflexivity.
Qed.

(** C8, on the code: the second copy of [getAIAnalysis] resolves with, and
    stores in the cache, any content that parses as JSON, also when it
    lacks the [insights] or the [suggestions] array, where the first copy
    rejects it. *)
Theorem getAIAnalysis_accepts_any_json :
  forall entry metrics call content parsed (analysisCache : gmap string CacheEntry),
    cache_hit (cacheKey JSON_stringify entry metrics) (now call) analysisCache = None ->
    api_key call = true ->
    response call = Resolved content ->
    JSON_parse content = Some parsed ->
    has_both_arrays parsed = false ->
    getAIAnalysis JSON_stringify JSON_parse entry metrics call analysisCache =
      (Resolved parsed,
       cache_set (cacheKey JSON_stringify entry metrics) parsed (now_after call)
         analysisCache) /\
    FirstVersion.getAIAnalysis JSON_parse call = Rejected "AI analysis failed"%string.
Proof.
  intros entry metrics call content parsed analysisCache Hmiss Hkey Hresp Hparse Hshape.
  split.
  - unfold getAIAnalysis. cbv zeta. rewrite Hmiss, Hkey, Hresp, Hparse. reflexivity.
  - eapply FirstVersion_getAIAnalysis_checks; eassumption.
Qed.

End EnrichmentProperties.

(** The response [{}]: valid JSON without either array. *)
Lemma getAIAnalysis_accepts_any_json_witness :
  let JSON_stringify := fun _ : AnalyzeJournal.Metrics => "{}"%string in
  let JSON_parse := fun s : string =>
    if String.eqb s "{}" then Some (Runtime.VObj []) else None in
  let metrics := AnalyzeJournal.analyzeLocally "slept 7 hours" 0 in
  let call := {| Enrichment.now := 0; Enrichment.api_key := true;
                 Enrichment.response := Runtime.Resolved "{}"%string;
                 Enrichment.now_after := 900 |} in
  Enrichment.getAIAnalysis JSON_stringify JSON_parse "slept 7 hours" metrics call ∅ =
    (Runtime.Resolved (Runtime.VObj []),
     Enrichment.cache_set "slept 7 hours_{}" (Runtime.VObj []) 900 ∅) /\
  FirstVersion.getAIAnalysis JSON_parse call = Runtime.Rejected "AI analysis failed"%string.
Proof.
  cbv zeta.
  apply (getAIAnalysis_accepts_any_json
           (fun _ => "{}"%string)
           (fun s => if String.eqb s "{}" then Some (Runtime.VObj []) else None)
           "slept 7 hours"%string (AnalyzeJournal.analyzeLocally "slept 7 hours" 0)
           {| Enrichment.now := 0; Enrichment.api_key := true;
              Enrichment.response := Runtime.Resolved "{}"%string;
              Enrichment.now_after := 900 |}
           "{}"%string (Runtime.VObj []) ∅); reflexivity.
Defined.

(** ** Batch handler *)

Section BatchProperties.
Import JS Runtime Trend Route Batch.
Variable analyzeJournalEntry : nat -> string -> nat -> outcome Analysis Error.






End BatchProperties.



(** ** Sleep sub-score *)

Section SleepProperties.
Import JS Runtime Reports.















End SleepProperties.

(* ===================================================================== *)
(** * Part III: further properties of the code *)
(* ===================================================================== *)

(** ** The request log *)

Section RequestLogProperties.
Import Route.

Lemma filter_filter_implied {A} (p q : A -> bool) (l : list A) :
  (forall x, p x = true -> q x = true) ->
  List.filter p (List.filter q l) = List.filter p l.
Proof.
  intros Himp. induction l as [| x l IH]; [reflexivity |].
  cbn [List.filter]. destruct (q x) eqn:Hq.
  - cbn [List.filter]. destruct (p x); now rewrite IH.
  - destruct (p x) eqn:Hp; [| exact IH].
    apply Himp in Hp. congruence.
Qed.

Lemma filter_length_le {A} (p : A -> bool) (l : list A) :
  (length (List.filter p l) <= length l)%nat.
Proof.
  induction l as [| x l IH]; [reflexivity |].
  cbn [List.filter]. destruct (p x); cbn [length]; lia.
Qed.

Lemma filter_length_lt {A} (p p' : A -> bool) (l : list A) (x : A) :
  (forall y, p' y = true -> p y = true) ->
  In x l -> p x = true -> p' x = false ->
  (length (List.filter p' l) < length (List.filter p l))%nat.
Proof.
  intros Himp. induction l as [| y l IH]; intros Hin Hp Hp'; [destruct Hin |].
  assert (Hle : (length (List.filter p' l) <= length (List.filter p l))%nat).
  { clear -Himp. induction l as [| z l IH]; [reflexivity |].
    cbn [List.filter]. destruct (p' z) eqn:E.
    - rewrite (Himp z E). cbn [length]. lia.
    - destruct (p z); cbn [length]; lia. }
  cbn [List.filter]. destruct Hin as [-> | Hin].
  - rewrite Hp, Hp'. cbn [length]. lia.
  - specialize (IH Hin Hp Hp').
    destruct (p' y) eqn:E.
    + rewrite (Himp y E). cbn [length]. lia.
    + destruct (p y); cbn [length]; lia.
Qed.

Lemma cleanupRequestLog_lookup now (requestLog : gmap string (list Z)) ip :
  cleanupRequestLog now requestLog !! ip =
    match requestLog !! ip with
    | Some timestamps =>
        let valid := List.filter (fun time => now - time <? COOLDOWN) timestamps in
        if (length valid =? 0)%nat then None else Some valid
    | None => None
    end.
Proof.
  unfold cleanupRequestLog. rewrite lookup_omap.
  destruct (requestLog !! ip); reflexivity.
Qed.

(** X1: after [cleanupRequestLog] every caller left in the log has a
    non-empty list of timestamps, all of them inside the cooldown window and
    in their former order, and a caller is dropped exactly when none of its
    timestamps is inside the window. *)
Theorem cleanupRequestLog_keeps_recent :
  forall now (requestLog : gmap string (list Z)) ip,
    (forall kept, cleanupRequestLog now requestLog !! ip = Some kept ->
       kept <> [] /\
       Forall (fun time => now - time < COOLDOWN) kept /\
       kept = retained ip now requestLog) /\
    (cleanupRequestLog now requestLog !! ip = None <->
     retained ip now requestLog = []).
Proof.
  intros now requestLog ip. rewrite cleanupRequestLog_lookup. unfold retained.
  destruct (requestLog !! ip) as [timestamps |].
  - change (default [] (Some timestamps)) with timestamps. cbv zeta.
    destruct (List.filter (fun time => now - time <? COOLDOWN) timestamps)
      as [| t valid] eqn:E; cbn [length Nat.eqb].
    + split; [discriminate | split; reflexivity].
    + split; [| split; discriminate].
      intros kept [= <-]. split; [discriminate |]. split; [| reflexivity].
      rewrite <- E. apply Forall_forall. intros x Hx.
      apply list_elem_of_In, filter_In in Hx. now apply Z.ltb_lt.
  - split; [discriminate | split; reflexivity].
Qed.

Lemma cleanupRequestLog_keeps_recent_witness :
  let requestLog : gmap string (list Z) := {[ "a"%string := [0; 500] ]} in
  cleanupRequestLog 60100 requestLog !! "a"%string = Some [500] /\
  Forall (fun time => 60100 - time < COOLDOWN) [500].
Proof.
  intros requestLog.
  assert (E : cleanupRequestLog 60100 requestLog !! "a"%string = Some [500])
    by (vm_compute; reflexivity).
  split; [exact E |].
  exact (proj1 (proj2 (proj1 (cleanupRequestLog_keeps_recent 60100 requestLog "a"%string)
                         [500] E))).
Defined.

Lemma retained_cleanup t now (requestLog : gmap string (list Z)) ip :
  t <= now ->
  retained ip now (cleanupRequestLog t requestLog) = retained ip now requestLog.
Proof.
  intros Hle. unfold retained. rewrite cleanupRequestLog_lookup.
  destruct (requestLog !! ip) as [timestamps |]; [| reflexivity].
  change (default [] (Some timestamps)) with timestamps. cbv zeta.
  assert (H : List.filter (fun time => now - time <? COOLDOWN)
                (List.filter (fun time => t - time <? COOLDOWN) timestamps) =
              List.filter (fun time => now - time <? COOLDOWN) timestamps).
  { apply filter_filter_implied. intros x Hx.
    apply Z.ltb_lt in Hx. apply Z.ltb_lt. lia. }
  destruct (List.filter (fun time => t - time <? COOLDOWN) timestamps) eqn:E;
    cbn [length Nat.eqb]; exact H.
Qed.

Lemma POST_rateLimit_decision ip now requestLog :
  fst (POST_rateLimit ip now requestLog) =
    let recent := retained ip now requestLog in
    if (length recent <? RATE_LIMIT)%nat then Allowed
    else TooManyRequests
           (Math_ceil_div (COOLDOWN - (now - Math_min_list recent)) 1000).
Proof.
  rewrite POST_rateLimit_unfold. cbv zeta.
  destruct (_ <? RATE_LIMIT)%nat; reflexivity.
Qed.

(** X2: a cleanup of the log at some time never changes what a later rate
    limit check decides, nor the retry delay it reports. *)
Theorem cleanup_preserves_admission :
  forall t now ip (requestLog : gmap string (list Z)),
    t <= now ->
    fst (POST_rateLimit ip now (cleanupRequestLog t requestLog)) =
      fst (POST_rateLimit ip now requestLog) /\
    fst (checkRateLimit ip now (cleanupRequestLog t requestLog)) =
      fst (checkRateLimit ip now requestLog).
Proof.
  intros t now ip requestLog Hle.
  rewrite !checkRateLimit_POST_rateLimit. cbn [fst].
  rewrite !POST_rateLimit_decision, (retained_cleanup t now requestLog ip Hle).
  split; reflexivity.
Qed.

Lemma cleanup_preserves_admission_witness :
  fst (POST_rateLimit "10.0.0.7" 70000
         (cleanupRequestLog 60000 {["10.0.0.7" := [0; 30000; 65000]]})) =
  fst (POST_rateLimit "10.0.0.7" 70000 {["10.0.0.7" := [0; 30000; 65000]]}).
Proof.
  apply (cleanup_preserves_admission 60000 70000 "10.0.0.7"
           {["10.0.0.7" := [0; 30000; 65000]]}). lia.
Defined.

(** X3: a request of one caller leaves the timestamps of every other caller
    as they were, and so never changes what a check for another caller
    decides. *)
Theorem rate_limit_isolation :
  forall ip other now now' (requestLog : gmap string (list Z)),
    ip <> other ->
    snd (POST_rateLimit ip now requestLog) !! other = requestLog !! other /\
    snd (checkRateLimit ip now requestLog) !! other = requestLog !! other /\
    fst (POST_rateLimit other now' (snd (POST_rateLimit ip now requestLog))) =
      fst (POST_rateLimit other now' requestLog).
Proof.
  intros ip other now now' requestLog Hne.
  assert (H : snd (POST_rateLimit ip now requestLog) !! other = requestLog !! other).
  { rewrite POST_rateLimit_unfold. cbv zeta.
    destruct (_ <? RATE_LIMIT)%nat; cbn [snd]; [| reflexivity].
    now rewrite lookup_insert_ne. }
  split; [exact H |]. split.
  - rewrite checkRateLimit_POST_rateLimit. exact H.
  - rewrite !POST_rateLimit_decision. unfold retained. now rewrite H.
Qed.

Lemma rate_limit_isolation_witness :
  snd (POST_rateLimit "10.0.0.7" 5 {["10.0.0.8" := [1; 2]]}) !! "10.0.0.8" = Some [1; 2].
Proof.
  apply (proj1 (rate_limit_isolation "10.0.0.7" "10.0.0.8" 5 5 {["10.0.0.8" := [1; 2]]}
                  ltac:(discriminate))).
Defined.

(** X4: the log never holds more than [RATE_LIMIT] timestamps for a caller:
    if that is so before a request it is so after it, whoever asks, and
    after an allowed request the caller's timestamps are all inside the
    window and end with the request's own. *)
Theorem request_log_bounded :
  forall ip now (requestLog : gmap string (list Z)),
    (forall who timestamps, requestLog !! who = Some timestamps ->
       (length timestamps <= RATE_LIMIT)%nat) ->
    (forall who timestamps,
       snd (POST_rateLimit ip now requestLog) !! who = Some timestamps ->
       (length timestamps <= RATE_LIMIT)%nat) /\
    (fst (POST_rateLimit ip now requestLog) = Allowed ->
     exists recent,
       snd (POST_rateLimit ip now requestLog) !! ip = Some (recent ++ [now]) /\
       Forall (fun time => now - time < COOLDOWN) recent).
Proof.
  intros ip now requestLog Hbound.
  rewrite POST_rateLimit_unfold. cbv zeta.
  destruct (Nat.ltb_spec (length (retained ip now requestLog)) RATE_LIMIT) as [Hlt | Hge];
    cbn [fst snd].
  - split.
    + intros who timestamps. destruct (decide (ip = who)) as [-> | Hne].
      * rewrite lookup_insert_eq. intros [= <-]. rewrite length_app. cbn [length]. lia.
      * rewrite lookup_insert_ne by exact Hne. apply Hbound.
    + intros _. exists (retained ip now requestLog).
      rewrite lookup_insert_eq. split; [reflexivity |].
      apply Forall_forall. intros x Hx. unfold retained in Hx.
      apply list_elem_of_In, filter_In in Hx. now apply Z.ltb_lt.
  - split; [exact Hbound | discriminate].
Qed.

Lemma request_log_bounded_witness :
  exists recent,
    snd (POST_rateLimit "10.0.0.7" 70000 {["10.0.0.7" := [0; 30000]]}) !! "10.0.0.7"
      = Some (recent ++ [70000]) /\
    Forall (fun time => 70000 - time < COOLDOWN) recent.
Proof.
  apply (proj2 (request_log_bounded "10.0.0.7" 70000 {["10.0.0.7" := [0; 30000]]}
    ltac:(intros who timestamps H;
          destruct (decide (who = "10.0.0.7")) as [-> | Hne];
          [rewrite lookup_singleton_eq in H; injection H as <-; cbn; unfold RATE_LIMIT; lia
          | rewrite lookup_singleton_ne in H by congruence; discriminate]))).
  reflexivity.
Defined.

(** X5: the retry delay of a refusal is enough: when the log holds at most
    [RATE_LIMIT] timestamps for the caller, a request made [retryAfter]
    seconds after a refused one, or later, is allowed if the caller made no
    other request in between. *)
Theorem retry_after_suffices :
  forall ip now later (requestLog : gmap string (list Z)) retryAfter,
    (length (default [] (requestLog !! ip)) <= RATE_LIMIT)%nat ->
    fst (POST_rateLimit ip now requestLog) = TooManyRequests retryAfter ->
    now + 1000 * retryAfter <= later ->
    fst (POST_rateLimit ip later requestLog) = Allowed.
Proof.
  intros ip now later requestLog retryAfter Hbound Hrefused Hlater.
  assert (Hold : exists oldest,
            In oldest (retained ip now requestLog) /\
            COOLDOWN <= now + 1000 * retryAfter - oldest).
  { rewrite POST_rateLimit_decision in Hrefused. cbv zeta in Hrefused.
    destruct (Nat.ltb_spec (length (retained ip now requestLog)) RATE_LIMIT)
      as [Hlt | Hge]; [discriminate |].
    injection Hrefused as <-.
    assert (Hne : retained ip now requestLog <> []).
    { intros E. rewrite E in Hge. cbn in Hge. unfold RATE_LIMIT in Hge. lia. }
    destruct (Math_min_list_least _ Hne) as [Hin _].
    exists (Math_min_list (retained ip now requestLog)). split; [exact Hin |].
    pose proof (Math_ceil_div_bounds
      (COOLDOWN - (now - Math_min_list (retained ip now requestLog)))). lia. }
  destruct Hold as (oldest & Hin & Hgone).
  rewrite POST_rateLimit_decision. cbv zeta.
  replace (_ <? RATE_LIMIT)%nat with true; [reflexivity |].
  symmetry. apply Nat.ltb_lt.
  assert (H : (length (retained ip later requestLog) <
               length (retained ip now requestLog))%nat).
  { unfold retained in *.
    apply filter_In in Hin. destruct Hin as [Hin Hold].
    apply (filter_length_lt _ _ _ oldest); [| exact Hin | exact Hold |].
    - intros y Hy. apply Z.ltb_lt in Hy. apply Z.ltb_lt. lia.
    - apply Z.ltb_ge. lia. }
  assert (Hle : (length (retained ip now requestLog) <=
                 length (default [] (requestLog !! ip)))%nat)
    by apply filter_length_le.
  lia.
Qed.

Lemma retry_after_suffices_witness :
  fst (POST_rateLimit "10.0.0.7" (10000 + 1000 * 50)
         {["10.0.0.7" := [0; 1000; 2000; 3000; 4000; 5000; 6000; 7000; 8000; 9000]]}) =
    Allowed.
Proof.
  apply (retry_after_suffices "10.0.0.7" 10000 (10000 + 1000 * 50)
           {["10.0.0.7" := [0; 1000; 2000; 3000; 4000; 5000; 6000; 7000; 8000; 9000]]} 50).
  - vm_compute. lia.
  - vm_compute. reflexivity.
  - lia.
Defined.

End RequestLogProperties.

(** ** The retry loop for any number of attempts *)

Section RetryLoopProperties.
Import Runtime Route RetryTrace.
Context {A : Type}.
Variable analyzeJournalEntry : string -> nat -> outcome A Error.

Lemma calls_failed_attempts i n : calls (failed_attempts i n) = n.
Proof.
  revert i. induction n as [| n IH]; intros i; [reflexivity |].
  unfold calls in *. cbn [failed_attempts List.filter length]. now rewrite IH.
Qed.

Lemma waited_failed_attempts i n :
  waited (failed_attempts i n) = (2 ^ Z.of_nat (i + n) - 2 ^ Z.of_nat i) * 1000.
Proof.
  revert i. induction n as [| n IH]; intros i.
  - cbn [failed_attempts waited fold_right]. rewrite Nat.add_0_r. lia.
  - cbn [failed_attempts]. unfold waited in *. cbn [fold_right]. rewrite IH.
    replace (S i + n)%nat with (i + S n)%nat by lia.
    replace (Z.of_nat (S i)) with (Z.of_nat i + 1) by lia.
    rewrite Z.pow_add_r by lia. lia.
Qed.

Lemma waited_app_call events k : waited (events ++ [Call k]) = waited events.
Proof.
  unfold waited. induction events as [| e events IH]; [reflexivity |].
  cbn [app fold_right]. destruct e; now rewrite IH.
Qed.

Lemma calls_app_call events k : calls (events ++ [Call k]) = S (calls events).
Proof.
  unfold calls. rewrite List.filter_app, length_app. cbn. lia.
Qed.

Lemma retry_from_all_fail content (errors : nat -> Error) n :
  forall i lastError,
    (forall j, (i <= j < i + n)%nat ->
       analyzeJournalEntry content j = Rejected (errors j)) ->
    retry_from analyzeJournalEntry content n i lastError =
      (failed_attempts i n,
       Rejected (match n with O => lastError | S n' => Some (errors (i + n')%nat) end)).
Proof.
  induction n as [| n IH]; intros i lastError Hfail; [reflexivity |].
  cbn [retry_from failed_attempts].
  rewrite (Hfail i) by lia.
  rewrite (IH (S i) (Some (errors i))) by (intros j Hj; apply Hfail; lia).
  destruct n as [| n']; cbn [failed_attempts].
  - now rewrite Nat.add_0_r.
  - now replace (S i + n')%nat with (i + S n')%nat by lia.
Qed.

Lemma retry_from_first_success content (errors : nat -> Error) result k :
  forall n i lastError,
    (k < n)%nat ->
    (forall j, (i <= j < i + k)%nat ->
       analyzeJournalEntry content j = Rejected (errors j)) ->
    analyzeJournalEntry content (i + k)%nat = Resolved result ->
    retry_from analyzeJournalEntry content n i lastError =
      (failed_attempts i k ++ [Call (i + k)], Resolved result).
Proof.
  induction k as [| k IH]; intros n i lastError Hlt Hfail Hok.
  - destruct n as [| n]; [lia |]. cbn [retry_from failed_attempts app].
    rewrite Nat.add_0_r in *. now rewrite Hok.
  - destruct n as [| n]; [lia |]. cbn [retry_from failed_attempts].
    rewrite (Hfail i) by lia.
    rewrite (IH n (S i) (Some (errors i))).
    + cbn [app]. now replace (S i + k)%nat with (i + S k)%nat by lia.
    + lia.
    + intros j Hj. apply Hfail. lia.
    + now replace (S i + k)%nat with (i + S k)%nat by lia.
Qed.

Lemma timers_kept_failed_attempts i n :
  (i + n <= MAX_EXACT_RETRIES)%nat -> timers_kept (failed_attempts i n) = true.
Proof.
  unfold MAX_EXACT_RETRIES, timers_kept. revert i.
  induction n as [| n IH]; intros i Hle; [reflexivity |].
  cbn [failed_attempts forallb]. rewrite (IH (S i)) by lia.
  rewrite andb_true_r. apply Z.leb_le. unfold TIMEOUT_MAX.
  assert (2 ^ Z.of_nat i <= 2 ^ 21) by (apply Z.pow_le_mono_r; lia).
  lia.
Qed.

Lemma timers_kept_app_call events k :
  timers_kept (events ++ [Call k]) = timers_kept events.
Proof. unfold timers_kept. rewrite forallb_app. cbn. now rewrite andb_true_r. Qed.

(** X6: when every one of the [maxRetries] attempts fails, for a
    [maxRetries] of at most 22, [retryAnalysis] makes exactly [maxRetries]
    calls, each followed by a wait of [2^i] seconds that the timer keeps,
    [2^maxRetries - 1] seconds in all, and rejects with the error of the
    last attempt; with [maxRetries = 0] it makes no call and throws
    [undefined]. *)
Theorem retryAnalysis_all_fail :
  forall (content : string) (maxRetries : nat) (errors : nat -> Error),
    (maxRetries <= MAX_EXACT_RETRIES)%nat ->
    (forall j, (j < maxRetries)%nat ->
       analyzeJournalEntry content j = Rejected (errors j)) ->
    let run := retryAnalysis analyzeJournalEntry content maxRetries in
    fst run = failed_attempts 0 maxRetries /\
    timers_kept (fst run) = true /\
    calls (fst run) = maxRetries /\
    waited (fst run) = (2 ^ Z.of_nat maxRetries - 1) * 1000 /\
    snd run = Rejected (match maxRetries with
                        | O => None
                        | S n => Some (errors n)
                        end).
Proof.
  intros content maxRetries errors Hbound Hfail run. subst run. unfold retryAnalysis.
  rewrite (retry_from_all_fail content errors maxRetries 0 None)
    by (intros j Hj; apply Hfail; lia).
  cbn [fst snd]. rewrite calls_failed_attempts, waited_failed_attempts.
  rewrite timers_kept_failed_attempts by (cbn [Nat.add]; exact Hbound).
  cbn [Nat.add]. change (2 ^ Z.of_nat 0) with 1. repeat split.
Qed.

(** X7: when attempt [k] is the first to succeed, with [k] below
    [maxRetries] and at most 22, [retryAnalysis] makes exactly [k + 1]
    calls, has waited [2^k - 1] seconds in all, each delay one that the
    timer keeps, and resolves with the result of that attempt; no attempt is
    made after it. *)
Theorem retryAnalysis_first_success :
  forall (content : string) (maxRetries k : nat) (errors : nat -> Error) (result : A),
    (k < maxRetries)%nat ->
    (k <= MAX_EXACT_RETRIES)%nat ->
    (forall j, (j < k)%nat -> analyzeJournalEntry content j = Rejected (errors j)) ->
    analyzeJournalEntry content k = Resolved result ->
    let run := retryAnalysis analyzeJournalEntry content maxRetries in
    run = (failed_attempts 0 k ++ [Call k], Resolved result) /\
    timers_kept (fst run) = true /\
    calls (fst run) = S k /\
    waited (fst run) = (2 ^ Z.of_nat k - 1) * 1000.
Proof.
  intros content maxRetries k errors result Hlt Hbound Hfail Hok run. subst run.
  unfold retryAnalysis.
  rewrite (retry_from_first_success content errors result k maxRetries 0 None Hlt)
    by (try (intros j Hj; apply Hfail; lia); exact Hok).
  cbn [fst Nat.add]. rewrite calls_app_call, waited_app_call, timers_kept_app_call.
  rewrite calls_failed_attempts, waited_failed_attempts.
  rewrite timers_kept_failed_attempts by (cbn [Nat.add]; exact Hbound).
  cbn [Nat.add]. change (2 ^ Z.of_nat 0) with 1. repeat split.
Qed.

End RetryLoopProperties.

Lemma retryAnalysis_all_fail_witness :
  Route.retryAnalysis (fun _ _ => Runtime.Rejected "AI analysis failed"%string
                                  : Runtime.outcome nat Runtime.Error)
    "slept 7 hours" 3 =
    (RetryTrace.failed_attempts 0 3, Runtime.Rejected (Some "AI analysis failed"%string)).
Proof.
  pose proof (retryAnalysis_all_fail
    (fun _ _ => Runtime.Rejected "AI analysis failed"%string
                : Runtime.outcome nat Runtime.Error)
    "slept 7 hours"%string 3 (fun _ => "AI analysis failed"%string)
    ltac:(unfold RetryTrace.MAX_EXACT_RETRIES; lia) ltac:(reflexivity)) as H.
  cbv zeta in H. destruct H as (Hev & _ & _ & _ & Hres).
  rewrite <- Hev. rewrite (surjective_pairing (Route.retryAnalysis _ _ _)) at 1.
  now rewrite Hres.
Defined.

Lemma retryAnalysis_first_success_witness :
  Route.retryAnalysis
    (fun _ i => match i with
                | 2%nat => Runtime.Resolved 42%nat
                | _ => Runtime.Rejected "AI analysis failed"%string
                end) "slept 7 hours" 5 =
    ([Route.Call 0; Route.SetTimeout 1000; Route.Call 1; Route.SetTimeout 2000;
      Route.Call 2], Runtime.Resolved 42%nat).
Proof.
  apply (retryAnalysis_first_success
    (fun _ i => match i with
                | 2%nat => Runtime.Resolved 42%nat
                | _ => Runtime.Rejected "AI analysis failed"%string
                end)
    "slept 7 hours"%string 5 2 (fun _ => "AI analysis failed"%string) 42%nat).
  - lia.
  - unfold RetryTrace.MAX_EXACT_RETRIES. lia.
  - intros j Hj. destruct j as [| [| j]]; [reflexivity | reflexivity | lia].
  - reflexivity.
Defined.

(** ** The enrichment cache under calls and sweeps *)

Section EnrichmentFrame.
Import Runtime AnalyzeJournal Enrichment.
Variable JSON_stringify : Metrics -> string.
Variable JSON_parse : string -> option value.

Lemma getAIAnalysis_frame :
  forall entry metrics call (analysisCache : gmap string CacheEntry),
    let key := cacheKey JSON_stringify entry metrics in
    let run := getAIAnalysis JSON_stringify JSON_parse entry metrics call analysisCache in
    (forall other, other <> key -> snd run !! other = analysisCache !! other) /\
    (forall error, fst run = Rejected error -> snd run = analysisCache) /\
    (forall a, fst run = Resolved a ->
       exists e, snd run !! key = Some e /\ analysis e = a).
Proof.
  intros entry metrics call analysisCache key run. subst run.
  unfold getAIAnalysis. cbv zeta. fold key.
  destruct (cache_hit key (now call) analysisCache) as [cached |] eqn:Hhit.
  { cbn [fst snd]. split; [reflexivity |]. split; [reflexivity |].
    intros a [= <-]. destruct (cache_hit_fresh _ _ _ _ Hhit) as (e & He & Ha & _).
    exists e. auto. }
  destruct (api_key call); cbn [negb fst snd];
    [| split; [reflexivity | split; [reflexivity | discriminate]]].
  destruct (response call) as [content | err]; cbn [fst snd];
    [| split; [reflexivity | split; [reflexivity | discriminate]]].
  destruct (JSON_parse content) as [parsed |]; cbn [fst snd];
    [| split; [reflexivity | split; [reflexivity | discriminate]]].
  split; [| split; [discriminate |]].
  - intros other Hne. unfold cache_set. now rewrite lookup_insert_ne.
  - intros a [= <-]. unfold cache_set. rewrite lookup_insert_eq.
    eexists. split; reflexivity.
Qed.

(** X8: a call of [getAIAnalysis] touches the cache under its own key only;
    a call that rejects leaves the cache as it was; after a call that
    resolves, the cache holds the resolved analysis under the call's key. *)
Theorem getAIAnalysis_cache_frame :
  forall entry metrics call (analysisCache : gmap string CacheEntry),
    let key := cacheKey JSON_stringify entry metrics in
    let run := getAIAnalysis JSON_stringify JSON_parse entry metrics call analysisCache in
    (forall other, other <> key -> snd run !! other = analysisCache !! other) /\
    (forall error, fst run = Rejected error -> snd run = analysisCache) /\
    (forall a, fst run = Resolved a ->
       exists e, snd run !! key = Some e /\ analysis e = a).
Proof. exact getAIAnalysis_frame. Qed.

Lemma sweep_lookup_eq now (analysisCache : gmap string CacheEntry) key :
  sweep now analysisCache !! key =
    match analysisCache !! key with
    | Some e => if CACHE_TTL <? now - stored e then None else Some e
    | None => None
    end.
Proof.
  unfold sweep.
  destruct (analysisCache !! key) as [e |] eqn:He.
  - destruct (Z.ltb_spec CACHE_TTL (now - stored e)) as [Hold | Hyoung].
    + apply map_lookup_filter_None. right. intros x Hx. cbn [snd].
      rewrite He in Hx. injection Hx as <-. intros Hn. apply Hn. exact Hold.
    + apply map_lookup_filter_Some. split; [exact He |]. cbn [snd]. lia.
  - apply map_lookup_filter_None. now left.
Qed.

Lemma cache_hit_sweep key now later (analysisCache : gmap string CacheEntry) :
  now <= later ->
  cache_hit key later (sweep now analysisCache) = cache_hit key later analysisCache.
Proof.
  intros Hle. unfold cache_hit. rewrite sweep_lookup_eq.
  destruct (analysisCache !! key) as [e |]; [| reflexivity].
  destruct (Z.ltb_spec CACHE_TTL (now - stored e)) as [Hold | Hyoung]; [| reflexivity].
  destruct (Z.ltb_spec (later - stored e) CACHE_TTL); [lia | reflexivity].
Qed.

(** X9: the periodic sweep never costs a hit: a lookup made at or after the
    time of a sweep finds what it would have found without the sweep, and
    [getAIAnalysis] settles in the same way. *)
Theorem sweep_preserves_hits :
  forall key now later (analysisCache : gmap string CacheEntry),
    now <= later ->
    cache_hit key later (sweep now analysisCache) = cache_hit key later analysisCache /\
    (forall entry metrics call,
       Enrichment.now call = later ->
       fst (getAIAnalysis JSON_stringify JSON_parse entry metrics call
              (sweep now analysisCache)) =
       fst (getAIAnalysis JSON_stringify JSON_parse entry metrics call analysisCache)).
Proof.
  intros key now later analysisCache Hle.
  split; [now apply cache_hit_sweep |].
  intros entry metrics call Hnow. unfold getAIAnalysis. cbv zeta.
  rewrite Hnow, (cache_hit_sweep _ now later analysisCache Hle).
  destruct (cache_hit _ later analysisCache); [reflexivity |].
  destruct (api_key call); cbn [negb]; [| reflexivity].
  destruct (response call) as [content | err]; [| reflexivity].
  destruct (JSON_parse content); reflexivity.
Qed.

(** X10: the first copy of [getAIAnalysis] only resolves with a parsed
    response that has an [insights] array and a [suggestions] array, and
    only when the API key is set. *)
Theorem FirstVersion_getAIAnalysis_sound :
  forall call parsed,
    FirstVersion.getAIAnalysis JSON_parse call = Resolved parsed ->
    api_key call = true /\
    (exists content, response call = Resolved content /\ JSON_parse content = Some parsed) /\
    has_both_arrays parsed = true.
Proof.
  intros call parsed. unfold FirstVersion.getAIAnalysis.
  destruct (api_key call); cbn [negb]; [| discriminate].
  destruct (response call) as [content | err]; [| discriminate].
  destruct (JSON_parse content) as [v |] eqn:Hparse; [| discriminate].
  unfold has_both_arrays.
  destruct (prop v "insights") as [insights |] eqn:Hi; [| discriminate].
  destruct (prop v "suggestions") as [suggestions |] eqn:Hs; [| discriminate].
  destruct (truthy insights), (truthy suggestions),
    (Array_isArray insights) eqn:Hai, (Array_isArray suggestions) eqn:Has;
    cbn [negb orb]; try discriminate.
  intros [= <-]. rewrite Hi, Hs, Hai, Has.
  split; [reflexivity |]. split; [| reflexivity].
  exists content. auto.
Qed.

End EnrichmentFrame.

Lemma getAIAnalysis_cache_frame_witness :
  let JSON_stringify (m : AnalyzeJournal.Metrics) := "{}"%string in
  let JSON_parse (s : string) : option Runtime.value := None in
  let call := {| Enrichment.now := 0; Enrichment.api_key := false;
                 Enrichment.response := Runtime.Rejected "unused"%string;
                 Enrichment.now_after := 0 |} in
  let metrics := AnalyzeJournal.analyzeLocally "slept 7 hours" 0 in
  snd (Enrichment.getAIAnalysis JSON_stringify JSON_parse "slept 7 hours" metrics call ∅)
  = ∅.
Proof.
  intros JSON_stringify JSON_parse call metrics.
  exact (proj1 (proj2 (getAIAnalysis_cache_frame JSON_stringify JSON_parse
                         "slept 7 hours"%string metrics call ∅))
           "OpenAI API key not configured"%string eq_refl).
Defined.

Lemma sweep_preserves_hits_witness :
  Enrichment.cache_hit "k" 1900000
    (Enrichment.sweep 1800000
       (Enrichment.cache_set "k" (Runtime.VStr "analysis") 200000 ∅)) =
  Some (Runtime.VStr "analysis").
Proof.
  rewrite (proj1 (sweep_preserves_hits (fun _ => ""%string) (fun _ => None)
                    "k"%string 1800000 1900000 _ ltac:(lia))).
  reflexivity.
Defined.

Lemma FirstVersion_getAIAnalysis_sound_witness :
  let JSON_parse := fun s : string =>
    if String.eqb s "x"
    then Some (Runtime.VObj [("insights"%string, Runtime.VArr []);
                             ("suggestions"%string, Runtime.VArr [])])
    else None in
  let call := {| Enrichment.now := 0; Enrichment.api_key := true;
                 Enrichment.response := Runtime.Resolved "x"%string;
                 Enrichment.now_after := 900 |} in
  Enrichment.has_both_arrays
    (Runtime.VObj [("insights"%string, Runtime.VArr []);
                   ("suggestions"%string, Runtime.VArr [])]) = true.
Proof.
  cbv zeta.
  apply (FirstVersion_getAIAnalysis_sound
    (fun s : string =>
       if String.eqb s "x"
       then Some (Runtime.VObj [("insights"%string, Runtime.VArr []);
                                ("suggestions"%string, Runtime.VArr [])])
       else None)
    {| Enrichment.now := 0; Enrichment.api_key := true;
       Enrichment.response := Runtime.Resolved "x"%string;
       Enrichment.now_after := 900 |}).
  reflexivity.
Defined.

(** ** What the local extractor can return *)

Section ExtractorRange.
Import JS Regex AnalyzeJournal.
Local Open Scope string_scope.

Lemma first_matching_key table text key :
  first_matching table text = Some key -> In key (map fst table).
Proof.
  induction table as [| [k pattern] table IH]; cbn [first_matching map fst]; [discriminate |].
  destruct (test pattern text).
  - intros [= <-]. now left.
  - intros H. right. now apply IH.
Qed.

Lemma filter_map_sublist {A B} (f : A -> B) (p : A -> bool) (l : list A) :
  sublist (map f (List.filter p l)) (map f l).
Proof.
  induction l as [| x l IH]; cbn [List.filter map]; [constructor |].
  destruct (p x); cbn [map]; [now apply sublist_skip | now apply sublist_cons].
Qed.

Lemma analyzeLocally_mood (entry : string) (now : Z) :
  In (mood (analyzeLocally entry now)) ["positive"; "negative"; "neutral"].
Proof.
  unfold analyzeLocally. cbn [mood].
  destruct (first_matching patterns_mood (toLowerCase entry)) as [k |] eqn:E.
  - apply first_matching_key in E. cbn in E. cbn. intuition auto.
  - cbn. auto.
Qed.

(** X11: whatever the text, the mood of the metrics is one of positive,
    negative and neutral, the energy is [null] or one of high, low and
    medium, and the symptoms are some of headache, nausea, pain, anxiety and
    fatigue, in this order and without repetition. *)
Theorem analyzeLocally_range :
  forall (entry : string) (now : Z),
    let metrics := analyzeLocally entry now in
    In (mood metrics) ["positive"; "negative"; "neutral"] /\
    In (energy metrics) [None; Some "high"; Some "low"; Some "medium"] /\
    sublist (symptoms metrics) ["headache"; "nausea"; "pain"; "anxiety"; "fatigue"] /\
    NoDup (symptoms metrics) /\
    timestamp metrics = now.
Proof.
  intros entry now metrics. subst metrics.
  split; [apply analyzeLocally_mood |].
  unfold analyzeLocally. cbn [mood energy symptoms timestamp].
  split; [| split; [| split; [| reflexivity]]].
  - destruct (first_matching patterns_energy (toLowerCase entry)) as [k |] eqn:E.
    + apply first_matching_key in E. cbn in E. cbn.
      destruct E as [<- | [<- | [<- | []]]]; auto.
    + cbn. auto.
  - apply (filter_map_sublist fst _ patterns_symptoms).
  - eapply sublist_NoDup; [| apply (filter_map_sublist fst _ patterns_symptoms)].
    apply (bool_decide_unpack _). vm_compute. exact I.
Qed.

End ExtractorRange.

(** ** The orchestration and the local fallback *)

Section OrchestrationProperties.
Import JS Runtime Regex AnalyzeJournal Enrichment Orchestration.
Local Open Scope string_scope.

Variable Number_toString : number -> string.
Variable JSON_stringify : Metrics -> string.
Variable JSON_parse : string -> option value.

Lemma generateLocalInsights_nonempty metrics :
  generateLocalInsights Number_toString metrics <> [].
Proof.
  unfold generateLocalInsights. cbv zeta.
  destruct (gtb (to_number (sleep metrics)) 0), (gtb (to_number (exercise metrics)) 0);
    discriminate.
Qed.

Lemma generateLocalSuggestions_length metrics :
  (1 <= length (generateLocalSuggestions metrics) <= 3)%nat.
Proof.
  unfold generateLocalSuggestions. cbv zeta.
  destruct (to_number (sleep metrics) <? 7)%float,
    (to_number (exercise metrics) <? 30)%float,
    (0 <? length (symptoms metrics))%nat;
    cbn [app length Nat.ltb Nat.leb];
    try lia;
    destruct (match energy metrics with Some e => String.eqb e "low" | None => false end),
      (String.eqb (mood metrics) "bad"); cbn [app length]; lia.
Qed.

(** X12: the local suggestions are never empty and never more than three;
    an entry without a sleep duration gets the bedtime suggestion and an
    entry without an exercise duration the exercise suggestion, [null]
    counting as 0 in the comparisons. *)
Theorem generateLocalSuggestions_bounds :
  forall metrics : Metrics,
    (1 <= length (generateLocalSuggestions metrics) <= 3)%nat /\
    (sleep metrics = None ->
     In "Establish a consistent bedtime routine and aim for 7-9 hours of sleep"
        (generateLocalSuggestions metrics)) /\
    (exercise metrics = None ->
     In "Start with short exercise sessions and gradually work up to 30 minutes daily"
        (generateLocalSuggestions metrics)).
Proof.
  intros metrics. split; [apply generateLocalSuggestions_length |].
  split; intros Hnone; unfold generateLocalSuggestions; cbv zeta; rewrite Hnone.
  - change (to_number None <? 7)%float with true.
    destruct (_ <? 30)%float, (0 <? length (symptoms metrics))%nat;
      cbn [app length Nat.ltb Nat.leb];
      repeat match goal with |- context [if ?c then _ else _] => destruct c end;
      cbn [app In]; auto.
  - change (to_number None <? 30)%float with true.
    destruct (_ <? 7)%float, (0 <? length (symptoms metrics))%nat;
      cbn [app length Nat.ltb Nat.leb];
      repeat match goal with |- context [if ?c then _ else _] => destruct c end;
      cbn [app In]; auto.
Qed.

Lemma generateLocalSuggestions_bounds_witness :
  In "Establish a consistent bedtime routine and aim for 7-9 hours of sleep"
     (generateLocalSuggestions (analyzeLocally "Long day at work" 0)).
Proof.
  apply (proj1 (proj2 (generateLocalSuggestions_bounds
                         (analyzeLocally "Long day at work" 0)))).
  vm_compute. reflexivity.
Defined.

(** X13: the suggestion for a bad mood is never given for the metrics of
    [analyzeLocally]: the function tests for the mood 'bad', which the
    extractor of the same copy never returns. *)
Theorem mood_suggestion_unreachable :
  forall (entry : string) (now : Z),
    existsb
      (String.eqb "Consider activities that boost your mood like exercise or socializing")
      (generateLocalSuggestions (analyzeLocally entry now)) = false.
Proof.
  intros entry now.
  assert (Hmood : String.eqb (mood (analyzeLocally entry now)) "bad" = false).
  { destruct (analyzeLocally_mood entry now) as [<- | [<- | [<- | []]]]; reflexivity. }
  unfold generateLocalSuggestions. cbv zeta. rewrite Hmood.
  destruct (_ <? 7)%float, (_ <? 30)%float,
    (0 <? length (symptoms (analyzeLocally entry now)))%nat;
    cbn [app length Nat.ltb Nat.leb];
    repeat match goal with |- context [if ?c then _ else _] => destruct c end;
    reflexivity.
Qed.

(** X14: [analyzeJournalEntry] leaves the cache as the enrichment left it.
    When the enrichment resolves, the result is built from the local
    metrics and the enrichment, and its [cached] flag is true, also when
    the analysis has just been fetched.  When the enrichment rejects, whatever the reason,
    the result carries the local insights and suggestions, neither of them
    empty, and the cache is as before.  So [retryAnalysis] around it makes
    one call and never waits. *)
Theorem analyzeJournalEntry_fallback :
  forall (entry : string) (extractedAt : Z) (call : Call)
         (analysisCache : gmap string CacheEntry),
    let metrics := analyzeLocally entry extractedAt in
    let enrichment :=
      getAIAnalysis JSON_stringify JSON_parse entry metrics call analysisCache in
    let run :=
      analyzeJournalEntry Number_toString JSON_stringify JSON_parse
        entry extractedAt call analysisCache in
    snd run = snd enrichment /\
    match fst enrichment with
    | Resolved enhancedAnalysis => fst run = Enhanced metrics enhancedAnalysis true
    | Rejected _ =>
        fst run = LocalOnly metrics (generateLocalInsights Number_toString metrics)
                    (generateLocalSuggestions metrics) /\
        snd run = analysisCache /\
        generateLocalInsights Number_toString metrics <> [] /\
        generateLocalSuggestions metrics <> []
    end /\
    (forall (world : nat -> Z * Call * gmap string CacheEntry) (maxRetries : nat),
       let attempt content i :=
         let '(t, c, cache) := world i in
         fst (analyzeJournalEntry Number_toString JSON_stringify JSON_parse
                content t c cache) in
       Route.retryAnalysis (fun content i => Resolved (attempt content i))
         entry (S maxRetries) =
         ([Route.Call 0], Resolved (attempt entry 0%nat))).
Proof.
  intros entry extractedAt call analysisCache metrics enrichment run.
  subst run. unfold analyzeJournalEntry. cbv zeta. fold metrics. fold enrichment.
  pose proof (getAIAnalysis_frame JSON_stringify JSON_parse entry metrics call
                analysisCache) as Hframe.
  cbv zeta in Hframe. fold enrichment in Hframe.
  destruct Hframe as (_ & Hrej & Hres).
  destruct enrichment as [[a | err] cache'] eqn:E; cbn [fst snd] in *.
  - destruct (Hres a eq_refl) as (e & He & _).
    rewrite He. rewrite bool_decide_eq_true_2 by eauto.
    repeat split.
  - rewrite (Hrej err eq_refl).
    repeat split.
    + apply generateLocalInsights_nonempty.
    + pose proof (generateLocalSuggestions_length metrics) as Hlen.
      intros Hnil. rewrite Hnil in Hlen. cbn in Hlen. lia.
Qed.

End OrchestrationProperties.

(** ** Batch aggregation: rankings *)

Section RankingProperties.
Import Runtime Batch Ranking.
Local Open Scope nat_scope.

Lemma bump_keys val (counts : list (string * nat)) :
  map fst (bump val counts) =
    if in_dec string_dec val (map fst counts) then map fst counts
    else (map fst counts ++ [val])%list.
Proof.
  induction counts as [| [k n] counts IH]; [reflexivity |].
  cbn [bump map fst]. destruct (String.eqb_spec k val) as [-> | Hne].
  - cbn [map fst].
    destruct (in_dec string_dec val (val :: map fst counts)) as [_ | Hnot]; [reflexivity |].
    exfalso. apply Hnot. now left.
  - cbn [map fst]. rewrite IH.
    destruct (in_dec string_dec val (map fst counts)) as [Hin | Hnot];
      destruct (in_dec string_dec val (k :: map fst counts)) as [Hin' | Hnot'];
      try reflexivity.
    + exfalso. apply Hnot'. now right.
    + exfalso. destruct Hin' as [E | Hin']; [congruence | contradiction].
Qed.

Lemma bump_In val (counts : list (string * nat)) k n :
  NoDup (map fst counts) ->
  In (k, n) (bump val counts) ->
  (k <> val /\ In (k, n) counts) \/
  (k = val /\ ((exists m, In (val, m) counts /\ n = S m) \/
               (n = 1 /\ ~ In val (map fst counts)))).
Proof.
  induction counts as [| [k0 n0] counts IH]; intros Hnd Hin.
  - cbn in Hin. destruct Hin as [[= <- <-] | []]. right. split; [reflexivity |].
    right. split; [reflexivity | intros []].
  - cbn [bump] in Hin. cbn [map fst] in Hnd. apply NoDup_cons in Hnd as [Hnotin Hnd].
    destruct (String.eqb_spec k0 val) as [-> | Hne].
    + destruct Hin as [[= <- <-] | Hin].
      * right. split; [reflexivity |]. left. exists n0. split; [now left | reflexivity].
      * left. split; [| now right].
        intros ->. apply Hnotin. apply list_elem_of_In.
        change val with (fst (val, n)). now apply in_map.
    + destruct Hin as [[= <- <-] | Hin].
      * left. split; [exact Hne | now left].
      * destruct (IH Hnd Hin) as [[Hk Hin'] | [-> [(m & Hm & ->) | [-> Hnot]]]].
        -- left. split; [exact Hk | now right].
        -- right. split; [reflexivity |]. left. exists m. split; [now right | reflexivity].
        -- right. split; [reflexivity |]. right. split; [reflexivity |].
           cbn [map fst]. intros [E | Hin']; [congruence | contradiction].
Qed.

Lemma count_occ_snoc (l : list string) (v k : string) :
  occurrences k (l ++ [v]) = occurrences k l + (if string_dec v k then 1 else 0).
Proof. rewrite count_occ_app. cbn [count_occ]. destruct (string_dec v k); lia. Qed.

Lemma counts_of_bump seen counts val :
  counts_of seen counts -> counts_of (seen ++ [val])%list (bump val counts).
Proof.
  intros (Hnd & Hcount & Hkeys). split; [| split].
  - rewrite bump_keys.
    destruct (in_dec string_dec val (map fst counts)) as [_ | Hnot]; [exact Hnd |].
    apply NoDup_app. split; [exact Hnd |]. split.
    + intros x Hx Hx'. apply list_elem_of_In in Hx, Hx'.
      destruct Hx' as [<- | []]. contradiction.
    + apply NoDup_singleton.
  - intros k n Hin. rewrite count_occ_snoc.
    destruct (bump_In val counts k n Hnd Hin)
      as [[Hk Hin'] | [-> [(m & Hm & ->) | [-> Hnot]]]].
    + destruct (Hcount k n Hin') as [-> Hpos].
      destruct (string_dec val k); [congruence | lia].
    + destruct (Hcount val m Hm) as [-> Hpos].
      destruct (string_dec val val); [lia | congruence].
    + destruct (string_dec val val); [| congruence].
      assert (occurrences val seen = 0).
      { apply count_occ_not_In. intros Hin'. apply Hnot. now apply Hkeys. }
      lia.
  - intros k Hin. rewrite bump_keys. apply in_app_or in Hin.
    destruct (in_dec string_dec val (map fst counts)) as [Hval | _].
    + destruct Hin as [Hin | [<- | []]]; [now apply Hkeys | assumption].
    + apply in_or_app. destruct Hin as [Hin | Hin]; [left; now apply Hkeys | now right].
Qed.

Lemma counts_of_fold (arr seen : list string) counts :
  counts_of seen counts ->
  counts_of (seen ++ arr)%list (fold_left (fun acc val => bump val acc) arr counts).
Proof.
  revert seen counts. induction arr as [| v arr IH]; intros seen counts H.
  - now rewrite app_nil_r.
  - cbn [fold_left]. replace (seen ++ v :: arr)%list with ((seen ++ [v]) ++ arr)%list
      by now rewrite <- app_assoc.
    apply IH. now apply counts_of_bump.
Qed.

Lemma insert_by_count_perm x sorted : Permutation (insert_by_count x sorted) (x :: sorted).
Proof.
  induction sorted as [| y sorted IH]; [reflexivity |].
  cbn [insert_by_count]. destruct (snd y <? snd x); [reflexivity |].
  rewrite IH. apply perm_swap.
Qed.

Lemma insert_by_count_sorted x sorted :
  StronglySorted by_count_desc sorted ->
  StronglySorted by_count_desc (insert_by_count x sorted).
Proof.
  induction 1 as [| y sorted Hs IH Hall]; [repeat constructor |].
  cbn [insert_by_count]. destruct (Nat.ltb_spec (snd y) (snd x)) as [Hlt | Hge].
  - constructor; [now constructor |].
    constructor; [unfold by_count_desc; lia |].
    eapply List.Forall_impl; [| exact Hall].
    intros z Hz. unfold by_count_desc in *. lia.
  - constructor; [exact IH |].
    rewrite insert_by_count_perm. constructor; [exact Hge | exact Hall].
Qed.

Lemma sort_by_count (counts acc : list (string * nat)) :
  StronglySorted by_count_desc acc ->
  let sorted := fold_left (fun sorted x => insert_by_count x sorted) counts acc in
  StronglySorted by_count_desc sorted /\ Permutation sorted (counts ++ acc).
Proof.
  revert acc. induction counts as [| x counts IH]; intros acc Hacc; cbn [fold_left app].
  - split; [exact Hacc | reflexivity].
  - destruct (IH (insert_by_count x acc) (insert_by_count_sorted x acc Hacc)) as [Hs Hp].
    split; [exact Hs |]. cbv zeta in Hp. rewrite Hp, insert_by_count_perm.
    now rewrite Permutation_middle.
Qed.

Lemma findMostCommon_sorted (arr : list string) :
  exists sorted : list (string * nat),
    findMostCommon arr = map fst sorted /\
    StronglySorted by_count_desc sorted /\
    NoDup (map fst sorted) /\
    (forall k n, In (k, n) sorted -> n = occurrences k arr /\ 1 <= n) /\
    (forall k, In k arr -> In k (map fst sorted)).
Proof.
  unfold findMostCommon. cbv zeta.
  set (counts := fold_left (fun acc val => bump val acc) arr []).
  assert (Hc : counts_of arr counts).
  { apply (counts_of_fold arr [] []). split; [constructor |].
    split; [intros k n [] | intros k []]. }
  destruct (sort_by_count counts [] ltac:(constructor)) as [Hs Hp].
  cbv zeta in Hs, Hp. rewrite app_nil_r in Hp.
  eexists. split; [reflexivity |]. split; [exact Hs |].
  destruct Hc as (Hnd & Hcount & Hkeys).
  split; [| split].
  - rewrite (Permutation_map fst Hp). exact Hnd.
  - intros k n Hin. apply Hcount.
    eapply Permutation_in; [exact Hp | exact Hin].
  - intros k Hin. eapply Permutation_in; [| apply Hkeys, Hin].
    apply Permutation_map. now symmetry. 
Qed.

Lemma findMostCommon_In (arr : list string) (x : string) :
  In x (findMostCommon arr) <-> In x arr.
Proof.
  destruct (findMostCommon_sorted arr) as (sorted & -> & _ & _ & Hcount & Hkeys).
  split; [| apply Hkeys].
  intros Hin. apply in_map_iff in Hin as ([k n] & <- & Hin).
  destruct (Hcount k n Hin) as [-> Hpos]. cbn [fst].
  apply (count_occ_In string_dec). lia.
Qed.

(** X15: for an array of values that are neither names of members of
    [Object.prototype] nor written like array indices, [findMostCommon]
    lists every value of the array exactly once, and in order of descending
    number of occurrences: no value occurs more often in the array than one
    listed before it; in particular the first value listed is a most
    frequent one. *)
Theorem findMostCommon_ranking :
  forall arr : list string,
    forallb plain_key arr = true ->
    NoDup (findMostCommon arr) /\
    (forall x, In x (findMostCommon arr) <-> In x arr) /\
    StronglySorted (fun x y => occurrences y arr <= occurrences x arr)
      (findMostCommon arr) /\
    (forall top rest x,
       findMostCommon arr = top :: rest ->
       occurrences x arr <= occurrences top arr).
Proof.
  intros arr _.
  assert (Hsorted : StronglySorted (fun x y => occurrences y arr <= occurrences x arr)
                      (findMostCommon arr)).
  { destruct (findMostCommon_sorted arr) as (sorted & -> & Hs & _ & Hcount & _).
    induction Hs as [| [k n] sorted Hs IH Hall]; [constructor |].
    cbn [map fst]. constructor.
    - apply IH. intros k' n' Hin. apply Hcount. now right.
    - apply Forall_forall. intros y Hy.
      apply list_elem_of_In, in_map_iff in Hy as ([k' n'] & <- & Hin). cbn [fst].
      destruct (Hcount k n ltac:(now left)) as [<- _].
      destruct (Hcount k' n' ltac:(now right)) as [<- _].
      rewrite Forall_forall in Hall.
      apply (Hall (k', n')). now apply list_elem_of_In. }
  split; [| split; [apply findMostCommon_In | split; [exact Hsorted |]]].
  - destruct (findMostCommon_sorted arr) as (sorted & -> & _ & Hnd & _). exact Hnd.
  - intros top rest x Htop.
    destruct (in_dec string_dec x arr) as [Hin | Hnot].
    + apply findMostCommon_In in Hin. rewrite Htop in Hin, Hsorted.
      destruct Hin as [<- | Hin]; [lia |].
      apply StronglySorted_inv in Hsorted as [_ Hall].
      rewrite Forall_forall in Hall. apply Hall. now apply list_elem_of_In.
    + rewrite (proj1 (count_occ_not_In string_dec arr x) Hnot). lia.
Qed.

Lemma findMostCommon_ranking_witness :
  findMostCommon ["b"; "a"; "a"]%string = ["a"; "b"]%string /\
  (occurrences "b"%string ["b"; "a"; "a"]%string
   <= occurrences "a"%string ["b"; "a"; "a"]%string).
Proof.
  assert (E : findMostCommon ["b"; "a"; "a"]%string = ["a"; "b"]%string) by reflexivity.
  split; [exact E |].
  exact (proj2 (proj2 (proj2 (findMostCommon_ranking ["b"; "a"; "a"]%string eq_refl)))
           "a"%string ["b"%string] "b"%string E).
Defined.

End RankingProperties.

(** ** Redaction of error messages *)

Section ReplaceKeys.
Import Batch Redaction.
Local Open Scope nat_scope.

(** The pattern [/p[a-zA-Z0-9-_]+/g] and its replacement [R]. *)
Variables (p R : list ascii) (p0 r0 : ascii) (p' R' : list ascii).
Hypothesis Hp : p = p0 :: p'.
Hypothesis HR : R = r0 :: R'.
Hypothesis Hp0 : is_key_char p0 = true.

Lemma strip_prefix_Some (q s t : list ascii) :
  strip_prefix q s = Some t <-> s = (q ++ t)%list.
Proof.
  revert s. induction q as [| c q IH]; intros s; cbn [strip_prefix app].
  - split; [now intros [= ->] | now intros ->].
  - destruct s as [| a s]; [split; discriminate |].
    destruct (Ascii.eqb_spec c a) as [-> | Hne].
    + rewrite IH. split; [now intros -> | now intros [= ->]].
    + split; [discriminate | intros [= -> _]; congruence].
Qed.

Lemma strip_prefix_length (q s t : list ascii) :
  strip_prefix q s = Some t -> length s = length q + length t.
Proof. intros H. apply strip_prefix_Some in H as ->. apply length_app. Qed.

Lemma drop_key_chars_length (s : list ascii) : length (drop_key_chars s) <= length s.
Proof.
  induction s as [| a s IH]; cbn [drop_key_chars length]; [lia |].
  destruct (is_key_char a); cbn [length]; lia.
Qed.

Lemma replace_keys_nil f : replace_keys f p R [] = [].
Proof. now destruct f. Qed.

Lemma replace_keys_match f a s b tl :
  strip_prefix p (a :: s) = Some (b :: tl) -> is_key_char b = true ->
  replace_keys (S f) p R (a :: s) = (R ++ replace_keys f p R (drop_key_chars tl))%list.
Proof. intros Hs Hb. cbn [replace_keys]. now rewrite Hs, Hb. Qed.

Lemma replace_keys_nomatch f a s :
  key_at p (a :: s) = false ->
  replace_keys (S f) p R (a :: s) = a :: replace_keys f p R s.
Proof.
  unfold key_at. intros H. cbn [replace_keys].
  destruct (strip_prefix p (a :: s)) as [[| b tl] |]; try reflexivity.
  now rewrite H.
Qed.

(** The two ways a step of the replacement goes. *)
Lemma replace_keys_step f a s :
  (exists b tl, strip_prefix p (a :: s) = Some (b :: tl) /\ is_key_char b = true /\
                key_at p (a :: s) = true /\
                replace_keys (S f) p R (a :: s)
                = (R ++ replace_keys f p R (drop_key_chars tl))%list) \/
  (key_at p (a :: s) = false /\
   replace_keys (S f) p R (a :: s) = a :: replace_keys f p R s).
Proof.
  destruct (key_at p (a :: s)) eqn:Hk.
  - left. unfold key_at in Hk.
    destruct (strip_prefix p (a :: s)) as [[| b tl] |] eqn:Hs; try discriminate.
    exists b, tl. split; [reflexivity |]. split; [exact Hk |]. split; [reflexivity |].
    exact (replace_keys_match f a s b tl Hs Hk).
  - right. split; [reflexivity | now apply replace_keys_nomatch].
Qed.

(** Text of the result that holds no [r0] was copied from the input. *)
Lemma replace_keys_copied (cs : list ascii) :
  forall f s rest,
    length s <= f ->
    replace_keys f p R s = (cs ++ rest)%list ->
    Forall (fun c => c <> r0) cs ->
    exists s2, s = (cs ++ s2)%list /\ length s2 <= f - length cs /\
               rest = replace_keys (f - length cs) p R s2.
Proof.
  induction cs as [| c cs IH]; intros f s rest Hlen Hout Hcs.
  - exists s. cbn [app length] in *. rewrite Nat.sub_0_r. now repeat split.
  - apply Forall_cons in Hcs as [Hc Hcs].
    destruct s as [| a s]; [rewrite replace_keys_nil in Hout; discriminate |].
    destruct f as [| f]; [cbn in Hlen; lia |].
    destruct (replace_keys_step f a s) as [(b & tl & _ & _ & _ & E) | [_ E]];
      rewrite E in Hout.
    + rewrite HR in Hout. injection Hout as <- _. congruence.
    + injection Hout as -> Hout. cbn [length] in Hlen.
      destruct (IH f s rest ltac:(lia) Hout Hcs) as (s2 & -> & Hlen2 & ->).
      exists s2. cbn [length app]. now repeat split.
Qed.

(** A key character at the head of the result stands for one at the head of
    the input. *)
Lemma replace_keys_head_key f s b rest :
  length s <= f ->
  replace_keys f p R s = b :: rest -> is_key_char b = true ->
  exists b' s', s = b' :: s' /\ is_key_char b' = true.
Proof.
  intros Hlen Hout Hb.
  destruct s as [| a s]; [rewrite replace_keys_nil in Hout; discriminate |].
  destruct f as [| f]; [cbn in Hlen; lia |].
  destruct (replace_keys_step f a s) as [(b' & tl & Hs & _ & _ & _) | [_ E]].
  - apply strip_prefix_Some in Hs. rewrite Hp in Hs. injection Hs as -> _.
    now exists p0, s.
  - rewrite E in Hout. injection Hout as -> _. now exists b, s.
Qed.

(** A match of [/q.../] in the result whose first character was copied was
    a match in the input. *)
Lemma key_at_copied (q : list ascii) (q0 : ascii) (q' : list ascii) f a s :
  q = q0 :: q' -> Forall (fun c => c <> r0) q' ->
  length s <= f ->
  key_at q (a :: replace_keys f p R s) = true -> key_at q (a :: s) = true.
Proof.
  intros -> Hq Hlen Hk. unfold key_at in Hk.
  destruct (strip_prefix (q0 :: q') (a :: replace_keys f p R s)) as [[| b rest] |] eqn:Hs;
    try discriminate.
  apply strip_prefix_Some in Hs. cbn [app] in Hs. injection Hs as -> Hs.
  destruct (replace_keys_copied q' f s (b :: rest) Hlen Hs Hq) as (s2 & -> & Hlen2 & E).
  symmetry in E.
  destruct (replace_keys_head_key _ s2 b rest Hlen2 E Hk) as (b' & s' & -> & Hb').
  unfold key_at.
  replace (strip_prefix (q0 :: q') (q0 :: q' ++ b' :: s')) with (Some (b' :: s')).
  - exact Hb'.
  - symmetry. now apply strip_prefix_Some.
Qed.

Lemma has_key_replacement (q : list ascii) (q0 : ascii) (q' : list ascii) (l rest : list ascii) :
  q = q0 :: q' -> Forall (fun c => c <> q0) l ->
  has_key q (l ++ rest) = has_key q rest.
Proof.
  intros -> Hl. induction l as [| c l IH]; [reflexivity |].
  apply Forall_cons in Hl as [Hc Hl]. cbn [app has_key]. rewrite (IH Hl).
  unfold key_at. cbn [strip_prefix].
  destruct (Ascii.eqb_spec q0 c) as [-> | _]; [congruence | reflexivity].
Qed.

Lemma has_key_tail q a s : has_key q (a :: s) = false -> has_key q s = false.
Proof. cbn [has_key]. now intros [_ H]%orb_false_elim. Qed.

Lemma has_key_suffix q (l s : list ascii) :
  has_key q (l ++ s) = false -> has_key q s = false.
Proof.
  induction l as [| a l IH]; [trivial |]. cbn [app]. intros H.
  apply IH. eapply has_key_tail, H.
Qed.

Lemma has_key_drop_key_chars q s :
  has_key q s = false -> has_key q (drop_key_chars s) = false.
Proof.
  induction s as [| a s IH]; [trivial |]. cbn [drop_key_chars]. intros H.
  destruct (is_key_char a); [| exact H]. apply IH. eapply has_key_tail, H.
Qed.

(** The replacement introduces no match of [/q.../]. *)
Lemma replace_keys_preserves (q : list ascii) (q0 : ascii) (q' : list ascii) :
  q = q0 :: q' -> Forall (fun c => c <> r0) q' -> Forall (fun c => c <> q0) R ->
  forall f s, length s <= f -> has_key q s = false ->
              has_key q (replace_keys f p R s) = false.
Proof.
  intros Hq Hq' HqR. induction f as [| f IH]; intros s Hlen Hs.
  - destruct s; [reflexivity | cbn in Hlen; lia].
  - destruct s as [| a s]; [reflexivity |].
    destruct (replace_keys_step f a s) as [(b & tl & Hst & _ & _ & E) | [_ E]];
      rewrite E.
    + rewrite (has_key_replacement q q0 q' R _ Hq HqR).
      pose proof (strip_prefix_length _ _ _ Hst) as Hl.
      pose proof (drop_key_chars_length tl) as Hd.
      rewrite Hp in Hl. cbn [length] in Hl, Hlen.
      apply IH; [lia |]. apply has_key_drop_key_chars.
      apply strip_prefix_Some in Hst. rewrite Hst in Hs.
      apply (has_key_suffix q (p ++ [b])). now rewrite <- app_assoc.
    + cbn [length] in Hlen. cbn [has_key]. apply orb_false_intro.
      * destruct (key_at q (a :: replace_keys f p R s)) eqn:Hk; [| reflexivity].
        apply (key_at_copied q q0 q' f a s Hq Hq' ltac:(lia)) in Hk.
        cbn [has_key] in Hs. apply orb_false_elim in Hs as [Hs _]. congruence.
      * apply IH; [lia |]. eapply has_key_tail, Hs.
Qed.

(** No match of the pattern is left in the result. *)
Lemma replace_keys_clean :
  Forall (fun c => c <> r0) p' -> Forall (fun c => c <> p0) R ->
  forall f s, length s <= f -> has_key p (replace_keys f p R s) = false.
Proof.
  intros Hp' HpR. induction f as [| f IH]; intros s Hlen.
  - destruct s; [reflexivity | cbn in Hlen; lia].
  - destruct s as [| a s]; [reflexivity |].
    destruct (replace_keys_step f a s) as [(b & tl & Hst & _ & _ & E) | [Hno E]];
      rewrite E.
    + rewrite (has_key_replacement p p0 p' R _ Hp HpR).
      pose proof (strip_prefix_length _ _ _ Hst) as Hl.
      pose proof (drop_key_chars_length tl) as Hd.
      rewrite Hp in Hl. cbn [length] in Hl, Hlen.
      apply IH. lia.
    + cbn [length] in Hlen. cbn [has_key]. apply orb_false_intro.
      * destruct (key_at p (a :: replace_keys f p R s)) eqn:Hk; [| reflexivity].
        apply (key_at_copied p p0 p' f a s Hp Hp' ltac:(lia)) in Hk. congruence.
      * apply IH. lia.
Qed.

(** A text without a match is returned as it is. *)
Lemma replace_keys_id f s : has_key p s = false -> replace_keys f p R s = s.
Proof.
  revert s. induction f as [| f IH]; intros s Hs; [now destruct s |].
  destruct s as [| a s]; [reflexivity |].
  cbn [has_key] in Hs. apply orb_false_elim in Hs as [Hk Hs].
  rewrite (replace_keys_nomatch f a s Hk). now rewrite (IH s Hs).
Qed.

Lemma replace_keys_nonempty f s : s <> [] -> replace_keys f p R s <> [].
Proof.
  destruct s as [| a s]; [congruence |]. intros _.
  destruct f as [| f]; [discriminate |].
  destruct (replace_keys_step f a s) as [(b & tl & _ & _ & _ & ->) | [_ ->]];
    [rewrite HR |]; discriminate.
Qed.

End ReplaceKeys.

Section SanitizeError.
Import Runtime Batch Redaction.

Lemma chars_differ (c : ascii) (l : list ascii) :
  forallb (fun a => negb (Ascii.eqb a c)) l = true -> Forall (fun a => a <> c) l.
Proof.
  intros H. apply Forall_forall. intros a Ha%list_elem_of_In ->.
  rewrite forallb_forall in H. specialize (H c Ha).
  now rewrite Ascii.eqb_refl in H.
Qed.

Lemma sanitizeError_free (message : list ascii) :
  let l1 := replace_keys (length message) key_prefix
              (list_ascii_of_string "KEY-REDACTED") message in
  let l2 := replace_keys (length l1) sk_prefix (list_ascii_of_string "SK-REDACTED") l1 in
  has_key key_prefix l2 = false /\ has_key sk_prefix l2 = false.
Proof.
  intros l1 l2. split.
  - eapply (replace_keys_preserves sk_prefix _ "s"%char "S"%char _ _
              eq_refl eq_refl eq_refl key_prefix "k"%char _ eq_refl).
    + now apply chars_differ.
    + now apply chars_differ.
    + reflexivity.
    + eapply (replace_keys_clean key_prefix _ "k"%char "K"%char _ _
                eq_refl eq_refl eq_refl).
      * now apply chars_differ.
      * now apply chars_differ.
      * reflexivity.
  - eapply (replace_keys_clean sk_prefix _ "s"%char "S"%char _ _
              eq_refl eq_refl eq_refl).
    + now apply chars_differ.
    + now apply chars_differ.
    + reflexivity.
Qed.

Lemma sanitizeError_free_of_keys (error : Error) : free_of_keys (sanitizeError error).
Proof.
  unfold free_of_keys, sanitizeError. cbv zeta.
  rewrite list_ascii_of_string_of_list_ascii. apply sanitizeError_free.
Qed.

Lemma sanitizeError_id (message : Error) :
  message <> ""%string -> free_of_keys message -> sanitizeError message = message.
Proof.
  intros Hne [Hkey Hsk]. unfold sanitizeError. cbv zeta.
  destruct (String.eqb_spec message "") as [-> | _]; [congruence |].
  fold key_prefix sk_prefix.
  rewrite (replace_keys_id key_prefix _ _ _ Hkey).
  rewrite (replace_keys_id sk_prefix _ _ _ Hsk).
  apply string_of_list_ascii_of_string.
Qed.

Lemma sanitizeError_nonempty (error : Error) : sanitizeError error <> ""%string.
Proof.
  unfold sanitizeError. cbv zeta. intros E.
  apply (f_equal list_ascii_of_string) in E.
  rewrite list_ascii_of_string_of_list_ascii in E. cbn [list_ascii_of_string] in E.
  revert E.
  apply (replace_keys_nonempty _ _ "S"%char _ eq_refl).
  apply (replace_keys_nonempty _ _ "K"%char _ eq_refl).
  destruct (String.eqb_spec error "") as [-> | Hne]; [discriminate |].
  destruct error; [congruence | discriminate].
Qed.

(** X16: [sanitizeError] leaves no API key in a message: its result holds
    no match of [/key-[a-zA-Z0-9-_]+/] and none of [/sk-[a-zA-Z0-9-_]+/],
    whatever the message was. *)
Theorem sanitizeError_redacts :
  forall error : Error, free_of_keys (sanitizeError error).
Proof. exact sanitizeError_free_of_keys. Qed.

(** X17: [sanitizeError] changes a message only to redact: a non-empty
    message comes back unchanged exactly when it holds no match of the two
    patterns, the empty message becomes 'An error occurred', and sanitizing
    twice is sanitizing once. *)
Theorem sanitizeError_only_redacts :
  forall message : Error,
    (message <> ""%string ->
     (sanitizeError message = message <-> free_of_keys message)) /\
    sanitizeError "" = "An error occurred"%string /\
    sanitizeError (sanitizeError message) = sanitizeError message.
Proof.
  intros message. split; [| split].
  - intros Hne. split.
    + intros <-. apply sanitizeError_free_of_keys.
    + now apply sanitizeError_id.
  - reflexivity.
  - destruct (String.eqb_spec (sanitizeError message) "") as [E | Hne].
    + exfalso. apply (sanitizeError_nonempty message), E.
    + apply sanitizeError_id; [exact Hne | apply sanitizeError_free_of_keys].
Qed.

Lemma sanitizeError_only_redacts_witness :
  ("AI analysis failed"%string <> ""%string /\
   free_of_keys "AI analysis failed") /\
  sanitizeError "AI analysis failed" = "AI analysis failed"%string.
Proof.
  assert (Hne : "AI analysis failed"%string <> ""%string) by discriminate.
  assert (Hfree : free_of_keys "AI analysis failed") by (split; reflexivity).
  split; [split; assumption |].
  exact (proj2 (proj1 (sanitizeError_only_redacts "AI analysis failed") Hne) Hfree).
Defined.

End SanitizeError.

(** ** Batch aggregation: averages, order and accounting *)

Section AggregationProperties.
Import Runtime Route Batch Ranking.
Local Open Scope nat_scope.

Lemma fold_left_snoc {A B} (g : A -> B) (l : list A) (init : list B) :
  fold_left (fun acc a => acc ++ [g a])%list l init = (init ++ map g l)%list.
Proof.
  revert init. induction l as [| a l IH]; intros init; cbn [fold_left map].
  - now rewrite app_nil_r.
  - rewrite IH, <- app_assoc. reflexivity.
Qed.

Lemma fold_left_append {A B} (g : A -> list B) (l : list A) (init : list B) :
  fold_left (fun acc a => acc ++ g a)%list l init = (init ++ concat (map g l))%list.
Proof.
  revert init. induction l as [| a l IH]; intros init; cbn [fold_left map concat].
  - now rewrite app_nil_r.
  - rewrite IH, <- app_assoc. reflexivity.
Qed.

(** The head of a ranking is a value of the array, and no value occurs more
    often. *)
Lemma findMostCommon_head (arr : list string) :
  arr <> [] ->
  exists top, head (findMostCommon arr) = Some top /\ In top arr /\
              forall x, count_occ string_dec arr x <= count_occ string_dec arr top.
Proof.
  intros Hne.
  destruct (findMostCommon_sorted arr) as (sorted & E & Hs & _ & Hcount & Hkeys).
  destruct arr as [| v arr]; [congruence |].
  destruct sorted as [| [top n] sorted].
  - destruct (Hkeys v ltac:(now left)).
  - exists top. rewrite E. split; [reflexivity |].
    destruct (Hcount top n ltac:(now left)) as [Hn Hpos].
    split.
    + apply (count_occ_In string_dec). lia.
    + intros x. destruct (in_dec string_dec x (v :: arr)) as [Hin | Hnot].
      * apply Hkeys, in_map_iff in Hin as ([k m] & <- & Hin). cbn [fst].
        destruct (Hcount k m Hin) as [Hm _]. rewrite <- Hn, <- Hm.
        destruct Hin as [[= -> ->] | Hin]; [lia |].
        apply StronglySorted_inv in Hs as [_ Hall].
        rewrite Forall_forall in Hall.
        apply (Hall (k, m)). now apply list_elem_of_In.
      * rewrite (proj1 (count_occ_not_In string_dec _ x) Hnot). lia.
Qed.

(** X18: [calculateAverageMetrics] gives [null] exactly for no analyses.
    Otherwise, when the moods, energy levels and symptoms of the analyses
    are neither names of members of [Object.prototype] nor written like
    array indices, the predominant mood and energy are defined, are the mood
    and energy of one of the analyses (with the defaults 'neutral' and
    'medium') and no other value is more frequent; the common symptoms are
    exactly the symptoms of the analyses, each listed once. *)
Theorem calculateAverageMetrics_predominant :
  forall analyses : list Analysis,
    (calculateAverageMetrics analyses = None <-> analyses = []) /\
    forall avg,
      calculateAverageMetrics analyses = Some avg ->
      forallb plain_key (ranked_values analyses) = true ->
      let moods := map (fun a => or_text (metrics_mood a) "neutral") analyses in
      let energy := map (fun a => or_text (metrics_energy a) "medium") analyses in
      (exists mood, predominantMood avg = Some mood /\ In mood moods /\
                    forall x, count_occ string_dec moods x <= count_occ string_dec moods mood) /\
      (exists level, predominantEnergy avg = Some level /\ In level energy /\
                     forall x, count_occ string_dec energy x
                               <= count_occ string_dec energy level) /\
      NoDup (commonSymptoms avg) /\
      (forall s, In s (commonSymptoms avg) <->
                 exists a, In a analyses /\ In s (metrics_symptoms a)).
Proof.
  intros analyses. unfold calculateAverageMetrics. split.
  - destruct analyses; cbn [length Nat.eqb]; split; congruence.
  - intros avg. destruct (Nat.eqb_spec (length analyses) 0) as [| Hlen]; [discriminate |].
    assert (Hne : analyses <> []) by (intros ->; now apply Hlen).
    cbv zeta. intros [= <-] _.
    cbn [predominantMood predominantEnergy commonSymptoms].
    rewrite !fold_left_snoc, fold_left_append. cbn [app].
    split; [| split; [| split]].
    + apply findMostCommon_head. destruct analyses; [congruence | discriminate].
    + apply findMostCommon_head. destruct analyses; [congruence | discriminate].
    + destruct (findMostCommon_sorted (concat (map metrics_symptoms analyses)))
        as (sorted & -> & _ & Hnd & _). exact Hnd.
    + intros s. rewrite findMostCommon_In, in_concat. split.
      * intros (l & Hl & Hs). apply in_map_iff in Hl as (a & <- & Ha). now exists a.
      * intros (a & Ha & Hs). exists (metrics_symptoms a). split; [| exact Hs].
        apply in_map_iff. now exists a.
Qed.

Lemma calculateAverageMetrics_predominant_witness :
  let day mood energy symptoms :=
    {| error := VUndefined;
       metrics := Some {| AnalyzeJournal.sleep := Some 7%float;
                          AnalyzeJournal.exercise := None;
                          AnalyzeJournal.mood := mood;
                          AnalyzeJournal.energy := energy;
                          AnalyzeJournal.symptoms := symptoms;
                          AnalyzeJournal.timestamp := 0%Z |};
       timestamp := None |} in
  let analyses :=
    [ day "negative" (Some "low") ["headache"; "fatigue"];
      day "positive" (Some "high") [];
      day "positive" None ["headache"] ]%string in
  exists avg,
    calculateAverageMetrics analyses = Some avg /\
    predominantMood avg = Some "positive"%string /\
    commonSymptoms avg = ["headache"; "fatigue"]%string /\
    (count_occ string_dec ["negative"; "positive"; "positive"]%string "negative"%string
     <= count_occ string_dec ["negative"; "positive"; "positive"]%string "positive"%string).
Proof.
  intros day analyses. eexists. split; [reflexivity |].
  destruct (proj2 (calculateAverageMetrics_predominant analyses) _ eq_refl eq_refl)
    as [(mood & E & _ & Hmost) _].
  assert (Hmood : mood = "positive"%string).
  { vm_compute in E. now injection E as <-. }
  subst mood.
  split; [vm_compute; reflexivity |]. split; [vm_compute; reflexivity |].
  exact (Hmost "negative"%string).
Defined.

(** *** The order of the trend series *)









(** *** The accounting of a batch *)

Lemma analyse_all_length analyzeJournalEntry (entries : list value) :
  forall i results,
    analyse_all analyzeJournalEntry i entries = Resolved results ->
    length results = length entries.
Proof.
  induction entries as [| entry entries IH]; intros i results; cbn [analyse_all].
  - now intros [= <-].
  - destruct (analyse_entry analyzeJournalEntry i entry) as [r | e]; [| discriminate].
    destruct (analyse_all analyzeJournalEntry (S i) entries) as [rs | e] eqn:E;
      [| discriminate].
    intros [= <-]. cbn [length]. f_equal. now apply (IH (S i)).
Qed.

Lemma filter_partition_length {A} (f : A -> bool) (l : list A) :
  length (List.filter (fun x => negb (f x)) l) + length (List.filter f l) = length l.
Proof.
  induction l as [| x l IH]; [reflexivity |].
  cbn [List.filter]. destruct (f x); cbn [negb length]; lia.
Qed.

(** X20: a batch request that is not refused for its rate is recorded in the
    request log before its body is read, so it counts against the caller's
    limit whatever the response; a refused one leaves the log as it was.
    A batch result holds one result for each entry of the request, at least
    one, and its counts of successful and failed analyses add up to the
    total. *)
Theorem POST_accounting :
  forall analyzeJournalEntry (req : Request) (now : Z) (requestLog : gmap string (list Z)),
    let clientIp := or_text (x_forwarded_for req) "unknown" in
    let response := fst (POST analyzeJournalEntry req now requestLog) in
    let requestLog' := snd (POST analyzeJournalEntry req now requestLog) in
    match response with
    | RateLimitExceeded _ => requestLog' = requestLog
    | _ => requestLog' = <[clientIp := (retained clientIp now requestLog ++ [now])%list]> requestLog
    end /\
    forall results aggregateMetrics,
      response = BatchResult results aggregateMetrics ->
      results <> [] /\
      length results = totalEntries aggregateMetrics /\
      successfulAnalyses aggregateMetrics + failedAnalyses aggregateMetrics
      = totalEntries aggregateMetrics.
Proof.
  intros analyzeJournalEntry req now requestLog. cbv zeta. unfold POST. cbv zeta.
  unfold POST_rateLimit, retained. cbv zeta.
  destruct (RATE_LIMIT <=? _); cbn [fst snd].
  - split; [reflexivity | discriminate].
  - destruct (json req) as [body | e]; [| split; [reflexivity | discriminate]].
    destruct (prop body "entries") as [[ | | | | | entries |] |];
      try (split; [reflexivity | discriminate]).
    destruct entries as [| entry entries]; [split; [reflexivity | discriminate] |].
    cbn [length Nat.eqb].
    destruct (analyse_all analyzeJournalEntry 0 (entry :: entries)) as [results | e] eqn:E;
      [| split; [reflexivity | discriminate]].
    split; [reflexivity |]. intros ? ? [= <- <-].
    cbn [totalEntries successfulAnalyses failedAnalyses].
    pose proof (analyse_all_length _ _ _ _ E) as Hlen. cbn [length] in Hlen.
    split; [| split].
    + intros ->. discriminate.
    + exact Hlen.
    + rewrite filter_partition_length. exact Hlen.
Qed.

Lemma POST_accounting_witness :
  let analyzeJournalEntry (i : nat) (content : string) (k : nat)
    : outcome Analysis Error := Rejected "AI analysis failed"%string in
  let req := {| x_forwarded_for := None;
                json := Resolved (VObj [("entries"%string,
                          VArr [VObj [("id"%string, VNum 1%float);
                                      ("content"%string, VStr "slept 8 hours")]])]) |} in
  exists results aggregateMetrics,
    fst (POST analyzeJournalEntry req 0 ∅) = BatchResult results aggregateMetrics /\
    length results = totalEntries aggregateMetrics.
Proof.
  intros analyzeJournalEntry req.
  pose proof (proj2 (POST_accounting analyzeJournalEntry req 0 ∅)) as H.
  cbv zeta in H.
  eexists. eexists. split; [vm_compute; reflexivity |].
  refine (proj1 (proj2 (H _ _ _))). vm_compute. reflexivity.
Defined.

End AggregationProperties.

(** ** Patterns and scores *)

Section PatternProperties.
Import JS Analytics.
Local Open Scope string_scope.

Lemma sub_diag_cases (x : number) :
  (is_finite x = true /\ (x - x)%float = zero) \/
  (is_finite x = false /\ (x - x)%float = nan).
Proof.
  unfold is_finite, is_nan, is_infinity.
  rewrite !FloatAxioms.eqb_spec, FloatAxioms.abs_spec.
  assert (E : Prim2SF (x - x) = SFsub prec emax (Prim2SF x) (Prim2SF x))
    by apply FloatAxioms.sub_spec.
  destruct (Prim2SF x) as [ [] | [] | | s m e ] eqn:Hx.
  - left. split; [reflexivity |]. apply Prim2SF_inj. rewrite E. reflexivity.
  - left. split; [reflexivity |]. apply Prim2SF_inj. rewrite E. reflexivity.
  - right. split; [reflexivity |]. apply Prim2SF_inj. rewrite E. reflexivity.
  - right. split; [reflexivity |]. apply Prim2SF_inj. rewrite E. reflexivity.
  - right. split; [reflexivity |]. apply Prim2SF_inj. rewrite E. reflexivity.
  - left. split.
    + unfold SFeqb, SFcompare, SFabs.
      rewrite Z.compare_refl, Pos.compare_cont_refl. now destruct s.
    + apply Prim2SF_inj. rewrite E. unfold SFsub.
      rewrite Z.sub_diag. reflexivity.
Qed.

(** X21: [determinePattern] on short series.  Fewer than two values give
    'Not enough data'.  Two values always give 'Declining': the moving
    average is empty and the trend NaN.  Three values never give
    'Improving': there is one moving average, so the trend is 0 and the
    pattern 'Stable' when that average is finite, and 'Declining' when it is
    not. *)
Theorem determinePattern_short_series :
  (forall data : list number,
     (length data < 2)%nat -> determinePattern data = "Not enough data") /\
  (forall a b : number, determinePattern [a; b] = "Declining") /\
  (forall a b c : number,
     determinePattern [a; b; c] =
       if is_finite ((0 + a + b + c) / 3)%float then "Stable" else "Declining").
Proof.
  split; [| split].
  - intros data H. unfold determinePattern.
    destruct (Nat.ltb_spec (length data) 2) as [_ | H']; [reflexivity | lia].
  - intros a b. reflexivity.
  - intros a b c. unfold determinePattern. cbn [length Nat.ltb Nat.leb].
    change (movingAvg [a; b; c]) with [((0 + a + b + c) / 3)%float].
    cbv zeta. cbn [last head operand].
    destruct (sub_diag_cases ((0 + a + b + c) / 3)%float) as [[-> ->] | [-> ->]];
      reflexivity.
Qed.

Lemma determinePattern_short_series_witness :
  (length [7%float] < 2)%nat /\ determinePattern [7%float] = "Not enough data".
Proof.
  split; [cbn; lia |].
  apply (proj1 determinePattern_short_series). cbn. lia.
Defined.

End PatternProperties.

Section ScoreProperties.
Import JS Reports Scores.

Lemma is_nan_Prim2SF (x : number) : is_nan x = false -> Prim2SF x <> S754_nan.
Proof.
  unfold is_nan. rewrite FloatAxioms.eqb_spec. intros H E. rewrite E in H. discriminate.
Qed.

Lemma SFcompare_total (x y : spec_float) :
  x <> S754_nan -> y <> S754_nan -> exists c, SFcompare x y = Some c.
Proof.
  intros Hx Hy.
  destruct x as [ [] | [] | | [] mx ex ], y as [ [] | [] | | [] my ey ];
    try congruence; cbn; eauto.
Qed.

Lemma SFcompare_antisym (x y : spec_float) :
  SFcompare x y = Some Lt <-> SFcompare y x = Some Gt.
Proof.
  destruct x as [ [] | [] | | [] mx ex ], y as [ [] | [] | | [] my ey ];
    cbn; try (split; congruence).
  all: rewrite (Z.compare_antisym ex ey); destruct (ex ?= ey)%Z; cbn [CompOpp];
    try (split; congruence).
  all: change (Pos.compare_cont Eq my mx) with (my ?= mx)%positive;
    change (Pos.compare_cont Eq mx my) with (mx ?= my)%positive;
    rewrite (Pos.compare_antisym mx my); destruct (mx ?= my)%positive; cbn [CompOpp];
    split; congruence.
Qed.

(** [Math.max(0, Math.min(100, x))] is NaN or a number from 0 to 100. *)
Lemma clamp_percentage (x : number) :
  let r := Math_max 0 (Math_min 100 x) in
  is_nan r = true \/ percentage r = true.
Proof.
  cbv zeta. unfold Math_min.
  change (is_nan 100) with false. cbn [orb].
  destruct (is_nan x) eqn:Hnan; [left; reflexivity |].
  assert (Hm : exists m, is_nan m = false /\ (m <=? 100)%float = true /\
                         (if (100 <? x)%float then 100%float
                          else if (x <? 100)%float then x
                          else if get_sign 100 then 100%float else x) = m).
  { pose proof (is_nan_Prim2SF x Hnan) as Hx.
    destruct (SFcompare_total (Prim2SF x) (Prim2SF 100) Hx ltac:(discriminate)) as [c Hc].
    destruct (100 <? x)%float eqn:H1; [exists 100%float; repeat split |].
    destruct (x <? 100)%float eqn:H2.
    - exists x. repeat split; [exact Hnan |].
      rewrite FloatAxioms.leb_spec. rewrite FloatAxioms.ltb_spec in H2.
      unfold SFleb, SFltb in *. destruct (SFcompare _ _) as [[] |]; congruence.
    - change (get_sign 100) with false. cbv iota.
      exists x. repeat split; [exact Hnan |].
      rewrite FloatAxioms.leb_spec. rewrite FloatAxioms.ltb_spec in H1, H2.
      unfold SFleb, SFltb in *. rewrite Hc in *.
      destruct c; try reflexivity.
      apply SFcompare_antisym in Hc. rewrite Hc in H1. discriminate. }
  destruct Hm as (m & Hmnan & Hle & ->).
  unfold Math_max. change (is_nan 0) with false. rewrite Hmnan. cbn [orb].
  right. unfold percentage.
  pose proof (is_nan_Prim2SF m Hmnan) as Hx.
  destruct (SFcompare_total (Prim2SF 0) (Prim2SF m) ltac:(discriminate) Hx) as [c Hc].
  destruct (0 <? m)%float eqn:H1.
  - rewrite Hle, andb_true_r.
    rewrite FloatAxioms.leb_spec. rewrite FloatAxioms.ltb_spec in H1.
    unfold SFleb, SFltb in *. destruct (SFcompare _ _) as [[] |]; congruence.
  - destruct (m <? 0)%float; [reflexivity |].
    change (get_sign 0) with false. cbv iota. reflexivity.
Qed.

(** X22: the consistency score is 0 for fewer than two data points, and
    otherwise, with or without a target value, a number from 0 to 100, or
    NaN (when a value of the data is NaN): it is never below 0 nor above
    100. *)
Theorem calculateConsistencyScore_range :
  forall (data : list point) (targetValue : option number),
    let score := calculateConsistencyScore data targetValue in
    ((length data < 2)%nat -> score = 0%float) /\
    (is_nan score = true \/ percentage score = true).
Proof.
  intros data targetValue. cbv zeta. unfold calculateConsistencyScore.
  destruct (Nat.ltb_spec (length data) 2) as [Hlt | Hge].
  - split; [reflexivity | right; reflexivity].
  - split; [lia |]. cbv zeta. apply clamp_percentage.
Qed.

Lemma calculateConsistencyScore_range_witness :
  let data := [ {| value := 5; quality := "good" |} ] in
  (length data < 2)%nat /\ calculateConsistencyScore data (Some 8%float) = 0%float.
Proof.
  intros data. split; [cbn; lia |].
  apply (proj1 (calculateConsistencyScore_range data (Some 8%float))). cbn. lia.
Defined.

End ScoreProperties.

(** ** The single-entry handler on the journal analysis *)

Section SingleEntryProperties.
Import JS Runtime Route Batch AnalyzeJournal Enrichment Orchestration SingleEntry.
Local Open Scope string_scope.

Variable Number_toString : number -> string.
Variable JSON_stringify : Metrics -> string.
Variable JSON_parse : string -> option value.
Variable world : nat -> Z * Call * gmap string CacheEntry.



End SingleEntryProperties.


(** ** The journal in [localStorage] *)

Section StorageProperties.
Import Runtime Storage.
Local Open Scope string_scope.

Variable JSON_stringify : value -> string.
Variable JSON_parse : string -> option value.
Variable accepts : gmap string string -> string -> string -> bool.

(** X24: saving and reading back.  When the storage accepts the text of
    the entries and [JSON.parse] reads that text back as the entries,
    [saveJournalEntries] reports success, [getJournalEntries] then returns
    the entries, and no other item of the storage is touched.  When the
    storage refuses, [saveJournalEntries] reports failure and the storage
    is as before. *)
Theorem journal_round_trip :
  forall (entries : value) (localStorage : gmap string string),
    let saved := saveJournalEntries JSON_stringify accepts entries localStorage in
    (accepts localStorage "journalEntries" (JSON_stringify entries) = true ->
     JSON_stringify entries <> "" ->
     JSON_parse (JSON_stringify entries) = Some entries ->
     fst saved = true /\
     getJournalEntries JSON_parse (snd saved) = entries /\
     forall key, key <> "journalEntries" -> snd saved !! key = localStorage !! key) /\
    (accepts localStorage "journalEntries" (JSON_stringify entries) = false ->
     saved = (false, localStorage)).
Proof.
  intros entries localStorage saved. subst saved.
  unfold saveJournalEntries, setItem. split.
  - intros -> Hne Hparse. cbn [fst snd]. split; [reflexivity |]. split.
    + unfold getJournalEntries. rewrite lookup_insert_eq.
      destruct (String.eqb_spec (JSON_stringify entries) ""); [contradiction |].
      now rewrite Hparse.
    + intros key Hkey. now apply lookup_insert_ne.
  - now intros ->.
Qed.

(** X25: [addJournalEntry] returns the new list, the entry before the
    stored entries, whether or not the list could be saved: when the
    storage refuses the write, the caller still gets the list and the
    storage is as before.  When the stored text cannot be parsed the stored
    entries count as none, and an accepted write replaces that text by the
    list of the one new entry.  When the stored value cannot be spread,
    [addJournalEntry] returns [null] and writes nothing. *)
Theorem addJournalEntry_unsaved :
  forall (entry : value) (localStorage : gmap string string),
    let added := addJournalEntry JSON_stringify JSON_parse accepts entry localStorage in
    (forall entries,
       spread (getJournalEntries JSON_parse localStorage) = Some entries ->
       fst added = Some (VArr (entry :: entries)) /\
       (accepts localStorage "journalEntries" (JSON_stringify (VArr (entry :: entries)))
        = false ->
        snd added = localStorage)) /\
    (forall text,
       localStorage !! "journalEntries" = Some text ->
       JSON_parse text = None ->
       fst added = Some (VArr [entry]) /\
       (accepts localStorage "journalEntries" (JSON_stringify (VArr [entry])) = true ->
        snd added !! "journalEntries" = Some (JSON_stringify (VArr [entry])))) /\
    (spread (getJournalEntries JSON_parse localStorage) = None ->
     added = (None, localStorage)).
Proof.
  intros entry localStorage added. subst added. unfold addJournalEntry.
  split; [| split].
  - intros entries ->. cbv zeta. cbn [fst snd]. split; [reflexivity |].
    intros Hrefused. unfold saveJournalEntries, setItem. now rewrite Hrefused.
  - intros text Htext Hparse.
    assert (E : getJournalEntries JSON_parse localStorage = VArr []).
    { unfold getJournalEntries. rewrite Htext, Hparse. now destruct (String.eqb text ""). }
    rewrite E. cbn [spread]. cbv zeta. cbn [fst snd]. split; [reflexivity |].
    intros Hok. unfold saveJournalEntries, setItem. rewrite Hok. cbn [snd].
    apply lookup_insert_eq.
  - now intros ->.
Qed.

End StorageProperties.

Section StorageWitnesses.
Import Runtime Storage.
Local Open Scope string_scope.

Lemma journal_round_trip_witness :
  let entries := VArr [VStr "walked 30 minutes, then rested"; VStr "slept 8 hours"] in
  let localStorage : gmap string string := {[ "goalsData" := "{}" ]} in
  let saved :=
    saveJournalEntries JSONText.stringify JSONText.fits entries localStorage in
  fst saved = true /\
  getJournalEntries JSONText.parse (snd saved) = entries /\
  getJournalEntries JSONText.parse localStorage = VArr [] /\
  snd saved !! "goalsData" = Some "{}".
Proof.
  intros entries localStorage saved. subst saved.
  destruct (proj1 (journal_round_trip JSONText.stringify JSONText.parse JSONText.fits
                     entries localStorage)) as (Hsaved & Hread & Hother).
  - reflexivity.
  - discriminate.
  - vm_compute. reflexivity.
  - split; [exact Hsaved |]. split; [exact Hread |]. split; [reflexivity |].
    rewrite (Hother "goalsData"); [reflexivity | discriminate].
Defined.

Lemma addJournalEntry_unsaved_witness :
  let JSON_stringify (v : value) := "[]" in
  let JSON_parse (s : string) : option value := None in
  let accepts (localStorage : gmap string string) (key text : string) := false in
  let localStorage : gmap string string := {[ "journalEntries" := "not JSON" ]} in
  fst (addJournalEntry JSON_stringify JSON_parse accepts (VStr "entry") localStorage)
  = Some (VArr [VStr "entry"]) /\
  snd (addJournalEntry JSON_stringify JSON_parse accepts (VStr "entry") localStorage)
  = localStorage.
Proof.
  intros JSON_stringify' JSON_parse' accepts' localStorage.
  pose proof (addJournalEntry_unsaved JSON_stringify' JSON_parse' accepts'
                (VStr "entry") localStorage) as (Hadd & _ & _).
  destruct (Hadd [] eq_refl) as [Hfst Hsnd].
  split; [exact Hfst | exact (Hsnd eq_refl)].
Defined.

End StorageWitnesses.

(** ** The extraction does not depend on the case of the text *)

Section CaseInsensitivity.
Import JS Regex AnalyzeJournal CaseFolding.
Local Open Scope nat_scope.

Lemma In_code_units (a : ascii) : In a code_units.
Proof.
  unfold code_units. apply in_map_iff. exists (nat_of_ascii a).
  split; [apply ascii_nat_embedding |].
  apply in_seq. pose proof (nat_ascii_bounded a). lia.
Qed.

(** A property of code units that holds by evaluation on all 256. *)
Lemma by_cases (P : ascii -> bool) :
  forallb P code_units = true -> forall a, P a = true.
Proof. intros H a. rewrite forallb_forall in H. apply H, In_code_units. Qed.

Lemma is_digit_lower a : is_digit (lower_char a) = is_digit a.
Proof.
  apply eqb_prop.
  apply (by_cases (fun a => Bool.eqb (is_digit (lower_char a)) (is_digit a))).
  vm_compute. reflexivity.
Qed.

Lemma is_space_lower a : is_space (lower_char a) = is_space a.
Proof.
  apply eqb_prop.
  apply (by_cases (fun a => Bool.eqb (is_space (lower_char a)) (is_space a))).
  vm_compute. reflexivity.
Qed.

Lemma is_word_lower a : is_word (lower_char a) = is_word a.
Proof.
  apply eqb_prop.
  apply (by_cases (fun a => Bool.eqb (is_word (lower_char a)) (is_word a))).
  vm_compute. reflexivity.
Qed.

Lemma lower_char_idem a : lower_char (lower_char a) = lower_char a.
Proof.
  apply Ascii.eqb_eq.
  apply (by_cases (fun a => Ascii.eqb (lower_char (lower_char a)) (lower_char a))).
  vm_compute. reflexivity.
Qed.

Lemma lower_char_digit a : is_digit a = true -> lower_char a = a.
Proof.
  intros H. apply Ascii.eqb_eq. revert H. apply implb_true_iff.
  apply (by_cases (fun a => implb (is_digit a) (Ascii.eqb (lower_char a) a))).
  vm_compute. reflexivity.
Qed.

Lemma lower_char_dot a : Ascii.eqb (lower_char a) "." = Ascii.eqb a ".".
Proof.
  apply eqb_prop.
  apply (by_cases (fun a => Bool.eqb (Ascii.eqb (lower_char a) ".") (Ascii.eqb a "."))).
  vm_compute. reflexivity.
Qed.

Lemma char_eq_lower p a :
  (code p <? 128) = true -> char_eq true p (lower_char a) = char_eq true p a.
Proof.
  intros Hp. apply eqb_prop. revert Hp. apply implb_true_iff.
  revert a.
  apply (by_cases (fun a => implb (code p <? 128)
                              (Bool.eqb (char_eq true p (lower_char a)) (char_eq true p a)))).
  revert p.
  apply (by_cases (fun p => forallb (fun a => implb (code p <? 128)
                              (Bool.eqb (char_eq true p (lower_char a)) (char_eq true p a)))
                              code_units)).
  vm_compute. reflexivity.
Qed.

Lemma advance_lower a c rest' :
  advance (lower_char a) (lower_cursor c) (map lower_char rest')
  = lower_cursor (advance a c rest').
Proof. unfold advance, lower_cursor. cbn. now destruct (open_group c). Qed.

Lemma take_if_lower (P Q : ascii -> bool) c :
  (forall a, P (lower_char a) = Q a) ->
  take_if P (lower_cursor c) = option_map lower_cursor (take_if Q c).
Proof.
  intros H. unfold take_if. cbn [lower_cursor rest].
  destruct (rest c) as [| a rest']; [reflexivity |]. cbn [map].
  rewrite H. destruct (Q a); [| reflexivity].
  cbn [option_map]. f_equal. apply (advance_lower a c rest').
Qed.

Lemma take_lit_lower s :
  forallb (fun p => code p <? 128) (list_ascii_of_string s) = true ->
  forall c, take_lit true s (lower_cursor c) = option_map lower_cursor (take_lit true s c).
Proof.
  induction s as [| p s IH]; intros Hs c; [reflexivity |].
  cbn [list_ascii_of_string forallb] in Hs. apply andb_prop in Hs as [Hp Hs].
  cbn [take_lit].
  rewrite (take_if_lower (char_eq true p) (char_eq true p) c
             (fun a => char_eq_lower p a Hp)).
  destruct (take_if (char_eq true p) c) as [c' |]; [| reflexivity].
  cbn [option_map]. apply (IH Hs).
Qed.

Lemma at_word_boundary_lower c : at_word_boundary (lower_cursor c) = at_word_boundary c.
Proof.
  unfold at_word_boundary. cbn [lower_cursor before rest]. f_equal.
  - destruct (before c); [apply is_word_lower | reflexivity].
  - destruct (rest c); [reflexivity | apply is_word_lower].
Qed.

(** The continuations of a match on the lower-cased text and on the text. *)
Definition lowered (k' k : cursor -> option cursor) : Prop :=
  forall c, k' (lower_cursor c) = option_map lower_cursor (k c).

Lemma loop_lower (r : regex) (k' k : cursor -> option cursor) :
  (forall c k' k, lowered k' k ->
     run true r (lower_cursor c) k' = option_map lower_cursor (run true r c k)) ->
  lowered k' k ->
  forall fuel c,
    (fix loop (fuel : nat) (c : cursor) {struct fuel} : option cursor :=
       match fuel with
       | O => k' c
       | S fuel' =>
           match run true r c
                   (fun c' => if consumed c <? consumed c' then loop fuel' c' else None) with
           | Some c' => Some c'
           | None => k' c
           end
       end) fuel (lower_cursor c)
    = option_map lower_cursor
        ((fix loop (fuel : nat) (c : cursor) {struct fuel} : option cursor :=
            match fuel with
            | O => k c
            | S fuel' =>
                match run true r c
                        (fun c' => if consumed c <? consumed c' then loop fuel' c' else None) with
                | Some c' => Some c'
                | None => k c
                end
            end) fuel c).
Proof.
  intros Hr Hk. induction fuel as [| fuel IH]; intros c; [apply Hk |].
  rewrite (Hr c _ (fun c' => if consumed c <? consumed c'
                             then (fix loop (fuel : nat) (c : cursor) {struct fuel}
                                     : option cursor :=
                                     match fuel with
                                     | O => k c
                                     | S fuel' =>
                                         match run true r c
                                                 (fun c' => if consumed c <? consumed c'
                                                            then loop fuel' c' else None) with
                                         | Some c' => Some c'
                                         | None => k c
                                         end
                                     end) fuel c'
                             else None)).
  - destruct (run true r c _) as [c' |]; [reflexivity | apply Hk].
  - intros c'. cbn [lower_cursor consumed].
    destruct (consumed c <? consumed c'); [apply IH | reflexivity].
Qed.

Lemma run_lower (r : regex) :
  ascii_pattern r = true ->
  forall c k' k, lowered k' k ->
    run true r (lower_cursor c) k' = option_map lower_cursor (run true r c k).
Proof.
  induction r as [| s | | | | r1 IH1 r2 IH2 | r1 IH1 r2 IH2 | r1 IH1 | r1 IH1 | r1 IH1
                  | r1 IH1]; intros Hascii c k' k Hk; cbn [ascii_pattern] in Hascii.
  - apply Hk.
  - cbn [run]. rewrite (take_lit_lower s Hascii c).
    destruct (take_lit true s c); [apply Hk | reflexivity].
  - cbn [run]. rewrite (take_if_lower is_digit is_digit c is_digit_lower).
    destruct (take_if is_digit c); [apply Hk | reflexivity].
  - cbn [run]. rewrite (take_if_lower is_space is_space c is_space_lower).
    destruct (take_if is_space c); [apply Hk | reflexivity].
  - cbn [run]. rewrite at_word_boundary_lower.
    destruct (at_word_boundary c); [apply Hk | reflexivity].
  - apply andb_prop in Hascii as [H1 H2]. cbn [run].
    apply (IH1 H1). intros c'. now apply (IH2 H2).
  - apply andb_prop in Hascii as [H1 H2]. cbn [run].
    rewrite (IH1 H1 c k' k Hk).
    destruct (run true r1 c k); [reflexivity | now apply (IH2 H2)].
  - cbn [run]. rewrite (IH1 Hascii c k' k Hk).
    destruct (run true r1 c k); [reflexivity | apply Hk].
  - cbn [run]. cbn [lower_cursor rest]. rewrite length_map.
    apply (loop_lower r1 k' k (IH1 Hascii) Hk).
  - cbn [run]. apply (IH1 Hascii). intros c1.
    cbn [lower_cursor rest]. rewrite length_map.
    apply (loop_lower r1 k' k (IH1 Hascii) Hk).
  - cbn [run].
    change {| before := before (lower_cursor c); rest := rest (lower_cursor c);
              consumed := consumed (lower_cursor c); open_group := Some [];
              capture := capture (lower_cursor c) |}
      with (lower_cursor {| before := before c; rest := rest c; consumed := consumed c;
                            open_group := Some []; capture := capture c |}).
    apply (IH1 Hascii). intros c'.
    rewrite <- Hk. f_equal. unfold lower_cursor. cbn. f_equal.
    destruct (open_group c'); [| reflexivity]. cbn. now rewrite map_rev.
Qed.

Lemma match_here_lower (re : RegExp) b text :
  folding re = true ->
  match_here re (option_map lower_char b) (map lower_char text)
  = option_map lower_cursor (match_here re b text).
Proof.
  unfold folding, match_here. intros [Hi Ha]%andb_prop. rewrite Hi.
  apply (run_lower (source re) Ha
           {| before := b; rest := text; consumed := 0; open_group := None;
              capture := None |}).
  intros c. reflexivity.
Qed.

Lemma exec_from_lower (re : RegExp) text :
  folding re = true ->
  forall b i,
    exec_from re (option_map lower_char b) (map lower_char text) i
    = option_map lower_result (exec_from re b text i).
Proof.
  intros Hre. induction text as [| a text IH]; intros b i; cbn [exec_from map].
  - pose proof (match_here_lower re b [] Hre) as E. cbn [map] in E. rewrite E.
    destruct (match_here re b []); reflexivity.
  - pose proof (match_here_lower re b (a :: text) Hre) as E. cbn [map] in E. rewrite E.
    destruct (match_here re b (a :: text)); [reflexivity |].
    apply (IH (Some a) (S i)).
Qed.

Lemma list_ascii_of_toLowerCase (s : string) :
  list_ascii_of_string (toLowerCase s) = map lower_char (list_ascii_of_string s).
Proof. induction s as [| a s IH]; [reflexivity |]. cbn. now rewrite IH. Qed.

Lemma String_match_lower (re : RegExp) (text : string) :
  folding re = true ->
  String_match (toLowerCase text) re = option_map lower_result (String_match text re).
Proof.
  intros Hre. unfold String_match. rewrite list_ascii_of_toLowerCase.
  apply (exec_from_lower re _ Hre None 0).
Qed.

Lemma toLowerCase_idem (s : string) : toLowerCase (toLowerCase s) = toLowerCase s.
Proof.
  induction s as [| a s IH]; [reflexivity |]. cbn. now rewrite IH, lower_char_idem.
Qed.

Lemma span_digits_lower (l : list ascii) :
  span_digits (map lower_char l)
  = (fst (span_digits l), map lower_char (snd (span_digits l))).
Proof.
  induction l as [| a l IH]; [reflexivity |]. cbn [map span_digits].
  rewrite is_digit_lower. destruct (is_digit a) eqn:Ha; [| reflexivity].
  rewrite IH. destruct (span_digits l) as [ds tl]. cbn [fst snd].
  now rewrite (lower_char_digit a Ha).
Qed.

Lemma parseFloat_lower (l : list ascii) : parseFloat (map lower_char l) = parseFloat l.
Proof.
  unfold parseFloat. rewrite span_digits_lower.
  destruct (span_digits l) as [int_part tl]. cbn [fst snd].
  destruct int_part as [| d ds]; [reflexivity |].
  destruct tl as [| dot tl']; [reflexivity |]. cbn [map].
  rewrite lower_char_dot. destruct (Ascii.eqb dot "."); [| reflexivity].
  now rewrite span_digits_lower.
Qed.

Lemma parseInt_lower (l : list ascii) : parseInt (map lower_char l) = parseInt l.
Proof. unfold parseInt. now rewrite span_digits_lower. Qed.

Lemma captured_lower (m : MatchResult) : captured (lower_result m) = map lower_char (captured m).
Proof. unfold captured, lower_result. cbn. now destruct (group1 m). Qed.

Lemma analyzeLocally_lower (entry : string) (now : Z) :
  analyzeLocally (toLowerCase entry) now = analyzeLocally entry now.
Proof.
  unfold analyzeLocally. cbv zeta. rewrite toLowerCase_idem.
  rewrite (String_match_lower patterns_sleep entry eq_refl).
  rewrite (String_match_lower patterns_exercise entry eq_refl).
  f_equal.
  - destruct (String_match entry patterns_sleep) as [m |]; [| reflexivity].
    cbn [option_map]. now rewrite captured_lower, parseFloat_lower.
  - destruct (String_match entry patterns_exercise) as [m |]; [| reflexivity].
    cbn [option_map]. now rewrite captured_lower, parseInt_lower.
Qed.

(** X26: the extraction does not depend on the case of the entry: two
    entries that differ only in the case of their letters get the same
    sleep and exercise durations, mood, energy and symptoms. *)
Theorem analyzeLocally_case_insensitive :
  forall (entry1 entry2 : string) (now : Z),
    toLowerCase entry1 = toLowerCase entry2 ->
    analyzeLocally entry1 now = analyzeLocally entry2 now.
Proof.
  intros entry1 entry2 now H.
  rewrite <- (analyzeLocally_lower entry1 now), <- (analyzeLocally_lower entry2 now).
  now rewrite H.
Qed.

Lemma analyzeLocally_case_insensitive_witness :
  analyzeLocally "I SLEPT 7 Hours and feel Tired" 0
  = analyzeLocally "i slept 7 hours and feel tired" 0.
Proof.
  apply (analyzeLocally_case_insensitive
           "I SLEPT 7 Hours and feel Tired" "i slept 7 hours and feel tired" 0%Z).
  reflexivity.
Defined.

End CaseInsensitivity.
